(** * News application: approval workflow, fan-out and read tracking

    A shallow embedding of the article approval views
    ([news_app/editor_views.py], [news_app/editor_permissions.py]), of the
    [Notification] model and the subscriber queries ([news_app/models.py]),
    of the synchronous fan-out ([news_app/signals.py]) and of the read
    tracking endpoints ([news_app/email_tracking.py], [news_app/urls.py]);
    further of the admin approval views ([news_app/admin_views.py]), the
    subscription views and the article API queryset ([news_app/views.py],
    [news_app/api_views.py]), the Celery fan-out task
    ([news_app/tasks.py]) and the notification cleanup command
    ([news_app/management/commands/optimize_email_tracking.py]).

    Database tables are finite maps or row lists, the Django cache is a
    finite map with expiry times, the wall clock and the entropy source are
    explicit inputs, and exceptions are explicit outcomes. *)

From Stdlib Require Import ZArith NArith Lia Ascii.
From stdpp Require Import base option list strings gmap sets pretty.

Local Open Scope string_scope.

(** Timestamps are microseconds since the epoch (the resolution of
    Python's [datetime]). *)
Abbreviation Time := Z (only parsing).

Definition SECOND : Z := 1000000.

(* ===================================================================== *)
(** ** Python helpers *)

(** Truthiness of a Python [str]. *)
Definition str_truthy (s : string) : bool :=
  match s with
  | EmptyString => false
  | String _ _ => true
  end.

(** [s1 == s2] on strings. *)
Definition str_eq (s1 s2 : string) : bool := bool_decide (s1 = s2).

(** [str(n)] for an integer. *)
Definition str_of_int (n : Z) : string := pretty n.

(** The one-character string holding a double quote. *)
Definition DQUOTE : string := String (Ascii.ascii_of_nat 34) EmptyString.

(* ===================================================================== *)
(** ** models.py: users and articles *)

Module Models.

(** [CustomUser(AbstractUser)].  [email] is [None] for SQL NULL; Django's
    [AbstractUser] stores the empty string for a missing address.
    [has_perm_approve_article] is the answer of
    [user.has_perm('news_app.approve_article')]. *)
Record CustomUser := {
  user_pk : Z;
  username : string;
  full_name : string;
  email : option string;
  role : string;
  groups : list string;
  has_perm_approve_article : bool;
  is_staff : bool;
  is_superuser : bool
}.

(** [request.user]: Django's [AnonymousUser] or a stored user. *)
Inductive RequestUser :=
| AnonymousUser
| LoggedIn (u : CustomUser).

Definition is_authenticated (user : RequestUser) : bool :=
  match user with
  | AnonymousUser => false
  | LoggedIn _ => true
  end.

(** [Article]: the columns the workflow reads or writes.  [author],
    [publisher] and [approved_by] are foreign keys. *)
Record Article := {
  title : string;
  slug : string;
  summary : string;
  author : Z;
  publisher : option Z;
  status : string;
  is_approved : bool;
  approved_by : option Z;
  approved_at : option Time;
  published_at : option Time
}.

(** Assignment to the five approval attributes of an article object. *)
Definition set_approval (article : Article) (is_approved' : bool)
    (status' : string) (approved_by' : option Z)
    (approved_at' published_at' : option Time) : Article :=
  {| title := title article;
     slug := slug article;
     summary := summary article;
     author := author article;
     publisher := publisher article;
     status := status';
     is_approved := is_approved';
     approved_by := approved_by';
     approved_at := approved_at';
     published_at := published_at' |}.

(** [article.author == user]: model instances compare by primary key and
    the anonymous user equals no stored user. *)
Definition author_is (article : Article) (user : RequestUser) : bool :=
  match user with
  | AnonymousUser => false
  | LoggedIn u => bool_decide (author article = user_pk u)
  end.

(** The [news_app_article] table, keyed by [id]. *)
Abbreviation ArticleTable := (gmap Z Article).

End Models.

(* ===================================================================== *)
(** ** Requests, flashed messages and responses of the editor views *)

Module Http.
Import Models.

Inductive Method := GET | POST | OTHER.

Inductive Level := DEBUG | INFO | SUCCESS | WARNING | ERROR.

(** The [django.contrib.messages] entries queued by a view. *)
Definition Messages := list (Level * string).

(** [redirect(name)], [redirect(name, article_id=..)], [Http404] raised by
    [get_object_or_404] and the 405 of [require_http_methods]. *)
Inductive Response :=
| Redirect (to : string) (article_id : option Z)
| Http404
| HttpResponseNotAllowed.

(** The parts of an [HttpRequest] the editor views read: the user, the
    method and the POST fields [next], [action], [article_ids] and
    [rejection_reason]. *)
Record Request := {
  user : RequestUser;
  method : Method;
  post_next : option string;
  post_action : option string;
  post_article_ids : list Z;
  post_rejection_reason : option string
}.

(** What a view leaves behind: its response, the messages it queued and
    the article table. *)
Record Outcome := {
  response : Response;
  flashed : Messages;
  articles : ArticleTable
}.

(** A view taking the [article_id] URL argument.  The first argument is
    the wall clock: [clock k] is the value of the [k]-th call of
    [timezone.now()] made while the view runs. *)
Definition ArticleView := (nat → Time) → ArticleTable → Request → Z → Outcome.

Definition ListView := (nat → Time) → ArticleTable → Request → Outcome.

End Http.

(* ===================================================================== *)
(** ** editor_permissions.py *)

Module EditorPermissions.
Import Models Http.

Definition is_editor_or_in_editor_group (user : RequestUser) : bool :=
  match user with
  | AnonymousUser => false
  | LoggedIn u =>
      if str_eq (role u) "editor" then true
      else if bool_decide ("Editor" ∈ groups u) then true
      else if has_perm_approve_article u then true
      else if is_superuser u || is_staff u then true
      else false
  end.

Definition user_is_staff_or_superuser (user : RequestUser) : bool :=
  match user with
  | AnonymousUser => false
  | LoggedIn u => is_staff u || is_superuser u
  end.

Definition check_article_edit_permission (user : RequestUser)
    (article : Article) : bool * string :=
  if negb (is_authenticated user) then
    (false, "User not authenticated")
  else if author_is article user then
    (false, "Authors cannot approve their own articles")
  else if is_editor_or_in_editor_group user then
    (true, "User has editor permissions")
  else if user_is_staff_or_superuser user then
    (true, "User has staff/admin permissions")
  else
    (false, "User lacks editor permissions").

Definition ACCESS_DENIED : string :=
  "Access denied. Editor role or Editor group membership required.".

(** The decorator [editor_required] around a view without URL argument. *)
Definition editor_required (view_func : ListView) : ListView :=
  fun clock db request =>
    if negb (is_authenticated (user request)) then
      {| response := Redirect "login" None;
         flashed := [(WARNING, "Please login to access the editor area.")];
         articles := db |}
    else if negb (is_editor_or_in_editor_group (user request)) then
      {| response := Redirect "article_list" None;
         flashed := [(ERROR, ACCESS_DENIED)];
         articles := db |}
    else view_func clock db request.

(** The decorator [article_approval_permission_required].  The URL
    argument is looked at only when it is truthy ([if article_id:]). *)
Definition article_approval_permission_required (view_func : ArticleView)
    : ArticleView :=
  fun clock db request article_id =>
    if negb (is_authenticated (user request)) then
      {| response := Redirect "login" None;
         flashed := [(WARNING, "Please log in to access the editor area.")];
         articles := db |}
    else if negb (is_editor_or_in_editor_group (user request)) then
      {| response := Redirect "article_list" None;
         flashed := [(ERROR, ACCESS_DENIED)];
         articles := db |}
    else if bool_decide (article_id ≠ 0%Z) then
      match db !! article_id with
      | Some article =>
          let '(has_permission, reason) :=
            check_article_edit_permission (user request) article in
          if negb has_permission then
            {| response := Redirect "editor_dashboard" None;
               flashed := [(ERROR, "Permission denied: " +:+ reason)];
               articles := db |}
          else view_func clock db request article_id
      | None =>
          {| response := Redirect "editor_dashboard" None;
             flashed := [(ERROR, "Article not found.")];
             articles := db |}
      end
    else view_func clock db request article_id.

(** [require_POST] and [require_http_methods(["GET", "POST"])]. *)
Definition require_POST (view_func : ArticleView) : ArticleView :=
  fun clock db request article_id =>
    match method request with
    | POST => view_func clock db request article_id
    | _ => {| response := HttpResponseNotAllowed; flashed := [];
              articles := db |}
    end.

Definition require_GET_or_POST (view_func : ListView) : ListView :=
  fun clock db request =>
    match method request with
    | GET | POST => view_func clock db request
    | OTHER => {| response := HttpResponseNotAllowed; flashed := [];
                  articles := db |}
    end.

End EditorPermissions.

(* ===================================================================== *)
(** ** editor_views.py *)

Module EditorViews.
Import Models Http EditorPermissions.

(** The value stored in the [approved_by] foreign key for [request.user].
    The views assign it only after the permission check, so the anonymous
    case is never stored. *)
Definition fk_of_user (user : RequestUser) : option Z :=
  match user with
  | AnonymousUser => None
  | LoggedIn u => Some (user_pk u)
  end.

(** [request.POST.get('next', 'editor_dashboard')]. *)
Definition next_url (request : Request) : string :=
  default "editor_dashboard" (post_next request).

(** The assignments inside [with transaction.atomic()] of
    [approve_article]; [now1] and [now2] are the two readings of
    [timezone.now()].  A [datetime] is always truthy, so
    [not article.published_at] holds exactly for [None]. *)
Definition approve_fields (actor : RequestUser) (now1 now2 : Time)
    (article : Article) : Article :=
  set_approval article true "approved" (fk_of_user actor) (Some now1)
    (match published_at article with
     | None => Some now2
     | Some t => Some t
     end).

(** The assignments of [reject_article]. *)
Definition reject_fields (actor : RequestUser) (now1 : Time)
    (article : Article) : Article :=
  set_approval article false "rejected" (fk_of_user actor) (Some now1)
    (published_at article).

(** The assignments of the [mark_pending] branch of the bulk view. *)
Definition mark_pending_fields (article : Article) : Article :=
  set_approval article false "pending" None None (published_at article).

(** The body of [approve_article], below its two decorators. *)
Definition approve_article_body : ArticleView :=
  fun clock db request article_id =>
    match db !! article_id with
    | None => {| response := Http404; flashed := []; articles := db |}
    | Some article =>
        let '(has_permission, reason) :=
          check_article_edit_permission (user request) article in
        if negb has_permission then
          {| response := Redirect "editor_article_detail" (Some article_id);
             flashed := [(ERROR, "Cannot approve article: " +:+ reason)];
             articles := db |}
        else if is_approved article then
          {| response := Redirect "editor_article_detail" (Some article_id);
             flashed := [(INFO, "Article is already approved.")];
             articles := db |}
        else
          let article' :=
            approve_fields (user request) (clock 0%nat) (clock 1%nat) article in
          {| response := Redirect (next_url request) None;
             flashed :=
               [(SUCCESS, "Article " +:+ DQUOTE +:+ title article' +:+ DQUOTE
                            +:+ " has been approved and published.")];
             articles := <[article_id := article']> db |}
    end.

Definition approve_article : ArticleView :=
  article_approval_permission_required (require_POST approve_article_body).

(** The body of [reject_article].  The rejection reason is read from the
    form and dropped. *)
Definition reject_article_body : ArticleView :=
  fun clock db request article_id =>
    match db !! article_id with
    | None => {| response := Http404; flashed := []; articles := db |}
    | Some article =>
        let '(has_permission, reason) :=
          check_article_edit_permission (user request) article in
        if negb has_permission then
          {| response := Redirect "editor_article_detail" (Some article_id);
             flashed := [(ERROR, "Cannot reject article: " +:+ reason)];
             articles := db |}
        else
          let article' := reject_fields (user request) (clock 0%nat) article in
          {| response := Redirect (next_url request) None;
             flashed :=
               [(SUCCESS, "Article " +:+ DQUOTE +:+ title article' +:+ DQUOTE
                            +:+ " has been rejected.")];
             articles := <[article_id := article']> db |}
    end.

Definition reject_article : ArticleView :=
  article_approval_permission_required (require_POST reject_article_body).

(** [Article.objects.filter(id__in=article_ids)]: every stored row whose
    id is listed, once.  The rows come in the order of the table scan; the
    model's [ordering = ['-created_at']] is not represented. *)
Definition filter_id_in (db : ArticleTable) (article_ids : list Z)
    : list (Z * Article) :=
  filter (λ row, row.1 ∈ article_ids) (map_to_list db).

(** The local variables of the loop of [bulk_article_action]: the table,
    the two counters and the number of clock readings made so far. *)
Record BulkState := {
  bulk_db : ArticleTable;
  success_count : Z;
  error_count : Z;
  clock_reads : nat
}.

Definition action_is (action : option string) (name : string) : bool :=
  match action with
  | Some a => str_eq a name
  | None => false
  end.

(** One iteration of [for article in articles].  [article] is the row as
    the queryset fetched it.  [article.save()] cannot fail on this table,
    so the [except Exception] arm is never entered. *)
Definition bulk_article_step (clock : nat → Time) (request : Request)
    (st : BulkState) (row : Z * Article) : BulkState :=
  let '(article_id, article) := row in
  let '(has_permission, _) :=
    check_article_edit_permission (user request) article in
  if negb has_permission then
    {| bulk_db := bulk_db st; success_count := success_count st;
       error_count := (error_count st + 1)%Z; clock_reads := clock_reads st |}
  else if action_is (post_action request) "approve" then
    if negb (is_approved article) then
      let k := clock_reads st in
      {| bulk_db :=
           <[article_id :=
               approve_fields (user request) (clock k) (clock (S k)) article]>
             (bulk_db st);
         success_count := (success_count st + 1)%Z;
         error_count := error_count st;
         clock_reads :=
           match published_at article with
           | None => S (S k)
           | Some _ => S k
           end |}
    else st
  else if action_is (post_action request) "reject" then
    if is_approved article || str_eq (status article) "pending" then
      let k := clock_reads st in
      {| bulk_db :=
           <[article_id := reject_fields (user request) (clock k) article]>
             (bulk_db st);
         success_count := (success_count st + 1)%Z;
         error_count := error_count st;
         clock_reads := S k |}
    else st
  else if action_is (post_action request) "mark_pending" then
    {| bulk_db := <[article_id := mark_pending_fields article]> (bulk_db st);
       success_count := (success_count st + 1)%Z;
       error_count := error_count st;
       clock_reads := clock_reads st |}
  else st.

Definition bulk_article_loop (clock : nat → Time) (request : Request)
    (db : ArticleTable) (rows : list (Z * Article)) : BulkState :=
  foldl (bulk_article_step clock request)
    {| bulk_db := db; success_count := 0; error_count := 0;
       clock_reads := 0 |}
    rows.

(** The two result messages, in the order the view queues them. *)
Definition bulk_messages (success errors : Z) : Messages :=
  app
    (if bool_decide (0 < success)%Z then
       [(SUCCESS, "Successfully processed " +:+ str_of_int success
                    +:+ " articles.")]
     else [])
    (if bool_decide (0 < errors)%Z then
       [(WARNING, str_of_int errors
                    +:+ " articles could not be processed due to "
                    +:+ "permission issues.")]
     else []).

Definition bulk_article_action_body : ListView :=
  fun clock db request =>
    match method request with
    | POST =>
        match post_article_ids request with
        | [] =>
            {| response := Redirect "editor_article_list" None;
               flashed := [(WARNING, "No articles selected.")];
               articles := db |}
        | article_ids =>
            let st :=
              bulk_article_loop clock request db
                (filter_id_in db article_ids) in
            {| response := Redirect "editor_article_list" None;
               flashed := bulk_messages (success_count st) (error_count st);
               articles := bulk_db st |}
        end
    | _ =>
        {| response := Redirect "editor_article_list" None;
           flashed := []; articles := db |}
    end.

Definition bulk_article_action : ListView :=
  editor_required (require_GET_or_POST bulk_article_action_body).

End EditorViews.

(* ===================================================================== *)
(** ** models.py: [Notification] *)

Module Notifications.

(** Exceptions that leave the modelled functions. *)
Inductive Exception :=
| IntegrityError
| UnboundLocalError.

Inductive Raised := Returned | Raise (e : Exception).

(** A [Notification] object.  [pk] is [None] until the first save;
    [recipient] and [n_article] are foreign keys. *)
Record Notification := {
  pk : option Z;
  recipient : Z;
  n_article : option Z;
  n_title : string;
  message : string;
  notification_type : string;
  is_read : bool;
  email_opened_at : option Time;
  read_token : string
}.

(** The [news_app_notification] table, keyed by [id]. *)
Abbreviation NotificationTable := (gmap Z Notification).

Definition with_pk (self : Notification) (id : Z) : Notification :=
  {| pk := Some id; recipient := recipient self; n_article := n_article self;
     n_title := n_title self; message := message self;
     notification_type := notification_type self; is_read := is_read self;
     email_opened_at := email_opened_at self;
     read_token := read_token self |}.

Definition with_read_token (self : Notification) (token : string)
    : Notification :=
  {| pk := pk self; recipient := recipient self; n_article := n_article self;
     n_title := n_title self; message := message self;
     notification_type := notification_type self; is_read := is_read self;
     email_opened_at := email_opened_at self;
     read_token := token |}.

Definition with_message (self : Notification) (text : string)
    : Notification :=
  {| pk := pk self; recipient := recipient self; n_article := n_article self;
     n_title := n_title self; message := text;
     notification_type := notification_type self; is_read := is_read self;
     email_opened_at := email_opened_at self;
     read_token := read_token self |}.

Definition with_read (self : Notification) (opened : Time) : Notification :=
  {| pk := pk self; recipient := recipient self; n_article := n_article self;
     n_title := n_title self; message := message self;
     notification_type := notification_type self; is_read := true;
     email_opened_at := Some opened;
     read_token := read_token self |}.

(** [Notification(recipient=.., article=.., title=.., message=..,
    notification_type=..)]: the other fields take their defaults. *)
Definition new_notification (recipient' : Z) (article' : option Z)
    (title' message' type' : string) : Notification :=
  {| pk := None; recipient := recipient'; n_article := article';
     n_title := title'; message := message';
     notification_type := type'; is_read := false;
     email_opened_at := None; read_token := "" |}.

(** *** [uuid.uuid4()] *)

(** [UUID(bytes=os.urandom(16), version=4).int]: the 128 random bits with
    the variant and version fields overwritten. *)
Definition uuid4_int (entropy : N) : N :=
  let i := (entropy mod 2 ^ 128)%N in
  let i := N.ldiff i (N.shiftl 49152 48) in
  let i := N.lor i (N.shiftl 32768 48) in
  let i := N.ldiff i (N.shiftl 61440 64) in
  N.lor i (N.shiftl 4 76).

Definition hex_digit (d : N) : ascii :=
  match d with
  | 0%N => "0" | 1%N => "1" | 2%N => "2" | 3%N => "3" | 4%N => "4"
  | 5%N => "5" | 6%N => "6" | 7%N => "7" | 8%N => "8" | 9%N => "9"
  | 10%N => "a" | 11%N => "b" | 12%N => "c" | 13%N => "d" | 14%N => "e"
  | _ => "f"
  end%char.

(** ['%0<width>x' % n] for [n < 16 ^ width]. *)
Fixpoint hex_fixed (width : nat) (n : N) : string :=
  match width with
  | O => ""
  | S w => hex_fixed w (n / 16)%N +:+ String (hex_digit (n mod 16)%N) ""
  end.

(** [str(UUID)]: the 32 digits grouped 8-4-4-4-12. *)
Definition uuid_str (i : N) : string :=
  let hex := hex_fixed 32 i in
  String.substring 0 8 hex +:+ "-" +:+ String.substring 8 4 hex +:+ "-"
    +:+ String.substring 12 4 hex +:+ "-" +:+ String.substring 16 4 hex +:+ "-"
    +:+ String.substring 20 12 hex.

(** [s.replace(c, '')] for a one-character [c]. *)
Fixpoint remove_char (c : ascii) (s : string) : string :=
  match s with
  | EmptyString => EmptyString
  | String a s' =>
      if bool_decide (a = c) then remove_char c s'
      else String a (remove_char c s')
  end.

(** [str(uuid.uuid4()).replace('-', '')] on the given random bits. *)
Definition new_read_token (entropy : N) : string :=
  remove_char "-"%char (uuid_str (uuid4_int entropy)).

(** *** Saving *)

(** The next value of the [id] sequence: above every stored id, and at
    least 1. *)
Definition next_id (table : NotificationTable) : Z :=
  (1 + foldr Z.max 0 (map_to_list table).*1)%Z.

(** The [unique=True] constraint on [read_token]: does another row hold
    [token]? *)
Definition token_taken (table : NotificationTable) (id : Z) (token : string)
    : bool :=
  bool_decide (Exists (λ row, row.1 ≠ id ∧ read_token row.2 = token)
                 (map_to_list table)).

(** [Notification.save]: generate the token when the field is empty, then
    [Model.save] inserts (fresh id) or updates the row, unless the unique
    constraint refuses it.  The object keeps its assigned token either
    way.  [entropy] is read only when a token is generated. *)
Definition save (entropy : N) (table : NotificationTable)
    (self : Notification) : Raised * Notification * NotificationTable :=
  let self :=
    if negb (str_truthy (read_token self)) then
      with_read_token self (new_read_token entropy)
    else self in
  let id := default (next_id table) (pk self) in
  if token_taken table id (read_token self) then
    (Raise IntegrityError, self, table)
  else
    let self := with_pk self id in
    (Returned, self, <[id := self]> table).

(** [Notification.mark_as_read]; [now] is [timezone.now()]. *)
Definition mark_as_read (now : Time) (entropy : N)
    (table : NotificationTable) (self : Notification)
    : Raised * Notification * NotificationTable :=
  if negb (is_read self) then save entropy table (with_read self now)
  else (Returned, self, table).

(** The object the ORM builds for the row stored under [id]. *)
Definition load (id : Z) (row : Notification) : Notification :=
  with_pk row id.

(** All stored tokens are pairwise distinct. *)
Definition tokens_unique (table : NotificationTable) : Prop :=
  ∀ id1 id2 n1 n2,
    table !! id1 = Some n1 → table !! id2 = Some n2 →
    read_token n1 = read_token n2 → id1 = id2.

End Notifications.

(* ===================================================================== *)
(** ** email_tracking.py and its routes in urls.py *)

Module EmailTracking.
Import Http Notifications.

Definition TRACKING_CACHE_PREFIX : string := "email_track:".
Definition RATE_LIMIT_PREFIX : string := "rate_limit:".

(** The 43 bytes of the transparent 1x1 GIF. *)
Definition TRANSPARENT_PIXEL : list Z :=
  [0x47; 0x49; 0x46; 0x38; 0x39; 0x61; 0x01; 0x00; 0x01; 0x00; 0x80; 0x00;
   0x00; 0xff; 0xff; 0xff; 0x00; 0x00; 0x00; 0x21; 0xf9; 0x04; 0x01; 0x00;
   0x00; 0x00; 0x00; 0x2c; 0x00; 0x00; 0x00; 0x00; 0x01; 0x00; 0x01; 0x00;
   0x00; 0x02; 0x02; 0x04; 0x01; 0x00; 0x3b]%Z.

(** *** The Django cache

    Only this module uses the cache.  Keys built from [RATE_LIMIT_PREFIX]
    always hold integers and keys built from [TRACKING_CACHE_PREFIX]
    always hold strings; the two prefixes differ in their first character,
    so the cache is kept as one typed store per family, each keyed by the
    full cache key.  An entry carries its expiry time and is dead from
    that instant on. *)
Record Cache := {
  counters : gmap string (Z * Time);
  markers : gmap string (string * Time)
}.

Definition live {A} (now : Time) (entry : option (A * Time)) : option A :=
  match entry with
  | Some (value, expires) =>
      if bool_decide (now < expires)%Z then Some value else None
  | None => None
  end.

(** [cache.get(key, default)] on a counter key. *)
Definition cache_get_counter (cache : Cache) (now : Time) (key : string)
    (default_value : Z) : Z :=
  default default_value (live now (counters cache !! key)).

(** [cache.get(key)] on a marker key. *)
Definition cache_get_marker (cache : Cache) (now : Time) (key : string)
    : option string :=
  live now (markers cache !! key).

(** [cache.set(key, value, timeout)], [timeout] in seconds. *)
Definition cache_set_counter (cache : Cache) (now : Time) (key : string)
    (value : Z) (timeout : Z) : Cache :=
  {| counters := <[key := (value, (now + timeout * SECOND)%Z)]> (counters cache);
     markers := markers cache |}.

Definition cache_set_marker (cache : Cache) (now : Time) (key : string)
    (value : string) (timeout : Z) : Cache :=
  {| counters := counters cache;
     markers := <[key := (value, (now + timeout * SECOND)%Z)]> (markers cache) |}.

(** *** Requests, responses, state *)

(** A request to a tracking endpoint: method, [META['REMOTE_ADDR']], the
    instant at which it is served and the random bits available to it. *)
Record TrackingRequest := {
  http_method : Method;
  REMOTE_ADDR : option string;
  now : Time;
  entropy : N
}.

(** Response bodies: the pixel, the two HTML pages (given by the values
    interpolated into their templates), the resolver's not-found page and
    the empty body of a 405. *)
Inductive Content :=
| Bytes (data : list Z)
| ErrorPage (page_title page_message : string) (shown_status : Z)
| SuccessPage (page_message : string) (notification_id : Z)
    (message_class : string) (current_timestamp : Time)
| ResolverNotFoundPage
| Empty.

Record HttpResponse := {
  status_code : Z;
  content_type : string;
  content : Content;
  headers : list (string * string)
}.

(** The state the endpoints share: the notification table and the cache. *)
Record World := {
  notifications : NotificationTable;
  cache : Cache
}.

(** The second argument of [mark_notification_read] as a Python value. *)
Inductive PyValue :=
| PyInt (n : Z)
| PyStr (s : string)
| PyNone.

(** [settings.EMAIL_TRACKING_PIXEL_CACHE_SECONDS], when defined. *)
Definition TrackingSettings := option Z.

Definition _get_client_ip (request : TrackingRequest) : string :=
  default "unknown" (REMOTE_ADDR request).

(** [_is_rate_limited]: the verdict and the cache it leaves. *)
Definition _is_rate_limited (cache : Cache) (token : string)
    (request : TrackingRequest) : bool * Cache :=
  let cache_key :=
    RATE_LIMIT_PREFIX +:+ token +:+ ":" +:+ _get_client_ip request in
  let current_count := cache_get_counter cache (now request) cache_key 0 in
  if bool_decide (10 ≤ current_count)%Z then (true, cache)
  else
    (false,
     cache_set_counter cache (now request) cache_key (current_count + 1) 60).

Definition _return_tracking_pixel : HttpResponse :=
  {| status_code := 200;
     content_type := "image/gif";
     content := Bytes TRANSPARENT_PIXEL;
     headers :=
       [("Cache-Control", "no-cache, no-store, must-revalidate");
        ("Pragma", "no-cache");
        ("Expires", "0");
        ("X-Robots-Tag", "noindex, nofollow, noarchive, nosnippet");
        ("Access-Control-Allow-Origin", "*");
        ("Access-Control-Allow-Methods", "GET")] |}.

Definition _render_error_page (page_title page_message : string)
    (code : Z) : HttpResponse :=
  {| status_code := code;
     content_type := "text/html";
     content := ErrorPage page_title page_message code;
     headers := [] |}.

Definition _render_success_page (now : Time) (page_message : string)
    (notification_id : Z) (message_class : string) : HttpResponse :=
  {| status_code := 200;
     content_type := "text/html";
     content := SuccessPage page_message notification_id message_class now;
     headers := [] |}.

(** [Notification.objects.get(read_token=token)]. *)
Inductive Lookup :=
| DoesNotExist
| Found (id : Z) (row : Notification)
| MultipleObjectsReturned.

Definition get_by_read_token (table : NotificationTable) (token : string)
    : Lookup :=
  match filter (λ row, read_token row.2 = token) (map_to_list table) with
  | [] => DoesNotExist
  | [(id, row)] => Found id row
  | _ => MultipleObjectsReturned
  end.

(** The body of [track_email_open]. *)
Definition track_email_open_body (settings : TrackingSettings)
    (world : World) (request : TrackingRequest) (token : string)
    : HttpResponse * World :=
  let token_str := token in
  let '(limited, cache1) := _is_rate_limited (cache world) token_str request in
  if limited then (_return_tracking_pixel, world)
  else
    let cache_key := TRACKING_CACHE_PREFIX +:+ token_str in
    let world1 := {| notifications := notifications world; cache := cache1 |} in
    match cache_get_marker cache1 (now request) cache_key with
    | Some (String _ _) => (_return_tracking_pixel, world1)
    | _ =>
        match get_by_read_token (notifications world) token_str with
        | DoesNotExist =>
            (_return_tracking_pixel,
             {| notifications := notifications world;
                cache := cache_set_marker cache1 (now request) cache_key
                           "invalid" 3600 |})
        | Found id row =>
            let notification := load id row in
            if negb (is_read notification) then
              match mark_as_read (now request) (entropy request)
                      (notifications world) notification with
              | (Returned, _, table) =>
                  (_return_tracking_pixel,
                   {| notifications := table;
                      cache := cache_set_marker cache1 (now request) cache_key
                                 "tracked" (default 86400%Z settings) |})
              | (Raise _, _, table) =>
                  (_return_tracking_pixel,
                   {| notifications := table; cache := cache1 |})
              end
            else (_return_tracking_pixel, world1)
        | MultipleObjectsReturned => (_return_tracking_pixel, world1)
        end
    end.

Definition METHOD_NOT_ALLOWED : HttpResponse :=
  {| status_code := 405; content_type := "text/html; charset=utf-8";
     content := Empty; headers := [("Allow", "GET")] |}.

Section Views.

(** Django's [add_never_cache_headers] rewrites the cache headers of a
    response and nothing else; [patch_cache_headers] is that rewriting of
    the header list. *)
Variable patch_cache_headers : list (string * string) → list (string * string).

Definition add_never_cache_headers (response : HttpResponse) : HttpResponse :=
  {| status_code := status_code response;
     content_type := content_type response;
     content := content response;
     headers := patch_cache_headers (headers response) |}.

(** Python's [int] on a string: the parsed value, or [None] for
    [ValueError]. *)
Variable py_int : string → option Z.

Definition View (A : Type) := World → TrackingRequest → A → HttpResponse * World.

Definition never_cache {A} (view_func : View A) : View A :=
  fun world request arg =>
    let '(response, world') := view_func world request arg in
    (add_never_cache_headers response, world').

Definition require_GET {A} (view_func : View A) : View A :=
  fun world request arg =>
    match http_method request with
    | GET => view_func world request arg
    | _ => (METHOD_NOT_ALLOWED, world)
    end.

Definition csrf_exempt {A} (view_func : View A) : View A := view_func.

Definition track_email_open (settings : TrackingSettings) : View string :=
  csrf_exempt (require_GET (never_cache (track_email_open_body settings))).

(** [int(notification_id)]: [None] stands for [ValueError] or
    [TypeError]. *)
Definition int_of (value : PyValue) : option Z :=
  match value with
  | PyInt n => Some n
  | PyStr s => py_int s
  | PyNone => None
  end.

(** The body of [mark_notification_read]. *)
Definition mark_notification_read_body : View PyValue :=
  fun world request notification_id =>
    let ip := _get_client_ip request in
    match int_of notification_id with
    | None =>
        (_render_error_page "Invalid Request"
           "The notification ID format is invalid." 400, world)
    | Some notification_id =>
        if bool_decide (notification_id ≤ 0)%Z then
          (_render_error_page "Invalid Request"
             "The notification ID format is invalid." 400, world)
        else
          let cache_key := RATE_LIMIT_PREFIX +:+ "mark_read:" +:+ ip in
          let current_count :=
            cache_get_counter (cache world) (now request) cache_key 0 in
          if bool_decide (20 ≤ current_count)%Z then
            (_render_error_page "Too Many Requests"
               "Please wait a moment before trying again." 429, world)
          else
            let cache1 :=
              cache_set_counter (cache world) (now request) cache_key
                (current_count + 1) 60 in
            let world1 :=
              {| notifications := notifications world; cache := cache1 |} in
            match notifications world !! notification_id with
            | None =>
                (_render_error_page "Notification Not Found"
                   "The requested notification could not be found." 404,
                 world1)
            | Some row =>
                let notification := load notification_id row in
                let was_already_read := is_read notification in
                if negb was_already_read then
                  match mark_as_read (now request) (entropy request)
                          (notifications world) notification with
                  | (Returned, _, table) =>
                      (_render_success_page (now request)
                         "✅ Notification marked as read successfully!"
                         notification_id "success",
                       {| notifications := table; cache := cache1 |})
                  | (Raise _, _, table) =>
                      (_render_error_page "Database Error"
                         "Unable to update notification status. Please try again."
                         500,
                       {| notifications := table; cache := cache1 |})
                  end
                else
                  (_render_success_page (now request)
                     "ℹ️ Notification was already marked as read."
                     notification_id "info",
                   world1)
            end
    end.

Definition mark_notification_read : View PyValue :=
  csrf_exempt (require_GET (never_cache mark_notification_read_body)).

(** *** urls.py *)

Definition is_digit (c : ascii) : bool :=
  let n := nat_of_ascii c in
  bool_decide (48 ≤ n)%nat && bool_decide (n ≤ 57)%nat.

Fixpoint all_digits (s : string) : bool :=
  match s with
  | EmptyString => true
  | String c s' => is_digit c && all_digits s'
  end.

Fixpoint decimal_value (acc : Z) (s : string) : Z :=
  match s with
  | EmptyString => acc
  | String c s' =>
      decimal_value (10 * acc + (Z.of_nat (nat_of_ascii c) - 48))%Z s'
  end.

(** Django's [int] path converter: the segment must match [[0-9]+] and is
    passed on as a Python [int]. *)
Definition int_converter (segment : string) : option Z :=
  if str_truthy segment && all_digits segment then
    Some (decimal_value 0 segment)
  else None.

Definition RESOLVER_404 : HttpResponse :=
  {| status_code := 404; content_type := "text/html; charset=utf-8";
     content := ResolverNotFoundPage; headers := [] |}.

(** [path('mark-read/<int:notification_id>/', mark_notification_read)]
    applied to the path segment that follows [mark-read/]. *)
Definition mark_read_route : View string :=
  fun world request segment =>
    match int_converter segment with
    | Some n => mark_notification_read world request (PyInt n)
    | None => (RESOLVER_404, world)
    end.

End Views.

(** A run of tracking-pixel requests for one token, served one after the
    other: for each request the state it found, the response it got and
    the state it left. *)
Fixpoint serve_pixels
    (patch : list (string * string) → list (string * string))
    (settings : TrackingSettings) (world : World) (token : string)
    (requests : list TrackingRequest)
    : list (World * HttpResponse * World) :=
  match requests with
  | [] => []
  | request :: rest =>
      let step := track_email_open patch settings world request token in
      (world, step.1, step.2)
        :: serve_pixels patch settings step.2 token rest
  end.

(** The counter key of [_is_rate_limited] for a token and a client. *)
Definition rate_limit_key (token : string) (request : TrackingRequest)
    : string :=
  RATE_LIMIT_PREFIX +:+ token +:+ ":" +:+ _get_client_ip request.

(** The requests of a run come from one client, are GET requests and are
    all served within the minute that starts at [start]. *)
Definition one_minute_burst (start : Time) (client : option string)
    (requests : list TrackingRequest) : Prop :=
  Forall (λ request, http_method request = GET
                     ∧ REMOTE_ADDR request = client
                     ∧ (start ≤ now request < start + 60 * SECOND)%Z)
    requests.

(** No counter for [key] is alive at [start] or later. *)
Definition no_live_counter (cache : Cache) (key : string) (start : Time)
    : Prop :=
  ∀ value expires,
    counters cache !! key = Some (value, expires) → (expires ≤ start)%Z.

(** The counter for [key] stands at [count] for the whole minute that
    starts at [start]: nothing alive for zero, otherwise an entry that
    outlives the minute. *)
Definition counted (cache : Cache) (key : string) (count : Z) (start : Time)
    : Prop :=
  (count = 0%Z ∧ no_live_counter cache key start)
  ∨ ((0 < count)%Z
     ∧ ∃ expires, counters cache !! key = Some (count, expires)
                  ∧ (start + 60 * SECOND ≤ expires)%Z).

End EmailTracking.

(* ===================================================================== *)
(** ** models.py: the subscription index and [get_subscribers_by_type] *)

Module Subscriptions.
Import Models.

(** The user table and the two many-to-many tables.  A pair [(u, p)] of
    [subscribed_publishers] says that user [u] subscribes to publisher [p];
    a pair [(u, j)] of [subscribed_journalists] that user [u] follows
    journalist [j].  An edge is stored at most once. *)
Record Store := {
  users : list CustomUser;
  subscribed_publishers : gset (Z * Z);
  subscribed_journalists : gset (Z * Z)
}.

(** [email__isnull=False]. *)
Definition email_not_null (u : CustomUser) : bool :=
  match email u with
  | Some _ => true
  | None => false
  end.

(** [publisher.subscribers.filter(email__isnull=False)], in the order of
    the user table. *)
Definition publisher_subscribers (store : Store) (publisher_id : Z)
    : list CustomUser :=
  filter (λ u, (user_pk u, publisher_id) ∈ subscribed_publishers store
               ∧ email_not_null u = true)
    (users store).

(** [author.journalist_subscribers.filter(email__isnull=False)]. *)
Definition journalist_subscribers (store : Store) (author_id : Z)
    : list CustomUser :=
  filter (λ u, (user_pk u, author_id) ∈ subscribed_journalists store
               ∧ email_not_null u = true)
    (users store).

(** [user in queryset]: instances compare by primary key. *)
Definition queryset_contains (queryset : list CustomUser) (u : CustomUser)
    : bool :=
  bool_decide (user_pk u ∈ user_pk <$> queryset).

(** [list(set(first) | set(second))]: one entry per primary key. *)
Definition set_union (first second : list CustomUser) : list CustomUser :=
  app first (filter (λ u, queryset_contains first u = false) second).

(** The dictionary returned by [Article.get_subscribers_by_type]. *)
Record SubscribersByType := {
  by_publisher : list CustomUser;
  by_journalist : list CustomUser;
  all_subscribers : list CustomUser
}.

Definition get_subscribers_by_type (store : Store) (article : Article)
    : SubscribersByType :=
  let publisher_result :=
    match publisher article with
    | Some publisher_id => publisher_subscribers store publisher_id
    | None => []
    end in
  let journalist_result := journalist_subscribers store (author article) in
  {| by_publisher := publisher_result;
     by_journalist := journalist_result;
     all_subscribers := set_union publisher_result journalist_result |}.

End Subscriptions.

(* ===================================================================== *)
(** ** signals.py: [_send_article_emails_sync] *)

Module Signals.
Import Models Notifications Subscriptions.

Definition NL : string := String (ascii_of_nat 10) EmptyString.

(** [settings.BASE_URL] (when defined) and the sender address. *)
Record MailSettings := {
  BASE_URL : option string;
  DEFAULT_FROM_EMAIL : string
}.

(** An e-mail handed to the transport: the tuple
    [(subject, message, from_email, [address])], and for the HTML variant
    the tracking-pixel URL embedded in the alternative body. *)
Record EmailMessage := {
  subject : string;
  body : string;
  from_email : string;
  to : option string;
  html_tracking_url : option string
}.

(** [bool(subscriber.email)]. *)
Definition has_email (u : CustomUser) : bool :=
  match email u with
  | Some address => str_truthy address
  | None => false
  end.

(** [EmailMessage.recipients()]: the non-empty addresses. *)
Definition recipients (m : EmailMessage) : list string :=
  match to m with
  | Some address => if str_truthy address then [address] else []
  | None => []
  end.

(** The article as the handler sees it: its id, its row, the name of its
    publisher (for [article.publisher.name]) and its author. *)
Record ArticleObject := {
  article_id : Z;
  row : Article;
  publisher_name_of : option string;
  author_of : CustomUser
}.

(** [author.get_full_name() or author.username]. *)
Definition author_display (article : ArticleObject) : string :=
  let a := author_of article in
  if str_truthy (full_name a) then full_name a else username a.

(** The variables assigned in the loop bodies and read after the loops. *)
Record BodyLocals := {
  notification : Notification;
  loc_subject : string;
  publisher_name : string;
  tracking_url : string;
  mark_read_url : string;
  article_url : string
}.

(** The state of one run: the notification table, the e-mails accepted by
    the transport, the number of tokens drawn, and the local variables
    [messages], [notif_objs], [subscriber] and those of [BodyLocals]
    (absent while unbound). *)
Record Frame := {
  table : NotificationTable;
  outbox : list EmailMessage;
  draws : nat;
  messages : list EmailMessage;
  notif_objs : list Notification;
  subscriber : option CustomUser;
  locals : option BodyLocals
}.

Definition bind_subscriber (f : Frame) (u : CustomUser) : Frame :=
  {| table := table f; outbox := outbox f; draws := draws f;
     messages := messages f; notif_objs := notif_objs f;
     subscriber := Some u; locals := locals f |}.

Section Fanout.

(** Installation settings, the mail transport (does it accept a
    message?) and the entropy source ([entropy k] feeds the [k]-th
    generated token). *)
Variable settings : MailSettings.
Variable smtp_accepts : EmailMessage → bool.
Variable entropy : nat → N.

Definition base_url : string :=
  default "http://127.0.0.1:8000" (BASE_URL settings).

(** [notification.save()] inside the run. *)
Definition frame_save (f : Frame) (n : Notification)
    : Raised * Notification * Frame :=
  let '(result, n', table') := save (entropy (draws f)) (table f) n in
  (result, n',
   {| table := table'; outbox := outbox f;
      draws := if str_truthy (read_token n) then draws f else S (draws f);
      messages := messages f; notif_objs := notif_objs f;
      subscriber := subscriber f; locals := locals f |}).

(** [email.send()] under [try/except]: nothing goes out without a
    recipient, and a transport error is only logged. *)
Definition send_logged (box : list EmailMessage) (m : EmailMessage)
    : list EmailMessage :=
  match recipients m with
  | [] => box
  | _ => if smtp_accepts m then app box [m] else box
  end.

(** [send_mass_mail(messages, fail_silently=False)] under [try/except]:
    one connection, the messages in order, stopping at the first one the
    transport refuses. *)
Fixpoint send_mass_mail (box : list EmailMessage) (ms : list EmailMessage)
    : list EmailMessage :=
  match ms with
  | [] => box
  | m :: rest =>
      match recipients m with
      | [] => send_mass_mail box rest
      | _ =>
          if smtp_accepts m then send_mass_mail (app box [m]) rest else box
      end
  end.

Definition shown_publisher (article : ArticleObject) : string :=
  default "Independent" (publisher_name_of article).

(** The plain-text message of the publisher loop (pictographs left
    out). *)
Definition publisher_text (article : ArticleObject)
    (article_url' mark_read_url' : string) : string :=
  "New Article from " +:+ shown_publisher article +:+ "!" +:+ NL +:+ NL
  +:+ "Title: " +:+ title (row article) +:+ NL
  +:+ "Author: " +:+ author_display article +:+ NL
  +:+ "Publisher: " +:+ shown_publisher article +:+ NL +:+ NL
  +:+ summary (row article) +:+ NL +:+ NL
  +:+ "Read the full article: " +:+ article_url' +:+ NL +:+ NL
  +:+ "You subscribed to " +:+ shown_publisher article +:+ NL +:+ NL
  +:+ "---" +:+ NL
  +:+ "Mark as read: " +:+ mark_read_url' +:+ NL
  +:+ "This email includes read tracking for your convenience.".

(** The plain-text message built after the journalist loop. *)
Definition journalist_text (article : ArticleObject)
    (publisher_name' article_url' mark_read_url' : string) : string :=
  "New Article by " +:+ author_display article +:+ "!" +:+ NL +:+ NL
  +:+ "Title: " +:+ title (row article) +:+ NL
  +:+ "Author: " +:+ author_display article +:+ NL
  +:+ "Publisher: " +:+ publisher_name' +:+ NL +:+ NL
  +:+ summary (row article) +:+ NL +:+ NL
  +:+ "Read the full article: " +:+ article_url' +:+ NL +:+ NL
  +:+ "You are following " +:+ author_display article +:+ NL +:+ NL
  +:+ "---" +:+ NL
  +:+ "Mark as read: " +:+ mark_read_url' +:+ NL
  +:+ "This email includes read tracking for your convenience.".

Definition urls_for (article : ArticleObject) (n : Notification)
    : string * string * string :=
  (base_url +:+ "/track-email/" +:+ read_token n +:+ "/",
   base_url +:+ "/mark-read/" +:+ from_option str_of_int "None" (pk n)
     +:+ "/",
   base_url +:+ "/articles/" +:+ slug (row article) +:+ "/").

(** The body of [for subscriber in subscribers_by_type['publisher']]. *)
Definition publisher_iteration (article : ArticleObject) (u : CustomUser)
    (f : Frame) : Raised * Frame :=
  let f := bind_subscriber f u in
  if negb (has_email u) then (Returned, f)
  else
    let subject' :=
      "New Article from " +:+ default "" (publisher_name_of article)
        +:+ ": " +:+ title (row article) in
    let fresh :=
      new_notification (user_pk u) (Some (article_id article)) subject' ""
        "publisher" in
    match frame_save f fresh with
    | (Raise e, _, f) => (Raise e, f)
    | (Returned, n, f) =>
        let '(tracking, mark_read, art_url) := urls_for article n in
        let text := publisher_text article art_url mark_read in
        match frame_save f (with_message n text) with
        | (Raise e, _, f) => (Raise e, f)
        | (Returned, n, f) =>
            let plain :=
              {| subject := subject'; body := text;
                 from_email := DEFAULT_FROM_EMAIL settings;
                 to := email u; html_tracking_url := None |} in
            let html :=
              {| subject := subject'; body := text;
                 from_email := DEFAULT_FROM_EMAIL settings;
                 to := email u; html_tracking_url := Some tracking |} in
            (Returned,
             {| table := table f;
                outbox := send_logged (outbox f) html;
                draws := draws f;
                messages := app (messages f) [plain];
                notif_objs := app (notif_objs f) [n];
                subscriber := Some u;
                locals :=
                  Some {| notification := n; loc_subject := subject';
                          publisher_name := shown_publisher article;
                          tracking_url := tracking;
                          mark_read_url := mark_read;
                          article_url := art_url |} |})
        end
    end.

(** The body of [for subscriber in subscribers_by_type['journalist']]:
    it ends after the three URL assignments. *)
Definition journalist_iteration (article : ArticleObject)
    (publisher_result : list CustomUser) (u : CustomUser) (f : Frame)
    : Raised * Frame :=
  let f := bind_subscriber f u in
  if negb (has_email u) then (Returned, f)
  else if queryset_contains publisher_result u then (Returned, f)
  else
    let subject' :=
      "New Article by " +:+ author_display article +:+ ": "
        +:+ title (row article) in
    let fresh :=
      new_notification (user_pk u) (Some (article_id article)) subject' ""
        "journalist" in
    match frame_save f fresh with
    | (Raise e, _, f) => (Raise e, f)
    | (Returned, n, f) =>
        let '(tracking, mark_read, art_url) := urls_for article n in
        (Returned,
         {| table := table f; outbox := outbox f; draws := draws f;
            messages := messages f; notif_objs := notif_objs f;
            subscriber := Some u;
            locals :=
              Some {| notification := n; loc_subject := subject';
                      publisher_name := shown_publisher article;
                      tracking_url := tracking;
                      mark_read_url := mark_read;
                      article_url := art_url |} |})
    end.

(** A [for] loop whose body may raise. *)
Fixpoint for_each {A} (body : A → Frame → Raised * Frame) (items : list A)
    (f : Frame) : Raised * Frame :=
  match items with
  | [] => (Returned, f)
  | item :: rest =>
      match body item f with
      | (Raise e, f') => (Raise e, f')
      | (Returned, f') => for_each body rest f'
      end
  end.

(** The statements that follow the journalist loop at function level.
    They read the loop-body variables, so they raise when no iteration
    assigned them. *)
Definition after_loops (article : ArticleObject) (f : Frame)
    : Raised * Frame :=
  match locals f, subscriber f with
  | Some loc, Some u =>
      let text :=
        journalist_text article (publisher_name loc) (article_url loc)
          (mark_read_url loc) in
      match frame_save f (with_message (notification loc) text) with
      | (Raise e, _, f) => (Raise e, f)
      | (Returned, n, f) =>
          let plain :=
            {| subject := loc_subject loc; body := text;
               from_email := DEFAULT_FROM_EMAIL settings;
               to := email u; html_tracking_url := None |} in
          let html :=
            {| subject := loc_subject loc; body := text;
               from_email := DEFAULT_FROM_EMAIL settings;
               to := email u;
               html_tracking_url := Some (tracking_url loc) |} in
          let messages' := app (messages f) [plain] in
          let box := send_logged (outbox f) html in
          (Returned,
           {| table := table f;
              outbox := send_mass_mail box messages';
              draws := draws f;
              messages := messages';
              notif_objs := app (notif_objs f) [n];
              subscriber := subscriber f;
              locals := locals f |})
      end
  | _, _ => (Raise UnboundLocalError, f)
  end.

(** What a run leaves: how it ended, the notification table and the
    e-mails that went out. *)
Record FanoutResult := {
  ended : Raised;
  final_table : NotificationTable;
  sent : list EmailMessage
}.

Definition _send_article_emails_sync (store : Store)
    (notifications : NotificationTable) (article : ArticleObject)
    : FanoutResult :=
  let subscribers_by_type := get_subscribers_by_type store (row article) in
  let start :=
    {| table := notifications; outbox := []; draws := 0; messages := [];
       notif_objs := []; subscriber := None; locals := None |} in
  match all_subscribers subscribers_by_type with
  | [] => {| ended := Returned; final_table := notifications; sent := [] |}
  | _ =>
      let '(result, f) :=
        match
          for_each (publisher_iteration article)
            (by_publisher subscribers_by_type) start
        with
        | (Raise e, f) => (Raise e, f)
        | (Returned, f) =>
            match
              for_each
                (journalist_iteration article
                   (by_publisher subscribers_by_type))
                (by_journalist subscribers_by_type) f
            with
            | (Raise e, f) => (Raise e, f)
            | (Returned, f) => after_loops article f
            end
        end in
      {| ended := result; final_table := table f; sent := outbox f |}
  end.

End Fanout.

(** The rows of the table addressed to user [u] about article [id]. *)
Definition notifications_for (table : NotificationTable) (u : CustomUser)
    (id : Z) : nat :=
  length (filter (λ entry, recipient entry.2 = user_pk u
                           ∧ n_article entry.2 = Some id)
            (map_to_list table)).

(** The e-mails of [box] addressed to [address]. *)
Definition emails_to (box : list EmailMessage) (address : string) : nat :=
  length (filter (λ m, to m = Some address) box).

(** Every token drawn during a run of at most [n] draws is new: it is
    held by no stored row and by no earlier draw. *)
Definition fresh_draws (entropy : nat → N) (n : nat)
    (notifications : NotificationTable) : Prop :=
  (∀ i, (i < n)%nat →
        ∀ id stored, notifications !! id = Some stored →
                     read_token stored ≠ new_read_token (entropy i))
  ∧ (∀ i j, (i < j)%nat → (j < n)%nat →
            new_read_token (entropy i) ≠ new_read_token (entropy j)).

(** The notification object [n] has been saved: its row is stored under
    its id with the same token, recipient and article. *)
Definition stored_like (table : NotificationTable) (n : Notification)
    : Prop :=
  ∃ id stored,
    pk n = Some id ∧ table !! id = Some stored
    ∧ read_token stored = read_token n ∧ read_token n ≠ ""
    ∧ recipient stored = recipient n ∧ n_article stored = n_article n.

(** The rows of the table addressed to the user with primary key
    [user_id] about article [id]. *)
Definition rows_for (table : NotificationTable) (user_id id : Z) : nat :=
  length (filter (λ entry, recipient entry.2 = user_id
                           ∧ n_article entry.2 = Some id)
            (map_to_list table)).

(** The loop invariant of a run that started from [table0]: tokens stay
    unique; every token is an old one or one of the draws made so far;
    [made user_id] rows have been added for each user; and the
    notification held in the loop-body variables is stored. *)
Definition fanout_inv (entropy : nat → N) (table0 : NotificationTable)
    (id : Z) (made : Z → nat) (f : Frame) : Prop :=
  tokens_unique (table f)
  ∧ (∀ row_id stored, table f !! row_id = Some stored →
       (∃ old, table0 !! row_id = Some old
               ∧ read_token old = read_token stored)
       ∨ (∃ i, (i < draws f)%nat
               ∧ read_token stored = new_read_token (entropy i)))
  ∧ (∀ user_id,
       rows_for (table f) user_id id
       = (rows_for table0 user_id id + made user_id)%nat)
  ∧ (∀ loc, locals f = Some loc → stored_like (table f) (notification loc)).

(** The notifications a loop over [queryset] creates for the user with
    primary key [user_id], when [creates] tells for which subscribers the
    body gets past its [continue] statements. *)
Definition made_by (creates : CustomUser → bool)
    (queryset : list CustomUser) (user_id : Z) : nat :=
  length (filter (λ v, user_pk v = user_id ∧ creates v = true) queryset).

End Signals.

(* ===================================================================== *)
(** ** A small installation used in the examples *)

Module FanoutSample.
Import Models Notifications Subscriptions Signals.

Definition reader (id : Z) (name : string) (address : string) : CustomUser :=
  {| user_pk := id; username := name; full_name := "";
     email := Some address; role := "reader"; groups := [];
     has_perm_approve_article := false; is_staff := false;
     is_superuser := false |}.

(** Una follows both the publisher and the author; Vic follows the
    publisher and has no address; Wes follows the author. *)
Definition una : CustomUser := reader 10 "una" "una@example.org".
Definition vic : CustomUser := reader 11 "vic" "".
Definition wes : CustomUser := reader 12 "wes" "wes@example.org".

Definition journalist : CustomUser :=
  {| user_pk := 3; username := "jo"; full_name := "Jo Writer";
     email := Some "jo@example.org"; role := "journalist"; groups := [];
     has_perm_approve_article := false; is_staff := false;
     is_superuser := false |}.

Definition story : ArticleObject :=
  {| article_id := 5;
     row := {| title := "Budget vote"; slug := "budget-vote";
               summary := "Summary"; author := 3; publisher := Some 1%Z;
               status := "approved"; is_approved := true;
               approved_by := Some 7%Z; approved_at := Some 5%Z;
               published_at := Some 5%Z |};
     publisher_name_of := Some "Daily";
     author_of := journalist |}.

Definition both_store : Store :=
  {| users := [una; vic];
     subscribed_publishers := {[ (10%Z, 1%Z); (11%Z, 1%Z) ]};
     subscribed_journalists := {[ (10%Z, 3%Z) ]} |}.

Definition followers_store : Store :=
  {| users := [una; wes];
     subscribed_publishers := ∅;
     subscribed_journalists := {[ (10%Z, 3%Z); (12%Z, 3%Z) ]} |}.

Definition mail_settings : MailSettings :=
  {| BASE_URL := None; DEFAULT_FROM_EMAIL := "news@example.org" |}.

(** A run on an empty notification table with a transport that accepts
    every message and the draws 0, 1, 2, ... *)
Definition run (store : Store) : FanoutResult :=
  _send_article_emails_sync mail_settings (λ _, true) (λ k, N.of_nat k)
    store ∅ story.

End FanoutSample.

(* ===================================================================== *)
(** ** Properties stated about the workflow *)

Module Properties.
Import Models Http EditorPermissions EditorViews.

(** The redundancy invariant between the two approval columns. *)
Definition approval_consistent (article : Article) : Prop :=
  is_approved article = true ↔ status article = "approved".

Definition table_consistent (db : ArticleTable) : Prop :=
  ∀ id article, db !! id = Some article → approval_consistent article.


(** [has_permission] of [check_article_edit_permission]. *)
Definition permitted (request : Request) (article : Article) : bool :=
  (check_article_edit_permission (user request) article).1.

(** Does the bulk view write this (permitted) row? *)
Definition bulk_writes (request : Request) (article : Article) : bool :=
  if action_is (post_action request) "approve" then
    negb (is_approved article)
  else if action_is (post_action request) "reject" then
    is_approved article || str_eq (status article) "pending"
  else action_is (post_action request) "mark_pending".

(** The row the bulk view writes, for clock readings [now1] and [now2]. *)
Definition bulk_written (request : Request) (now1 now2 : Time)
    (article : Article) : Article :=
  if action_is (post_action request) "approve" then
    approve_fields (user request) now1 now2 article
  else if action_is (post_action request) "reject" then
    reject_fields (user request) now1 article
  else mark_pending_fields article.


End Properties.

(* ===================================================================== *)
(** ** Further definitions: routes, audiences and what the views keep *)

Module EditorAccess.
Import Models Http EditorPermissions EditorViews.

(** The inner [test] of [editor_or_staff_required]. *)
Definition editor_or_staff_test (user : RequestUser) : bool :=
  is_authenticated user
  && (is_editor_or_in_editor_group user
      || match user with
         | AnonymousUser => false
         | LoggedIn u => is_staff u || is_superuser u
         end).

(** [request.method == 'POST'] as a boolean. *)
Definition is_POST (request : Request) : bool :=
  match method request with
  | POST => true
  | _ => false
  end.


(** What no editor view touches: the content columns, the author and
    publisher, and a publication time once it is set. *)
Definition same_content (before after : Article) : Prop :=
  title after = title before
  ∧ slug after = slug before
  ∧ summary after = summary before
  ∧ author after = author before
  ∧ publisher after = publisher before
  ∧ (∀ t, published_at before = Some t → published_at after = Some t).

Definition table_extends (before after : ArticleTable) : Prop :=
  ∀ id,
    match before !! id with
    | Some article =>
        ∃ article', after !! id = Some article' ∧ same_content article article'
    | None => after !! id = None
    end.

(** One request to one of the three writing editor views. *)
Inductive editor_step : ArticleTable → ArticleTable → Prop :=
  | step_approve clock db request id :
      editor_step db (articles (approve_article clock db request id))
  | step_reject clock db request id :
      editor_step db (articles (reject_article clock db request id))
  | step_bulk clock db request :
      editor_step db (articles (bulk_article_action clock db request)).

End EditorAccess.

Module TrackingRoutes.
Import Http Notifications EmailTracking.

Fixpoint no_slash (s : string) : bool :=
  match s with
  | EmptyString => true
  | String c s' => negb (bool_decide (c = "/"%char)) && no_slash s'
  end.

(** Django's [str] path converter: the segment must match [[^/]+] and is
    passed on as it is. *)
Definition str_converter (segment : string) : option string :=
  if str_truthy segment && no_slash segment then Some segment else None.

(** [path('track-email/<str:token>/', track_email_open)] applied to the
    path segment that follows [track-email/]. *)
Definition track_email_route
    (patch : list (string * string) → list (string * string))
    (settings : TrackingSettings) : View string :=
  fun world request segment =>
    match str_converter segment with
    | Some token => track_email_open patch settings world request token
    | None => (RESOLVER_404, world)
    end.

(** A stream of GET requests from one client in which every request
    comes less than a minute after the one before it. *)
Fixpoint steady_stream (client : option string)
    (requests : list TrackingRequest) : bool :=
  match requests with
  | [] => true
  | request :: rest =>
      match http_method request with GET => true | _ => false end
      && bool_decide (REMOTE_ADDR request = client)
      && match rest with
         | [] => true
         | next :: _ =>
             bool_decide (now request ≤ now next
                          < now request + 60 * SECOND)%Z
         end
      && steady_stream client rest
  end.

End TrackingRoutes.

Module FanoutAudience.
Import Models Notifications Subscriptions Signals.

(** The message goes to the address of a member of [queryset] who has
    one. *)
Definition addressed_to (queryset : list CustomUser) (m : EmailMessage)
    : Prop :=
  ∃ u, u ∈ queryset ∧ has_email u = true ∧ to m = email u.

(** The value of the loop variable [subscriber] once both loops are
    through: the last follower of the author, or, when the author has no
    followers, the last subscriber of the publisher. *)
Definition last_subscriber (audience : SubscribersByType)
    : option CustomUser :=
  match last (by_journalist audience) with
  | Some u => Some u
  | None => last (by_publisher audience)
  end.

End FanoutAudience.

Module AdminViews.
Import Models Http EditorViews Notifications.

(** [article_approved_handler], the one [post_save] receiver of
    [Article]: does it go on to [send_article_emails] and [post_to_x] for
    the saved [instance]?  [now] is the handler's reading of
    [timezone.now()]. *)
Definition article_approved_handler_fires (instance : Article) (now : Time)
    : bool :=
  if negb (is_approved instance && str_eq (status instance) "approved") then
    false
  else
    match approved_at instance with
    | Some stamp => negb (bool_decide (10 * SECOND < now - stamp)%Z)
    | None => true
    end.

(** [is_admin_or_editor], the test given to [user_passes_test]. *)
Definition is_admin_or_editor (user : RequestUser) : bool :=
  match user with
  | AnonymousUser => false
  | LoggedIn u => is_superuser u || is_staff u || str_eq (role u) "editor"
  end.

(** [user.get_full_name() or user.username]. *)
Definition display_name (user : RequestUser) : string :=
  match user with
  | AnonymousUser => ""
  | LoggedIn u => if str_truthy (full_name u) then full_name u else username u
  end.

(** A request to an admin approval view: the user, the method, the
    [reason] form field and the [X-Requested-With] header. *)
Record AdminRequest := {
  a_user : RequestUser;
  a_method : Method;
  post_reason : option string;
  x_requested_with : option string
}.

(** The answers of the two views.  The JSON bodies are given by the
    values they carry ([approved_at] as the instant, before its
    [strftime] rendering). *)
Inductive AdminResponse :=
| RedirectToLogin
| MethodNotAllowed
| NotFound
| JsonAlreadyApproved
| JsonApproved (approved_by_name : string) (approved_at_value : Time)
| JsonRejected (rejection_reason : string)
| RedirectTo (name : string)
| ServerError (e : Exception).

Record AdminState := {
  admin_articles : ArticleTable;
  admin_notifications : NotificationTable
}.

Record AdminOutcome := {
  admin_response : AdminResponse;
  admin_flashed : Messages;
  admin_state : AdminState
}.

Definition is_ajax (request : AdminRequest) : bool :=
  match x_requested_with request with
  | Some value => str_eq value "XMLHttpRequest"
  | None => false
  end.

Section Receivers.

(** What [send_article_emails(instance); post_to_x(instance)] do to the
    notification table, and whether they raise; mail and network traffic
    are outside this state. *)
Variable send_and_post :
  Z → Article → NotificationTable → Raised * NotificationTable.

(** [article.save()] outside a transaction: the row is written, then the
    [post_save] receiver runs. *)
Definition article_save (now : Time) (state : AdminState) (id : Z)
    (instance : Article) : Raised * AdminState :=
  let articles' := <[id := instance]> (admin_articles state) in
  if article_approved_handler_fires instance now then
    let '(result, table) :=
      send_and_post id instance (admin_notifications state) in
    (result, {| admin_articles := articles'; admin_notifications := table |})
  else
    (Returned,
     {| admin_articles := articles';
        admin_notifications := admin_notifications state |}).

(** [user_passes_test(is_admin_or_editor)] and [require_POST] around a
    view body. *)
Definition admin_guard
    (body : AdminState → AdminRequest → Z → AdminOutcome)
    (state : AdminState) (request : AdminRequest) (article_id : Z)
    : AdminOutcome :=
  if negb (is_admin_or_editor (a_user request)) then
    {| admin_response := RedirectToLogin; admin_flashed := [];
       admin_state := state |}
  else
    match a_method request with
    | POST => body state request article_id
    | _ => {| admin_response := MethodNotAllowed; admin_flashed := [];
              admin_state := state |}
    end.

(** The body of [approve_article_admin]; [clock 0] is the reading stored
    in [approved_at], [clock 1] the receiver's. *)
Definition approve_article_admin_body (clock : nat → Time) (entropy : N)
    (state : AdminState) (request : AdminRequest) (article_id : Z)
    : AdminOutcome :=
  match admin_articles state !! article_id with
  | None => {| admin_response := NotFound; admin_flashed := [];
               admin_state := state |}
  | Some article =>
      if is_approved article then
        {| admin_response := JsonAlreadyApproved; admin_flashed := [];
           admin_state := state |}
      else
        let article' :=
          set_approval article true "approved" (fk_of_user (a_user request))
            (Some (clock 0%nat)) (published_at article) in
        match article_save (clock 1%nat) state article_id article' with
        | (Raise e, state1) =>
            {| admin_response := ServerError e; admin_flashed := [];
               admin_state := state1 |}
        | (Returned, state1) =>
            let fresh :=
              new_notification (author article') (Some article_id)
                ("Your article " +:+ DQUOTE +:+ title article' +:+ DQUOTE
                   +:+ " has been approved")
                ("Your article has been approved by "
                   +:+ display_name (a_user request)
                   +:+ " and is now published.")
                "article_approved" in
            match save entropy (admin_notifications state1) fresh with
            | (Raise e, _, _) =>
                {| admin_response := ServerError e; admin_flashed := [];
                   admin_state := state1 |}
            | (Returned, _, table) =>
                {| admin_response :=
                     if is_ajax request then
                       JsonApproved (display_name (a_user request))
                         (clock 0%nat)
                     else RedirectTo "admin_article_approval_list";
                   admin_flashed :=
                     [(SUCCESS,
                       "Article " +:+ DQUOTE +:+ title article' +:+ DQUOTE
                         +:+ " has been approved successfully.")];
                   admin_state :=
                     {| admin_articles := admin_articles state1;
                        admin_notifications := table |} |}
            end
        end
  end.

Definition approve_article_admin (clock : nat → Time) (entropy : N)
    : AdminState → AdminRequest → Z → AdminOutcome :=
  admin_guard (approve_article_admin_body clock entropy).

(** The body of [reject_article_admin]; [clock 0] is the receiver's
    reading. *)
Definition reject_article_admin_body (clock : nat → Time) (entropy : N)
    (state : AdminState) (request : AdminRequest) (article_id : Z)
    : AdminOutcome :=
  match admin_articles state !! article_id with
  | None => {| admin_response := NotFound; admin_flashed := [];
               admin_state := state |}
  | Some article =>
      let rejection_reason :=
        default "No reason provided" (post_reason request) in
      let article' :=
        set_approval article false "rejected" (approved_by article)
          (approved_at article) (published_at article) in
      match article_save (clock 0%nat) state article_id article' with
      | (Raise e, state1) =>
          {| admin_response := ServerError e; admin_flashed := [];
             admin_state := state1 |}
      | (Returned, state1) =>
          let fresh :=
            new_notification (author article') (Some article_id)
              ("Your article " +:+ DQUOTE +:+ title article' +:+ DQUOTE
                 +:+ " needs revision")
              ("Your article has been rejected by "
                 +:+ display_name (a_user request)
                 +:+ ". Reason: " +:+ rejection_reason)
              "article_rejected" in
          match save entropy (admin_notifications state1) fresh with
          | (Raise e, _, _) =>
              {| admin_response := ServerError e; admin_flashed := [];
                 admin_state := state1 |}
          | (Returned, _, table) =>
              {| admin_response :=
                   if is_ajax request then JsonRejected rejection_reason
                   else RedirectTo "admin_article_approval_list";
                 admin_flashed :=
                   [(WARNING,
                     "Article " +:+ DQUOTE +:+ title article' +:+ DQUOTE
                       +:+ " has been rejected.")];
                 admin_state :=
                   {| admin_articles := admin_articles state1;
                      admin_notifications := table |} |}
          end
      end
  end.

Definition reject_article_admin (clock : nat → Time) (entropy : N)
    : AdminState → AdminRequest → Z → AdminOutcome :=
  admin_guard (reject_article_admin_body clock entropy).

End Receivers.

End AdminViews.

Module SubscriptionViews.
Import Models Http Subscriptions.

(** The [Publisher] table: the name of each publisher, by id. *)
Abbreviation PublisherTable := (gmap Z string).

Inductive SubscriptionResponse :=
| RedirectLogin
| NotAllowed405
| NotFound404
| RedirectDetail (name : string) (target : Z).

Definition with_publisher_edges (store : Store) (edges : gset (Z * Z))
    : Store :=
  {| users := users store; subscribed_publishers := edges;
     subscribed_journalists := subscribed_journalists store |}.

Definition with_journalist_edges (store : Store) (edges : gset (Z * Z))
    : Store :=
  {| users := users store;
     subscribed_publishers := subscribed_publishers store;
     subscribed_journalists := edges |}.

(** [toggle_publisher_subscription], under [login_required] and
    [require_POST]. *)
Definition toggle_publisher_subscription (publishers : PublisherTable)
    (store : Store) (user : RequestUser) (method : Method) (target : Z)
    : SubscriptionResponse * Messages * Store :=
  match user with
  | AnonymousUser => (RedirectLogin, [], store)
  | LoggedIn u =>
      match method with
      | POST =>
          match publishers !! target with
          | None => (NotFound404, [], store)
          | Some name =>
              if negb (str_eq (role u) "reader") then
                (RedirectDetail "publisher_detail" target,
                 [(ERROR, "Only readers can subscribe to publishers.")],
                 store)
              else if bool_decide ((user_pk u, target)
                                     ∈ subscribed_publishers store) then
                (RedirectDetail "publisher_detail" target,
                 [(SUCCESS, "Unsubscribed from " +:+ name +:+ ".")],
                 with_publisher_edges store
                   (subscribed_publishers store ∖ {[ (user_pk u, target) ]}))
              else
                (RedirectDetail "publisher_detail" target,
                 [(SUCCESS, "Subscribed to " +:+ name +:+ ".")],
                 with_publisher_edges store
                   (subscribed_publishers store ∪ {[ (user_pk u, target) ]}))
          end
      | _ => (NotAllowed405, [], store)
      end
  end.

(** [get_object_or_404(user_model, pk=pk, role='journalist')]. *)
Definition get_journalist (store : Store) (target : Z) : option CustomUser :=
  head (filter (λ v, user_pk v = target ∧ role v = "journalist")
          (users store)).

(** [toggle_journalist_subscription]. *)
Definition toggle_journalist_subscription (store : Store)
    (user : RequestUser) (method : Method) (target : Z)
    : SubscriptionResponse * Messages * Store :=
  match user with
  | AnonymousUser => (RedirectLogin, [], store)
  | LoggedIn u =>
      match method with
      | POST =>
          match get_journalist store target with
          | None => (NotFound404, [], store)
          | Some journalist =>
              let name :=
                if str_truthy (full_name journalist) then full_name journalist
                else username journalist in
              if negb (str_eq (role u) "reader") then
                (RedirectDetail "journalist_detail" target,
                 [(ERROR, "Only readers can subscribe to journalists.")],
                 store)
              else if bool_decide ((user_pk u, target)
                                     ∈ subscribed_journalists store) then
                (RedirectDetail "journalist_detail" target,
                 [(SUCCESS, "Unsubscribed from " +:+ name +:+ ".")],
                 with_journalist_edges store
                   (subscribed_journalists store ∖ {[ (user_pk u, target) ]}))
              else
                (RedirectDetail "journalist_detail" target,
                 [(SUCCESS, "Subscribed to " +:+ name +:+ ".")],
                 with_journalist_edges store
                   (subscribed_journalists store ∪ {[ (user_pk u, target) ]}))
          end
      | _ => (NotAllowed405, [], store)
      end
  end.

(** [Q(publisher__in=subscribed_publishers) |
    Q(author__in=subscribed_journalists)] for one article. *)
Definition in_subscriptions (store : Store) (user : CustomUser)
    (article : Article) : bool :=
  match publisher article with
  | Some p => bool_decide ((user_pk user, p) ∈ subscribed_publishers store)
  | None => false
  end
  || bool_decide ((user_pk user, author article)
                    ∈ subscribed_journalists store).

(** [ArticleViewSet.get_queryset] for the authenticated [user]: the
    approved articles, for a reader only those of subscribed publishers
    or followed journalists; each row once, in the order of the table
    scan. *)
Definition get_queryset (store : Store) (db : ArticleTable)
    (user : CustomUser) : list (Z * Article) :=
  let queryset :=
    filter (λ entry, is_approved entry.2 = true
                     ∧ status entry.2 = "approved")
      (map_to_list db) in
  if str_eq (role user) "reader" then
    filter (λ entry, in_subscriptions store user entry.2 = true) queryset
  else queryset.

End SubscriptionViews.

Module Cleanup.
Import Notifications.

Definition DAY : Z := (86400 * SECOND)%Z.

(** A line written to [self.stdout], plain or through
    [self.style.SUCCESS]. *)
Inductive Line :=
| Plain (text : string)
| StyledSuccess (text : string).

(** [is_read=True, email_opened_at__lt=cutoff_date] on one row; a NULL
    [email_opened_at] never matches. *)
Definition is_old (cutoff : Time) (row : Notification) : bool :=
  is_read row
  && match email_opened_at row with
     | Some opened => bool_decide (opened < cutoff)%Z
     | None => false
     end.

(** The queryset [old_notifications], evaluated on the current table. *)
Definition old_notifications (cutoff : Time) (table : NotificationTable)
    : list (Z * Notification) :=
  filter (λ entry, is_old cutoff entry.2 = true) (map_to_list table).

(** [Notification.objects.filter(id__in=batch_ids).delete()]: the number
    of rows deleted and the table that is left. *)
Definition delete_id_in (table : NotificationTable) (batch_ids : list Z)
    : Z * NotificationTable :=
  let doomed := filter (λ entry, entry.1 ∈ batch_ids) (map_to_list table) in
  (Z.of_nat (length doomed),
   foldr (λ entry rest, delete entry.1 rest) table doomed).

(** The [while True] loop, with [fuel] bounding the number of rounds:
    [None] when the fuel runs out before the loop breaks. *)
Fixpoint cleanup_batches (fuel : nat) (cutoff : Time)
    (table : NotificationTable) (deleted_total : Z) (lines : list Line)
    : option (NotificationTable * Z * list Line) :=
  match fuel with
  | O => None
  | S fuel' =>
      match take 1000 (old_notifications cutoff table).*1 with
      | [] => Some (table, deleted_total, lines)
      | batch_ids =>
          let '(deleted_count, table') := delete_id_in table batch_ids in
          let deleted_total := (deleted_total + deleted_count)%Z in
          cleanup_batches fuel' cutoff table' deleted_total
            (app lines
               [Plain ("  Deleted batch: " +:+ str_of_int deleted_count
                         +:+ " notifications (Total: "
                         +:+ str_of_int deleted_total +:+ ")")])
      end
  end.

(** [Command._cleanup_old_notifications]; [now] is [timezone.now()]. *)
Definition _cleanup_old_notifications (fuel : nat) (now : Time)
    (cleanup_days : Z) (dry_run : bool) (table : NotificationTable)
    : option (NotificationTable * list Line) :=
  let heading :=
    Plain ("Cleaning up notifications older than "
             +:+ str_of_int cleanup_days +:+ " days...") in
  let cutoff_date := (now - cleanup_days * DAY)%Z in
  let count := length (old_notifications cutoff_date table) in
  if bool_decide (count = 0%nat) then
    Some (table, [heading; Plain "  No notifications to clean up."])
  else if dry_run then
    Some (table,
          [heading;
           Plain ("  Would delete " +:+ str_of_int (Z.of_nat count)
                    +:+ " old read notifications")])
  else
    match cleanup_batches fuel cutoff_date table 0 [heading] with
    | Some (table', deleted_total, lines) =>
        Some (table',
              app lines
                [StyledSuccess ("  ✓ Cleaned up "
                                  +:+ str_of_int deleted_total
                                  +:+ " old notifications")])
    | None => None
    end.

End Cleanup.

Module Tasks.
Import Models Notifications Subscriptions Signals.

(** [Notification.objects.bulk_create(objs)]: the rows are inserted as
    they are, one after the other in one statement, without calling
    [Notification.save], so no token is generated; the unique constraint
    on [read_token] refuses the whole batch. *)
Fixpoint bulk_insert (table : NotificationTable) (objs : list Notification)
    : option NotificationTable :=
  match objs with
  | [] => Some table
  | obj :: rest =>
      let id := next_id table in
      if token_taken table id (read_token obj) then None
      else bulk_insert (<[id := with_pk obj id]> table) rest
  end.

Definition bulk_create (table : NotificationTable) (objs : list Notification)
    : Raised * NotificationTable :=
  match bulk_insert table objs with
  | Some table' => (Returned, table')
  | None => (Raise IntegrityError, table)
  end.

Section Task.

Variable settings : MailSettings.
Variable smtp_accepts : EmailMessage → bool.

(** [author_name]: [get_full_name()] as it is. *)
Definition author_name (article : ArticleObject) : string :=
  full_name (author_of article).

Definition task_publisher_subject (article : ArticleObject) : string :=
  "New Article from " +:+ default "" (publisher_name_of article) +:+ ": "
    +:+ title (row article).

Definition task_publisher_text (article : ArticleObject) : string :=
  "A new article has been published by "
    +:+ default "" (publisher_name_of article) +:+ "!" +:+ NL +:+ NL
    +:+ "Title: " +:+ title (row article) +:+ NL
    +:+ "Author: " +:+ author_name article +:+ NL
    +:+ "Publisher: " +:+ default "" (publisher_name_of article)
    +:+ NL +:+ NL
    +:+ summary (row article) +:+ NL +:+ NL
    +:+ "Read more: [Your site]/articles/" +:+ slug (row article) +:+ "/"
    +:+ NL +:+ NL
    +:+ "You subscribed to " +:+ default "" (publisher_name_of article)
    +:+ ".".

Definition task_journalist_subject (article : ArticleObject) : string :=
  "New Article by " +:+ author_name article +:+ ": " +:+ title (row article).

Definition task_journalist_text (article : ArticleObject) : string :=
  "A new article has been published by journalist "
    +:+ author_name article +:+ "!" +:+ NL +:+ NL
    +:+ "Title: " +:+ title (row article) +:+ NL
    +:+ "Author: " +:+ author_name article +:+ NL
    +:+ "Publisher: " +:+ shown_publisher article +:+ NL +:+ NL
    +:+ summary (row article) +:+ NL +:+ NL
    +:+ "Read more: [Your website]/articles/" +:+ slug (row article) +:+ "/"
    +:+ NL +:+ NL
    +:+ "You subscribed to " +:+ author_name article +:+ ".".

(** The subscribers for whom a loop body gets past its [continue]
    statements. *)
Definition task_publisher_due (audience : SubscribersByType)
    : list CustomUser :=
  filter (λ u, has_email u = true) (by_publisher audience).

Definition task_journalist_due (audience : SubscribersByType)
    : list CustomUser :=
  filter (λ u, has_email u = true
               ∧ queryset_contains (by_publisher audience) u = false)
    (by_journalist audience).

(** The lists [messages] and [notif_objs] after the two loops. *)
Definition task_messages (article : ArticleObject)
    (audience : SubscribersByType) : list EmailMessage :=
  app
    ((λ u, {| subject := task_publisher_subject article;
              body := task_publisher_text article;
              from_email := DEFAULT_FROM_EMAIL settings;
              to := email u; html_tracking_url := None |})
       <$> task_publisher_due audience)
    ((λ u, {| subject := task_journalist_subject article;
              body := task_journalist_text article;
              from_email := DEFAULT_FROM_EMAIL settings;
              to := email u; html_tracking_url := None |})
       <$> task_journalist_due audience).

Definition task_notifications (article : ArticleObject)
    (audience : SubscribersByType) : list Notification :=
  app
    ((λ u, new_notification (user_pk u) (Some (article_id article))
             (task_publisher_subject article) (task_publisher_text article)
             "publisher")
       <$> task_publisher_due audience)
    ((λ u, new_notification (user_pk u) (Some (article_id article))
             (task_journalist_subject article) (task_journalist_text article)
             "journalist")
       <$> task_journalist_due audience).

(** [send_article_emails_task]; [article] is the result of
    [Article.objects.get(id=article_id)], [None] for [DoesNotExist].  The
    outer [try/except] turns every exception into the result [False]. *)
Definition send_article_emails_task (store : Store)
    (table : NotificationTable) (article : option ArticleObject)
    : bool * NotificationTable * list EmailMessage :=
  match article with
  | None => (false, table, [])
  | Some article =>
      let audience := get_subscribers_by_type store (row article) in
      match all_subscribers audience with
      | [] => (true, table, [])
      | _ =>
          match bulk_create table (task_notifications article audience) with
          | (Raise _, table') => (false, table', [])
          | (Returned, table') =>
              (true, table',
               send_mass_mail smtp_accepts []
                 (task_messages article audience))
          end
      end
  end.

End Task.

(** Some stored notification has the empty token. *)
Definition blank_token_stored (table : NotificationTable) : Prop :=
  ∃ id stored, table !! id = Some stored ∧ read_token stored = "".

End Tasks.

(* ===================================================================== *)
(** * Proofs: the approval state machine *)

Module ApprovalProofs.
Import Models Http EditorPermissions EditorViews Properties.

Lemma editor_is_authenticated user :
  is_editor_or_in_editor_group user = true → is_authenticated user = true.
Proof. by destruct user. Qed.




Lemma staff_is_editor user :
  user_is_staff_or_superuser user = true →
  is_editor_or_in_editor_group user = true.
Proof.
  destruct user as [|u]; simpl; [done|]. intros H.
  repeat case_match; try done.
  destruct (is_staff u), (is_superuser u); done.
Qed.

Lemma permitted_iff request article :
  permitted request article = true ↔
  is_editor_or_in_editor_group (user request) = true
  ∧ author_is article (user request) = false.
Proof.
  unfold permitted, check_article_edit_permission.
  destruct (is_authenticated (user request)) eqn:Hauth; simpl.
  - destruct (author_is article (user request)); simpl.
    + split; [done | by intros [_ ?]].
    + destruct (is_editor_or_in_editor_group (user request)) eqn:Hed; simpl.
      * done.
      * destruct (user_is_staff_or_superuser (user request)) eqn:Hst; simpl.
        -- apply staff_is_editor in Hst. congruence.
        -- split; [done | by intros [? _]].
  - split; [done|]. intros [Hed _].
    apply editor_is_authenticated in Hed. congruence.
Qed.





(** *** The redundancy invariant *)

Lemma approve_fields_consistent actor now1 now2 article :
  approval_consistent (approve_fields actor now1 now2 article).
Proof. by split. Qed.

Lemma reject_fields_consistent actor now1 article :
  approval_consistent (reject_fields actor now1 article).
Proof. by split. Qed.

Lemma mark_pending_fields_consistent article :
  approval_consistent (mark_pending_fields article).
Proof. by split. Qed.

Lemma table_consistent_insert (db : ArticleTable) id article :
  table_consistent db → approval_consistent article →
  table_consistent (<[id := article]> db).
Proof.
  intros Hdb Ha id' article'. rewrite lookup_insert.
  case_decide; [by intros [= <-] | apply Hdb].
Qed.

Lemma approve_article_body_consistent clock (db : ArticleTable) request id :
  table_consistent db →
  table_consistent (articles (approve_article_body clock db request id)).
Proof.
  intros Hdb. unfold approve_article_body.
  repeat case_match; simpl; try done.
  apply table_consistent_insert; [done | apply approve_fields_consistent].
Qed.

Lemma reject_article_body_consistent clock (db : ArticleTable) request id :
  table_consistent db →
  table_consistent (articles (reject_article_body clock db request id)).
Proof.
  intros Hdb. unfold reject_article_body.
  repeat case_match; simpl; try done.
  apply table_consistent_insert; [done | apply reject_fields_consistent].
Qed.

(** The two decorators only ever pass the table on. *)
Lemma decorated_consistent (view_func : ArticleView) clock
    (db : ArticleTable) request id :
  table_consistent db →
  (∀ clock request id,
      table_consistent (articles (view_func clock db request id))) →
  table_consistent
    (articles
       (article_approval_permission_required (require_POST view_func)
          clock db request id)).
Proof.
  intros Hdb Hview.
  unfold article_approval_permission_required, require_POST.
  repeat case_match; simpl; done.
Qed.

Lemma bulk_article_step_consistent clock request st row :
  table_consistent (bulk_db st) →
  table_consistent (bulk_db (bulk_article_step clock request st row)).
Proof.
  intros Hst. destruct row as [id article]. unfold bulk_article_step.
  repeat case_match; simpl; try done;
    apply table_consistent_insert; try done;
    first [ apply approve_fields_consistent
          | apply reject_fields_consistent
          | apply mark_pending_fields_consistent ].
Qed.

Lemma foldl_bulk_consistent clock request rows st :
  table_consistent (bulk_db st) →
  table_consistent
    (bulk_db (foldl (bulk_article_step clock request) st rows)).
Proof.
  revert st. induction rows as [|row rows IH]; intros st Hst; simpl.
  - done.
  - apply IH. by apply bulk_article_step_consistent.
Qed.

(** C10.  Starting from a table in which every article has
    [is_approved = true] exactly when [status = "approved"], the table
    left by [approve_article], by [reject_article] and by
    [bulk_article_action] (whatever its action: approve, reject,
    mark_pending or anything else) has the same property. *)
Theorem editor_transitions_preserve_consistency
    (clock : nat → Time) (db : ArticleTable) (request : Request) (id : Z) :
  table_consistent db →
  table_consistent (articles (approve_article clock db request id))
  ∧ table_consistent (articles (reject_article clock db request id))
  ∧ table_consistent (articles (bulk_article_action clock db request)).
Proof.
  intros Hdb. split; [|split].
  - apply decorated_consistent; [done|]. intros.
    by apply approve_article_body_consistent.
  - apply decorated_consistent; [done|]. intros.
    by apply reject_article_body_consistent.
  - unfold bulk_article_action, editor_required, require_GET_or_POST,
      bulk_article_action_body.
    repeat case_match; simpl; try done;
      by apply foldl_bulk_consistent.
Qed.

Lemma editor_transitions_preserve_consistency_witness :
  let editor :=
    {| user_pk := 7; username := "erin"; full_name := "Erin Editor";
       email := Some "erin@example.org"; role := "editor"; groups := [];
       has_perm_approve_article := false; is_staff := false;
       is_superuser := false |} in
  let approved :=
    {| title := "A"; slug := "a"; summary := "S"; author := 3;
       publisher := None; status := "approved"; is_approved := true;
       approved_by := Some 8%Z; approved_at := Some 5%Z;
       published_at := Some 5%Z |} in
  let request :=
    {| user := LoggedIn editor; method := POST; post_next := None;
       post_action := Some "mark_pending"; post_article_ids := [4%Z];
       post_rejection_reason := None |} in
  table_consistent
    (articles (approve_article (λ _, 9%Z) {[ 4%Z := approved ]} request 4%Z))
  ∧ table_consistent
      (articles (reject_article (λ _, 9%Z) {[ 4%Z := approved ]} request 4%Z))
  ∧ table_consistent
      (articles (bulk_article_action (λ _, 9%Z) {[ 4%Z := approved ]} request)).
Proof.
  intros editor approved request.
  apply (editor_transitions_preserve_consistency (λ _, 9%Z)
           {[ 4%Z := approved ]} request 4%Z).
  intros id' article'. rewrite lookup_singleton_Some.
  intros [_ <-]. by split.
Defined.

(** *** The bulk view *)



(** One iteration writes at most the row it was given and adds one to
    exactly one counter, or to none. *)
Lemma bulk_article_step_spec clock request st id article :
  let st' := bulk_article_step clock request st (id, article) in
  let k := clock_reads st in
  bulk_db st'
  = (if permitted request article && bulk_writes request article then
       <[id := bulk_written request (clock k) (clock (S k)) article]>
         (bulk_db st)
     else bulk_db st)
  ∧ success_count st'
    = (success_count st
       + if permitted request article && bulk_writes request article
         then 1 else 0)%Z
  ∧ error_count st'
    = (error_count st + if negb (permitted request article) then 1 else 0)%Z.
Proof.
  unfold bulk_article_step, permitted, bulk_writes, bulk_written.
  destruct (check_article_edit_permission (user request) article)
    as [has_permission reason].
  destruct has_permission; simpl; [|repeat split; lia].
  destruct (action_is (post_action request) "approve").
  { destruct (is_approved article); simpl; repeat split; lia. }
  destruct (action_is (post_action request) "reject").
  { destruct (is_approved article || str_eq (status article) "pending");
      simpl; repeat split; lia. }
  destruct (action_is (post_action request) "mark_pending");
    simpl; repeat split; lia.
Qed.



Lemma elem_of_filter_id_in (db : ArticleTable) ids id article :
  (id, article) ∈ filter_id_in db ids ↔ id ∈ ids ∧ db !! id = Some article.
Proof.
  unfold filter_id_in.
  by rewrite list_elem_of_filter, elem_of_map_to_list.
Qed.




(** The same scenario evaluated: [A1] is stamped with the first two clock
    readings. *)
Example bulk_approve_scenario_runs :
  let editor :=
    {| user_pk := 7; username := "erin"; full_name := "Erin Editor";
       email := Some "erin@example.org"; role := "editor"; groups := [];
       has_perm_approve_article := false; is_staff := false;
       is_superuser := false |} in
  let a1 :=
    {| title := "A1"; slug := "a1"; summary := "S"; author := 3;
       publisher := None; status := "pending"; is_approved := false;
       approved_by := None; approved_at := None; published_at := None |} in
  let a2 :=
    {| title := "A2"; slug := "a2"; summary := "S"; author := 7;
       publisher := None; status := "pending"; is_approved := false;
       approved_by := None; approved_at := None; published_at := None |} in
  let db : ArticleTable := {[ 1%Z := a1; 2%Z := a2 ]} in
  let request :=
    {| user := LoggedIn editor; method := POST; post_next := None;
       post_action := Some "approve"; post_article_ids := [1%Z; 2%Z];
       post_rejection_reason := None |} in
  let out := bulk_article_action (λ k, (100 + Z.of_nat k)%Z) db request in
  articles out !! 1%Z
  = Some (set_approval a1 true "approved" (Some 7%Z) (Some 100%Z)
            (Some 101%Z))
  ∧ articles out !! 2%Z = Some a2
  ∧ response out = Redirect "editor_article_list" None.
Proof. vm_compute. done. Qed.

End ApprovalProofs.

(* ===================================================================== *)
(** * Proofs: the [Notification] model *)

Module NotificationProofs.
Import Notifications.

Lemma hex_digit_not_hyphen d : hex_digit d ≠ "-"%char.
Proof. unfold hex_digit. repeat case_match; discriminate. Qed.

Lemma hex_fixed_head w n :
  ∃ c rest, hex_fixed (S w) n = String c rest ∧ c ≠ "-"%char.
Proof.
  revert n. induction w as [|w IH]; intros n.
  - eexists _, _. split; [reflexivity | apply hex_digit_not_hyphen].
  - destruct (IH (n / 16)%N) as (c & rest & Heq & Hc).
    change (hex_fixed (S (S w)) n)
      with (hex_fixed (S w) (n / 16)%N
            +:+ String (hex_digit (n mod 16)%N) "").
    rewrite Heq. by eexists _, _.
Qed.

(** A generated token is never the empty string, so it is truthy. *)
Lemma new_read_token_truthy entropy :
  str_truthy (new_read_token entropy) = true.
Proof.
  unfold new_read_token, uuid_str.
  destruct (hex_fixed_head 31 (uuid4_int entropy)) as (c & rest & -> & Hc).
  simpl. by rewrite bool_decide_eq_false_2.
Qed.

Lemma str_truthy_true s : str_truthy s = true ↔ s ≠ "".
Proof. by destruct s. Qed.

Lemma str_truthy_false s : str_truthy s = false ↔ s = "".
Proof. by destruct s. Qed.

(** The token of the object that leaves [save]. *)
Lemma save_read_token entropy table self :
  read_token (save entropy table self).1.2
  = if str_truthy (read_token self) then read_token self
    else new_read_token entropy.
Proof.
  unfold save. destruct (str_truthy (read_token self)); simpl;
    by case_match.
Qed.

Lemma save_keeps_read_state entropy table self :
  is_read (save entropy table self).1.2 = is_read self
  ∧ email_opened_at (save entropy table self).1.2 = email_opened_at self
  ∧ recipient (save entropy table self).1.2 = recipient self
  ∧ n_article (save entropy table self).1.2 = n_article self.
Proof.
  unfold save. destruct (str_truthy (read_token self)); simpl;
    by case_match.
Qed.

Lemma token_taken_false table id token :
  token_taken table id token = false ↔
  ∀ id' other, table !! id' = Some other → id' ≠ id →
               read_token other ≠ token.
Proof.
  unfold token_taken. rewrite bool_decide_eq_false, <-Forall_Exists_neg.
  rewrite Forall_forall. split.
  - intros H id' other Hrow Hne Htok.
    apply (H (id', other)); [by apply elem_of_map_to_list | done].
  - intros H [id' other] Hin [Hne Htok].
    apply elem_of_map_to_list in Hin. by eapply H.
Qed.

(** What [save] does to the table: nothing when the constraint refuses
    the row, otherwise one row is written under the object's id. *)
Lemma save_cases entropy table self :
  let saved := (save entropy table self).1.2 in
  ((save entropy table self).1.1 = Raise IntegrityError
   ∧ (save entropy table self).2 = table)
  ∨ (∃ id,
       (save entropy table self).1.1 = Returned
       ∧ id = default (next_id table) (pk self)
       ∧ pk saved = Some id
       ∧ (save entropy table self).2 = <[id := saved]> table
       ∧ ∀ id' other, table !! id' = Some other → id' ≠ id →
                      read_token other ≠ read_token saved).
Proof.
  unfold save.
  set (self1 := if negb (str_truthy (read_token self))
                then with_read_token self (new_read_token entropy)
                else self).
  assert (Hpk : pk self1 = pk self).
  { subst self1. by destruct (negb _). }
  destruct (token_taken table (default (next_id table) (pk self1))
              (read_token self1)) eqn:Htaken; simpl.
  - by left.
  - right. exists (default (next_id table) (pk self)).
    rewrite Hpk in *. repeat split; try done.
    by apply token_taken_false.
Qed.

Lemma save_preserves_unique entropy table self :
  tokens_unique table → tokens_unique (save entropy table self).2.
Proof.
  intros Huniq.
  destruct (save_cases entropy table self)
    as [[_ ->]|(id & _ & _ & _ & -> & Hfree)]; [done|].
  intros id1 id2 n1 n2. rewrite !lookup_insert.
  destruct (decide (id = id1)) as [E1|N1], (decide (id = id2)) as [E2|N2].
  - congruence.
  - intros [= <-] H2 Heq. exfalso.
    apply (Hfree id2 n2 H2); [congruence | done].
  - intros H1 [= <-] Heq. exfalso.
    apply (Hfree id1 n1 H1); [congruence | done].
  - apply Huniq.
Qed.

(** C4.  [Notification.save] on an object whose token is empty assigns
    it a newly generated, non-empty token; under the unique constraint of
    the column the table never holds one token twice, and a saved row's
    token is held by no other row; a draw that no stored row holds makes
    the first save succeed; and every later [save] or [mark_as_read] of
    an object that has a token leaves the token as it is, on the object
    and in its stored row. *)
Theorem read_token_generated_once_and_unique
    (entropy : N) (table : NotificationTable) (self : Notification) :
  tokens_unique table →
  let result := (save entropy table self).1.1 in
  let saved := (save entropy table self).1.2 in
  let table1 := (save entropy table self).2 in
  (read_token self = "" →
     read_token saved = new_read_token entropy ∧ read_token saved ≠ "")
  ∧ tokens_unique table1
  ∧ (result = Returned →
       ∃ id, pk saved = Some id ∧ table1 !! id = Some saved
             ∧ ∀ id' other, table1 !! id' = Some other → id' ≠ id →
                            read_token other ≠ read_token saved)
  ∧ (read_token self = "" →
     (∀ id other, table !! id = Some other →
                  read_token other ≠ new_read_token entropy) →
     result = Returned)
  ∧ (∀ (later : Notification) (entropy' : N) (table' : NotificationTable)
       (now : Time),
       read_token later ≠ "" →
       read_token (save entropy' table' later).1.2 = read_token later
       ∧ read_token (mark_as_read now entropy' table' later).1.2
         = read_token later
       ∧ (∀ id stored, pk later = Some id →
            (save entropy' table' later).1.1 = Returned →
            (save entropy' table' later).2 !! id = Some stored →
            read_token stored = read_token later)
       ∧ (∀ id stored, pk later = Some id →
            (mark_as_read now entropy' table' later).1.1 = Returned →
            is_read later = false →
            (mark_as_read now entropy' table' later).2 !! id = Some stored →
            read_token stored = read_token later)).
Proof.
  intros Huniq result saved table1.
  assert (Hkeep : ∀ (later : Notification) e t,
             read_token later ≠ "" →
             read_token (save e t later).1.2 = read_token later).
  { intros later e t Hne. rewrite save_read_token.
    apply str_truthy_true in Hne. by rewrite Hne. }
  assert (Hrow : ∀ (later : Notification) e t id stored,
             read_token later ≠ "" → pk later = Some id →
             (save e t later).1.1 = Returned →
             (save e t later).2 !! id = Some stored →
             read_token stored = read_token later).
  { intros later e t id stored Hne Hpk Hret Hst.
    destruct (save_cases e t later)
      as [[Hr _]|(id' & _ & Hid & _ & Htab & _)]; [congruence|].
    rewrite Hpk in Hid. simpl in Hid. subst id'.
    rewrite Htab, lookup_insert_eq in Hst. injection Hst as <-.
    by apply Hkeep. }
  split; [|split; [|split; [|split]]].
  - intros Hempty. subst saved. rewrite save_read_token, Hempty. simpl.
    split; [done|]. apply str_truthy_true, new_read_token_truthy.
  - by apply save_preserves_unique.
  - intros Hret. subst result saved table1.
    destruct (save_cases entropy table self)
      as [[Hr _]|(id & _ & _ & Hpk & Htab & Hfree)]; [congruence|].
    exists id. rewrite Htab, lookup_insert_eq. repeat split; try done.
    intros id' other Hrow' Hne. rewrite lookup_insert_ne in Hrow' by done.
    by eapply Hfree.
  - intros Hempty Hfresh. subst result. unfold save.
    rewrite Hempty. simpl.
    rewrite (proj2 (token_taken_false _ _ _)); [done|].
    intros id' other Hrow' _. by apply Hfresh in Hrow'.
  - intros later e t now Hne. split; [by apply Hkeep|]. split; [|split].
    + unfold mark_as_read. destruct (is_read later); simpl; [done|].
      by rewrite Hkeep.
    + intros id stored. by apply Hrow.
    + intros id stored Hpk Hret Hunread. unfold mark_as_read in *.
      rewrite Hunread in *. simpl in *. intros Hst.
      by rewrite (Hrow (with_read later now) e t id stored).
Qed.

Lemma read_token_generated_once_and_unique_witness :
  let fresh := new_notification 3 (Some 5%Z) "Subject" "" "publisher" in
  let saved := (save 0%N ∅ fresh).1.2 in
  read_token saved = "00000000000040008000000000000000"
  ∧ (save 0%N ∅ fresh).1.1 = Returned
  ∧ tokens_unique (save 0%N ∅ fresh).2
  ∧ read_token (mark_as_read 77%Z 1%N (save 0%N ∅ fresh).2 saved).1.2
    = read_token saved.
Proof.
  intros fresh saved.
  destruct (read_token_generated_once_and_unique 0%N ∅ fresh)
    as (Hgen & Huniq & _ & Hok & Hlater).
  { intros id1 id2 n1 n2 H. by rewrite lookup_empty in H. }
  destruct (Hgen eq_refl) as [Htok Hne].
  split; [exact Htok|]. split.
  { apply Hok; [reflexivity|]. intros id other H.
    by rewrite lookup_empty in H. }
  split; [exact Huniq|].
  destruct (Hlater saved 1%N (save 0%N ∅ fresh).2 77%Z Hne) as (_ & Hm & _).
  exact Hm.
Defined.

(** C5.  Two calls of [mark_as_read] in sequence: after the first the
    notification is read; the second call changes neither the object nor
    the table and raises nothing, so [is_read] stays true and
    [email_opened_at] stays what the first call left, which for a
    notification that was unread is the time of the first call. *)
Theorem mark_as_read_twice
    (now1 now2 : Time) (entropy1 entropy2 : N)
    (table : NotificationTable) (self : Notification) :
  let first := mark_as_read now1 entropy1 table self in
  let second := mark_as_read now2 entropy2 first.2 first.1.2 in
  is_read first.1.2 = true
  ∧ second = (Returned, first.1.2, first.2)
  ∧ is_read second.1.2 = true
  ∧ email_opened_at second.1.2 = email_opened_at first.1.2
  ∧ (is_read self = false →
       email_opened_at first.1.2 = Some now1
       ∧ email_opened_at second.1.2 = Some now1).
Proof.
  intros first second.
  assert (Hread : is_read first.1.2 = true).
  { subst first. unfold mark_as_read.
    destruct (is_read self) eqn:Hr; simpl; [done|].
    by rewrite (proj1 (save_keeps_read_state _ _ _)). }
  assert (Hsecond : second = (Returned, first.1.2, first.2)).
  { subst second. unfold mark_as_read at 1. by rewrite Hread. }
  rewrite Hsecond. simpl. repeat split; try done.
  - subst first. unfold mark_as_read. rewrite H. simpl.
    by rewrite (proj1 (proj2 (save_keeps_read_state _ _ _))).
  - subst first. unfold mark_as_read. rewrite H. simpl.
    by rewrite (proj1 (proj2 (save_keeps_read_state _ _ _))).
Qed.

End NotificationProofs.

(* ===================================================================== *)
(** * Proofs: the read-tracking endpoints *)

Module TrackingProofs.
Import Http Notifications EmailTracking.

(** The two cache-key families never meet. *)
Lemma rate_key_not_tracking_key token token' client :
  RATE_LIMIT_PREFIX +:+ token +:+ ":" +:+ client
  ≠ TRACKING_CACHE_PREFIX +:+ token'.
Proof. discriminate. Qed.

(** Every path through the body ends in [_return_tracking_pixel()]. *)
Lemma track_body_response settings world request token :
  (track_email_open_body settings world request token).1
  = _return_tracking_pixel.
Proof.
  unfold track_email_open_body.
  destruct (_is_rate_limited (cache world) token request) as [limited cache1].
  repeat case_match; done.
Qed.

Lemma track_email_open_GET patch settings world request token :
  http_method request = GET →
  track_email_open patch settings world request token
  = (add_never_cache_headers patch _return_tracking_pixel,
     (track_email_open_body settings world request token).2).
Proof.
  intros Hget.
  unfold track_email_open, csrf_exempt, require_GET, never_cache.
  rewrite Hget.
  pose proof (track_body_response settings world request token) as Hresp.
  destruct (track_email_open_body settings world request token) as [r w].
  simpl in *. by rewrite Hresp.
Qed.

Lemma get_by_read_token_unknown (table : NotificationTable) token :
  (∀ id row, table !! id = Some row → read_token row ≠ token) →
  get_by_read_token table token = DoesNotExist.
Proof.
  intros Hnone. unfold get_by_read_token.
  assert (filter (λ row : Z * Notification, read_token row.2 = token)
            (map_to_list table) = []) as ->; [|done].
  apply elem_of_nil_inv. intros [id row] Hin.
  apply list_elem_of_filter in Hin as [Htok Hin].
  apply elem_of_map_to_list in Hin. by apply (Hnone id row).
Qed.

Lemma track_body_unknown_keeps_rows settings world request token :
  (∀ id row, notifications world !! id = Some row → read_token row ≠ token) →
  notifications (track_email_open_body settings world request token).2
  = notifications world.
Proof.
  intros Hnone. unfold track_email_open_body.
  rewrite (get_by_read_token_unknown _ _ Hnone).
  destruct (_is_rate_limited (cache world) token request) as [limited cache1].
  repeat case_match; done.
Qed.

(** C6.  A GET for a token that no notification holds and a GET for the
    token of a notification that is already read receive the same
    response: status 200, content type image/gif, the transparent pixel
    as body and the same headers.  This holds whatever the two states,
    clients and instants are; the unknown token changes no notification
    either. *)
Theorem track_open_indistinguishable
    (patch : list (string * string) → list (string * string))
    (settings : TrackingSettings)
    (world1 world2 : World) (request1 request2 : TrackingRequest)
    (unknown known : string) :
  http_method request1 = GET →
  http_method request2 = GET →
  (∀ id row, notifications world1 !! id = Some row →
             read_token row ≠ unknown) →
  (∃ id row, notifications world2 !! id = Some row
             ∧ read_token row = known ∧ is_read row = true) →
  let answer1 := track_email_open patch settings world1 request1 unknown in
  let answer2 := track_email_open patch settings world2 request2 known in
  answer1.1 = answer2.1
  ∧ status_code answer1.1 = 200%Z
  ∧ content_type answer1.1 = "image/gif"
  ∧ content answer1.1 = Bytes TRANSPARENT_PIXEL
  ∧ headers answer1.1 = patch (headers _return_tracking_pixel)
  ∧ notifications answer1.2 = notifications world1.
Proof.
  intros Hget1 Hget2 Hunknown _ answer1 answer2. subst answer1 answer2.
  rewrite !track_email_open_GET by done. simpl.
  repeat split; try done.
  by apply track_body_unknown_keeps_rows.
Qed.

Lemma track_open_indistinguishable_witness :
  let read_row :=
    {| pk := Some 1%Z; recipient := 3; n_article := Some 5%Z;
       n_title := "T"; message := "M"; notification_type := "publisher";
       is_read := true; email_opened_at := Some 10%Z;
       read_token := "00000000000040008000000000000000" |} in
  let world :=
    {| notifications := {[ 1%Z := read_row ]};
       cache := {| counters := ∅; markers := ∅ |} |} in
  let request :=
    {| http_method := GET; REMOTE_ADDR := Some "203.0.113.9";
       now := 50%Z; entropy := 0%N |} in
  let answer1 := track_email_open (λ h, h) None world request "nosuchtoken" in
  let answer2 :=
    track_email_open (λ h, h) None world request
      "00000000000040008000000000000000" in
  answer1.1 = answer2.1
  ∧ status_code answer1.1 = 200%Z
  ∧ content_type answer1.1 = "image/gif"
  ∧ content answer1.1 = Bytes TRANSPARENT_PIXEL
  ∧ headers answer1.1 = headers _return_tracking_pixel
  ∧ notifications answer1.2 = notifications world.
Proof.
  intros read_row world request.
  apply (track_open_indistinguishable (λ h, h) None world world request
           request "nosuchtoken" "00000000000040008000000000000000");
    try reflexivity.
  - intros id row. simpl. rewrite lookup_singleton_Some.
    intros [_ <-]. discriminate.
  - exists 1%Z, read_row. simpl. by rewrite lookup_singleton_eq.
Defined.

(** *** The pixel rate limit *)

Lemma counted_get cache key count start t :
  counted cache key count start →
  (start ≤ t < start + 60 * SECOND)%Z →
  cache_get_counter cache t key 0 = count.
Proof.
  intros [[-> Hdead]|[Hpos (expires & Hentry & Hlong)]] Ht;
    unfold cache_get_counter, live.
  - destruct (counters cache !! key) as [[value expires]|] eqn:Hentry;
      [|done].
    apply Hdead in Hentry. rewrite bool_decide_eq_false_2 by lia. done.
  - rewrite Hentry. rewrite bool_decide_eq_true_2 by lia. done.
Qed.

(** A request under the limit leaves the counter one higher, with a
    fresh minute to live; the marker it may store lives in the other
    family. *)
Lemma track_body_counts settings world request token :
  let key := rate_limit_key token request in
  let count := cache_get_counter (cache world) (now request) key 0 in
  (count < 10)%Z →
  counters (cache (track_email_open_body settings world request token).2)
  = <[key := ((count + 1)%Z, (now request + 60 * SECOND)%Z)]>
      (counters (cache world)).
Proof.
  intros key count Hlow.
  unfold track_email_open_body, _is_rate_limited.
  fold (rate_limit_key token request). fold key. fold count.
  rewrite bool_decide_eq_false_2 by lia.
  repeat case_match; done.
Qed.

(** A request at the limit is answered at once and changes nothing. *)
Lemma track_body_limited settings world request token :
  let key := rate_limit_key token request in
  (10 ≤ cache_get_counter (cache world) (now request) key 0)%Z →
  track_email_open_body settings world request token
  = (_return_tracking_pixel, world).
Proof.
  intros key Hhigh.
  unfold track_email_open_body, _is_rate_limited.
  fold (rate_limit_key token request). fold key.
  by rewrite bool_decide_eq_true_2.
Qed.

Lemma burst_key token client request start :
  http_method request = GET
  ∧ REMOTE_ADDR request = client
  ∧ (start ≤ now request < start + 60 * SECOND)%Z →
  rate_limit_key token request
  = RATE_LIMIT_PREFIX +:+ token +:+ ":" +:+ default "unknown" client.
Proof.
  intros (_ & <- & _). reflexivity.
Qed.

Lemma burst_invariant patch settings token start client requests :
  let key := RATE_LIMIT_PREFIX +:+ token +:+ ":" +:+ default "unknown" client in
  one_minute_burst start client requests →
  ∀ world count,
    (0 ≤ count ≤ 10)%Z →
    counted (cache world) key count start →
    ∀ (i : nat) before response after,
      serve_pixels patch settings world token requests !! i
      = Some (before, response, after) →
      ((count + Z.of_nat i < 10)%Z →
         response = add_never_cache_headers patch _return_tracking_pixel
         ∧ counted (cache after) key (count + Z.of_nat i + 1) start)
      ∧ ((10 ≤ count + Z.of_nat i)%Z →
           response = add_never_cache_headers patch _return_tracking_pixel
           ∧ after = before).
Proof.
  intros key Hburst. induction Hburst as [|request rest Hreq Hrest IH];
    intros world count Hrange Hcount i before response after Hi.
  { done. }
  pose proof (burst_key token client request start Hreq) as Hkey.
  fold key in Hkey.
  destruct Hreq as (Hget & Hclient & Htime).
  pose proof (counted_get _ _ _ _ _ Hcount Htime) as Hread.
  cbn [serve_pixels] in Hi.
  rewrite (track_email_open_GET patch settings world request token Hget) in Hi.
  cbn [fst snd] in Hi.
  destruct (decide (count < 10)%Z) as [Hlow|Hhigh].
  - (* this request is counted *)
    assert (Hnext : counted
              (cache (track_email_open_body settings world request token).2)
              key (count + 1) start).
    { right. split; [lia|]. eexists. split.
      - rewrite track_body_counts; rewrite Hkey, Hread; [|done].
        by rewrite lookup_insert_eq.
      - lia. }
    destruct i as [|i]; cbn [lookup list_lookup] in Hi.
    + injection Hi as <- <- <-. split; [|lia].
      intros _. split; [done|]. by rewrite Z.add_0_r.
    + specialize (IH _ (count + 1)%Z ltac:(lia) Hnext i before response
                     after Hi) as [IHlow IHhigh].
      split; intros Hi'.
      * destruct IHlow as [-> Hc]; [lia|]. split; [done|].
        by replace (count + Z.of_nat (S i) + 1)%Z
          with (count + 1 + Z.of_nat i + 1)%Z by lia.
      * apply IHhigh. lia.
  - (* this request is refused *)
    assert (count = 10%Z) as -> by lia.
    rewrite track_body_limited in Hi by (rewrite Hkey, Hread; lia).
    cbn [snd] in Hi.
    destruct i as [|i]; cbn [lookup list_lookup] in Hi.
    + injection Hi as <- <- <-. split; [lia|done].
    + specialize (IH _ 10%Z ltac:(lia) Hcount i before response after Hi)
        as [_ IHhigh].
      split; [lia|]. intros _. apply IHhigh. lia.
Qed.

(** C7.  When tracking-pixel requests for one token arrive from one
    client within one minute, and no counter for that token and client
    was alive when the minute began, the first ten requests are counted
    and the eleventh and every later one (in particular requests 11 to 15
    of a run of 15) gets the usual 200 pixel response while the
    notification table, and indeed the whole state, stays as the request
    found it. *)
Theorem pixel_burst_rate_limited
    (patch : list (string * string) → list (string * string))
    (settings : TrackingSettings) (world : World) (token : string)
    (start : Time) (client : option string)
    (requests : list TrackingRequest) :
  one_minute_burst start client requests →
  no_live_counter (cache world)
    (RATE_LIMIT_PREFIX +:+ token +:+ ":" +:+ default "unknown" client) start →
  ∀ (i : nat) before response after,
    serve_pixels patch settings world token requests !! i
    = Some (before, response, after) →
    response = add_never_cache_headers patch _return_tracking_pixel
    ∧ status_code response = 200%Z
    ∧ content response = Bytes TRANSPARENT_PIXEL
    ∧ ((i < 10)%nat →
         counted (cache after)
           (RATE_LIMIT_PREFIX +:+ token +:+ ":" +:+ default "unknown" client)
           (Z.of_nat i + 1) start)
    ∧ ((10 ≤ i)%nat →
         notifications after = notifications before ∧ after = before).
Proof.
  intros Hburst Hdead i before response after Hi.
  destruct (burst_invariant patch settings token start client requests
              Hburst world 0%Z ltac:(lia) (or_introl (conj eq_refl Hdead))
              i before response after Hi) as [Hlow Hhigh].
  assert (response = add_never_cache_headers patch _return_tracking_pixel)
    as ->.
  { destruct (decide (i < 10)%nat).
    - apply Hlow. lia.
    - apply Hhigh. lia. }
  split; [done|]. split; [done|]. split; [done|]. split.
  - intros Hi'. destruct Hlow as [_ Hc]; [lia|].
    by rewrite Z.add_0_l in Hc.
  - intros Hi'. destruct Hhigh as [_ ->]; [lia|done].
Qed.

Lemma pixel_burst_rate_limited_witness :
  let unread :=
    {| pk := Some 1%Z; recipient := 3; n_article := Some 5%Z;
       n_title := "T"; message := "M"; notification_type := "publisher";
       is_read := false; email_opened_at := None;
       read_token := "00000000000040008000000000000000" |} in
  let world :=
    {| notifications := {[ 1%Z := unread ]};
       cache := {| counters := ∅; markers := ∅ |} |} in
  let request (k : nat) :=
    {| http_method := GET; REMOTE_ADDR := Some "203.0.113.9";
       now := (Z.of_nat k * SECOND)%Z; entropy := 0%N |} in
  let run :=
    serve_pixels (λ h, h) None world "00000000000040008000000000000000"
      (request <$> seq 0 15) in
  ∃ before response after,
    run !! 10%nat = Some (before, response, after)
    ∧ response = _return_tracking_pixel
    ∧ notifications after = notifications before
    ∧ after = before.
Proof.
  intros unread world request run.
  destruct (run !! 10%nat) as [[[before response] after]|] eqn:Hrun;
    [|vm_compute in Hrun; discriminate].
  exists before, response, after. split; [done|].
  destruct (pixel_burst_rate_limited (λ h, h) None world
              "00000000000040008000000000000000" 0%Z
              (Some "203.0.113.9") (request <$> seq 0 15))
    with (i := 10%nat) (before := before) (response := response)
         (after := after)
    as (Hresponse & _ & _ & _ & Hsame).
  - apply Forall_forall. intros r Hin.
    apply list_elem_of_fmap in Hin as (k & -> & Hk).
    apply elem_of_seq in Hk. simpl. unfold SECOND.
    split; [reflexivity|]. split; [reflexivity|]. lia.
  - intros value expires Hentry. cbn [cache counters world] in Hentry.
    rewrite lookup_empty in Hentry. discriminate Hentry.
  - exact Hrun.
  - destruct Hsame as [Hrows Hworld]; [lia|].
    split; [exact Hresponse|]. split; [exact Hrows | exact Hworld].
Defined.

(** The same run evaluated: the first request marks the notification
    read, requests 2 to 10 are counted, request 11 finds the counter at
    ten. *)
Example pixel_burst_runs :
  let unread :=
    {| pk := Some 1%Z; recipient := 3; n_article := Some 5%Z;
       n_title := "T"; message := "M"; notification_type := "publisher";
       is_read := false; email_opened_at := None;
       read_token := "00000000000040008000000000000000" |} in
  let world :=
    {| notifications := {[ 1%Z := unread ]};
       cache := {| counters := ∅; markers := ∅ |} |} in
  let request (k : nat) :=
    {| http_method := GET; REMOTE_ADDR := Some "203.0.113.9";
       now := (Z.of_nat k * SECOND)%Z; entropy := 0%N |} in
  let run :=
    serve_pixels (λ h, h) None world "00000000000040008000000000000000"
      (request <$> seq 0 15) in
  (λ entry, notifications entry.2 !! 1%Z) <$> run !! 0%nat
  = Some (Some (with_read unread 0%Z))
  ∧ (λ entry,
       counters (cache entry.2)
         !! "rate_limit:00000000000040008000000000000000:203.0.113.9")
      <$> run !! 9%nat
    = Some (Some (10%Z, 69000000%Z))
  ∧ (λ entry,
       counters (cache entry.2)
         !! "rate_limit:00000000000040008000000000000000:203.0.113.9")
      <$> run !! 14%nat
    = Some (Some (10%Z, 69000000%Z)).
Proof. vm_compute. done. Qed.

(** *** The explicit mark-read endpoint *)

Lemma mark_notification_read_GET patch py_int world request value :
  http_method request = GET →
  mark_notification_read patch py_int world request value
  = (add_never_cache_headers patch
       (mark_notification_read_body py_int world request value).1,
     (mark_notification_read_body py_int world request value).2).
Proof.
  intros Hget.
  unfold mark_notification_read, csrf_exempt, require_GET, never_cache.
  rewrite Hget. by destruct (mark_notification_read_body _ _ _ _).
Qed.

Lemma is_digit_range c :
  is_digit c = true → (48 ≤ Z.of_nat (nat_of_ascii c) ≤ 57)%Z.
Proof.
  unfold is_digit. intros H. apply andb_prop in H as [H1 H2].
  apply bool_decide_eq_true in H1, H2. lia.
Qed.

Lemma decimal_value_nonneg s : ∀ acc,
  all_digits s = true → (0 ≤ acc)%Z → (0 ≤ decimal_value acc s)%Z.
Proof.
  induction s as [|c s IH]; intros acc Hdigits Hacc; simpl in *; [done|].
  apply andb_prop in Hdigits as [Hc Hs]. apply is_digit_range in Hc.
  apply IH; [done | lia].
Qed.

Lemma int_converter_nonneg segment n :
  int_converter segment = Some n → (0 ≤ n)%Z.
Proof.
  unfold int_converter.
  destruct (str_truthy segment && all_digits segment) eqn:Hok; [|done].
  intros [= <-]. apply andb_prop in Hok as [_ Hdigits].
  by apply decimal_value_nonneg.
Qed.

(** Marking a stored unread row that has a token always succeeds on a
    table with unique tokens. *)
Lemma mark_as_read_stored now entropy (table : NotificationTable) id row :
  table !! id = Some row →
  is_read row = false →
  read_token row ≠ "" →
  tokens_unique table →
  mark_as_read now entropy table (load id row)
  = (Returned, load id (with_read row now),
     <[id := load id (with_read row now)]> table).
Proof.
  intros Hrow Hunread Htoken Huniq.
  unfold mark_as_read, load. simpl. rewrite Hunread. simpl.
  unfold save. simpl.
  apply NotificationProofs.str_truthy_true in Htoken. rewrite Htoken. simpl.
  rewrite (proj2 (NotificationProofs.token_taken_false _ _ _)); [done|].
  intros id' other Hother Hne Heq. apply Hne.
  by apply (Huniq id' id other row).
Qed.

(** C8 (as the code has it).  The route [mark-read/<int:notification_id>/]
    passes on only non-empty digit strings, as non-negative integers: a
    segment such as [-1] or [abc] matches no route and gets the
    resolver's 404, not the view's error page.  For a GET that reaches
    the view: an id that is not an integer or is not positive (so [0]
    through the route, [-1] when the view is called directly) gets the
    structured 400 page whatever the client's counter; a positive id from
    a client whose counter stands at 20 or more gets the 429 page; below
    20, a positive id without a row (e.g. 9999) gets the structured 404
    page, and an existing row gets the 200 page, as already read when it
    is read and as newly marked when it is unread and has a token in a
    table with unique tokens; the row is then read and stamped with the
    time of the request. *)
Theorem mark_read_status_codes
    (patch : list (string * string) → list (string * string))
    (py_int : string → option Z)
    (world : World) (request : TrackingRequest) :
  http_method request = GET →
  let count :=
    cache_get_counter (cache world) (now request)
      (RATE_LIMIT_PREFIX +:+ "mark_read:" +:+ _get_client_ip request) 0 in
  let view := mark_notification_read patch py_int world request in
  let route := mark_read_route patch py_int world request in
  let answer := add_never_cache_headers patch in
  (∀ segment, int_converter segment = None →
              route segment = (RESOLVER_404, world))
  ∧ (∀ segment n, int_converter segment = Some n →
                  (0 ≤ n)%Z ∧ route segment = view (PyInt n))
  ∧ (int_converter "-1" = None ∧ int_converter "abc" = None
     ∧ int_converter "" = None ∧ int_converter "0" = Some 0%Z
     ∧ int_converter "9999" = Some 9999%Z)
  ∧ (∀ value,
       (int_of py_int value = None
        ∨ ∃ n, int_of py_int value = Some n ∧ (n ≤ 0)%Z) →
       view value
       = (answer (_render_error_page "Invalid Request"
                    "The notification ID format is invalid." 400),
          world))
  ∧ (∀ value n,
       int_of py_int value = Some n → (0 < n)%Z → (20 ≤ count)%Z →
       view value
       = (answer (_render_error_page "Too Many Requests"
                    "Please wait a moment before trying again." 429),
          world))
  ∧ (∀ value n,
       int_of py_int value = Some n → (0 < n)%Z → (count < 20)%Z →
       notifications world !! n = None →
       (view value).1
       = answer (_render_error_page "Notification Not Found"
                   "The requested notification could not be found." 404)
       ∧ notifications (view value).2 = notifications world)
  ∧ (∀ value n row,
       int_of py_int value = Some n → (0 < n)%Z → (count < 20)%Z →
       notifications world !! n = Some row →
       is_read row = true →
       (view value).1
       = answer (_render_success_page (now request)
                   "ℹ️ Notification was already marked as read." n "info")
       ∧ status_code (view value).1 = 200%Z
       ∧ notifications (view value).2 = notifications world)
  ∧ (∀ value n row,
       int_of py_int value = Some n → (0 < n)%Z → (count < 20)%Z →
       notifications world !! n = Some row →
       is_read row = false →
       read_token row ≠ "" →
       tokens_unique (notifications world) →
       (view value).1
       = answer (_render_success_page (now request)
                   "✅ Notification marked as read successfully!" n
                   "success")
       ∧ status_code (view value).1 = 200%Z
       ∧ notifications (view value).2
         = <[n := load n (with_read row (now request))]>
             (notifications world)).
Proof.
  intros Hget count view route answer.
  assert (Hview : ∀ value,
    view value
    = (answer (mark_notification_read_body py_int world request value).1,
       (mark_notification_read_body py_int world request value).2)).
  { intros value. by apply mark_notification_read_GET. }
  split; [|split; [|split; [|split; [|split; [|split; [|split]]]]]].
  - intros segment Hnone. subst route. unfold mark_read_route.
    by rewrite Hnone.
  - intros segment n Hsome. split; [by eapply int_converter_nonneg|].
    subst route. unfold mark_read_route. by rewrite Hsome.
  - repeat split; reflexivity.
  - intros value Hbad. rewrite Hview. unfold mark_notification_read_body.
    destruct Hbad as [->|(n & -> & Hn)]; [done|].
    by rewrite bool_decide_eq_true_2.
  - intros value n Hint Hpos Hmany. rewrite Hview.
    unfold mark_notification_read_body. rewrite Hint.
    rewrite bool_decide_eq_false_2 by lia. fold count.
    by rewrite bool_decide_eq_true_2.
  - intros value n Hint Hpos Hfew Hnone. rewrite Hview.
    unfold mark_notification_read_body. rewrite Hint.
    rewrite bool_decide_eq_false_2 by lia. fold count.
    rewrite bool_decide_eq_false_2 by lia. by rewrite Hnone.
  - intros value n row Hint Hpos Hfew Hrow Hread. rewrite Hview.
    unfold mark_notification_read_body. rewrite Hint.
    rewrite bool_decide_eq_false_2 by lia. fold count.
    rewrite bool_decide_eq_false_2 by lia. rewrite Hrow. simpl.
    by rewrite Hread.
  - intros value n row Hint Hpos Hfew Hrow Hunread Htoken Huniq.
    rewrite Hview. unfold mark_notification_read_body. rewrite Hint.
    rewrite bool_decide_eq_false_2 by lia. fold count.
    rewrite bool_decide_eq_false_2 by lia. rewrite Hrow.
    replace (is_read (load n row)) with false by done. cbn [negb].
    by rewrite (mark_as_read_stored _ _ _ _ _ Hrow Hunread Htoken Huniq).
Qed.

Lemma mark_read_status_codes_witness :
  let unread :=
    {| pk := Some 1%Z; recipient := 3; n_article := Some 5%Z;
       n_title := "T"; message := "M"; notification_type := "publisher";
       is_read := false; email_opened_at := None;
       read_token := "00000000000040008000000000000000" |} in
  let world :=
    {| notifications := {[ 1%Z := unread ]};
       cache := {| counters := ∅; markers := ∅ |} |} in
  let request :=
    {| http_method := GET; REMOTE_ADDR := Some "203.0.113.9";
       now := 50%Z; entropy := 0%N |} in
  let route := mark_read_route (λ h, h) (λ _, None) world request in
  let view := mark_notification_read (λ h, h) (λ _, None) world request in
  route "-1" = (RESOLVER_404, world)
  ∧ status_code (view (PyInt (-1))).1 = 400%Z
  ∧ status_code (route "0").1 = 400%Z
  ∧ status_code (route "9999").1 = 404%Z
  ∧ content (route "9999").1
    = ErrorPage "Notification Not Found"
        "The requested notification could not be found." 404
  ∧ status_code (route "1").1 = 200%Z
  ∧ notifications (route "1").2 !! 1%Z = Some (with_read unread 50%Z).
Proof.
  intros unread world request route view.
  destruct (mark_read_status_codes (λ h, h) (λ _, None) world request
              eq_refl)
    as (Hnomatch & Hmatch & _ & Hbad & _ & Hmissing & _ & Hmark).
  split; [by apply Hnomatch|].
  split.
  { unfold view. rewrite (Hbad (PyInt (-1))); [done|].
    right. by exists (-1)%Z. }
  split.
  { unfold route. destruct (Hmatch "0" 0%Z eq_refl) as [_ ->].
    rewrite (Hbad (PyInt 0)); [done|]. right. by exists 0%Z. }
  destruct (Hmatch "9999" 9999%Z eq_refl) as [_ H9999].
  destruct (Hmissing (PyInt 9999) 9999%Z eq_refl) as [Hpage _];
    [done | done | done |].
  split; [unfold route; by rewrite H9999, Hpage|].
  split; [unfold route; by rewrite H9999, Hpage|].
  destruct (Hmatch "1" 1%Z eq_refl) as [_ H1].
  destruct (Hmark (PyInt 1) 1%Z unread eq_refl) as (_ & Hstatus & Hrows);
    [done | done | done | done | done | |].
  { intros id1 id2 n1 n2. simpl. rewrite !lookup_singleton_Some.
    by intros [<- _] [<- _]. }
  split; [unfold route; by rewrite H1|].
  unfold route. rewrite H1, Hrows.
  by rewrite lookup_insert_eq.
Defined.

(** The request [GET /mark-read/-1/] does not reach the view: it is
    answered by the resolver's 404, not by a structured 400 page. *)
Lemma mark_read_minus_one_is_not_400 :
  let world :=
    {| notifications := ∅; cache := {| counters := ∅; markers := ∅ |} |} in
  let request :=
    {| http_method := GET; REMOTE_ADDR := Some "203.0.113.9";
       now := 50%Z; entropy := 0%N |} in
  let response := (mark_read_route (λ h, h) (λ _, None) world request "-1").1 in
  status_code response = 404%Z
  ∧ status_code response ≠ 400%Z
  ∧ content response = ResolverNotFoundPage
  ∧ ¬ (∃ page_title page_message,
          content response = ErrorPage page_title page_message 400).
Proof.
  simpl. repeat split; try done. by intros (? & ? & ?).
Qed.

End TrackingProofs.

(* ===================================================================== *)
(** * Proofs: the synchronous fan-out *)

Module FanoutProofs.
Import Models Notifications Subscriptions Signals.
Import NotificationProofs.

(** *** The id sequence and row counts *)

Lemma foldr_max_bound (keys : list Z) k :
  k ∈ keys → (k ≤ foldr Z.max 0 keys)%Z.
Proof.
  induction keys as [|k' keys IH]; intros Hin; [by apply elem_of_nil in Hin|].
  apply elem_of_cons in Hin as [->|Hin]; simpl; [lia|].
  specialize (IH Hin). lia.
Qed.

Lemma next_id_fresh (table : NotificationTable) :
  table !! next_id table = None.
Proof.
  destruct (table !! next_id table) as [row|] eqn:Hrow; [|done].
  assert (Hin : next_id table ∈ (map_to_list table).*1).
  { apply list_elem_of_fmap. exists (next_id table, row).
    split; [done | by apply elem_of_map_to_list]. }
  apply foldr_max_bound in Hin. unfold next_id in Hin at 1. lia.
Qed.

Lemma rows_for_insert_fresh (table : NotificationTable) row_id n user_id id :
  table !! row_id = None →
  rows_for (<[row_id := n]> table) user_id id
  = ((if bool_decide (recipient n = user_id ∧ n_article n = Some id)
      then 1 else 0) + rows_for table user_id id)%nat.
Proof.
  intros Hfresh. unfold rows_for.
  rewrite (map_to_list_insert _ _ _ Hfresh), filter_cons. simpl.
  case_bool_decide; case_decide; simpl; try done; tauto.
Qed.

Lemma rows_for_update (table : NotificationTable) row_id n old user_id id :
  table !! row_id = Some old →
  recipient n = recipient old → n_article n = n_article old →
  rows_for (<[row_id := n]> table) user_id id = rows_for table user_id id.
Proof.
  intros Hold Hr Ha.
  rewrite <-(insert_delete_id table row_id old Hold) at 2.
  rewrite <-insert_delete_eq.
  rewrite !rows_for_insert_fresh by apply lookup_delete_eq.
  by rewrite Hr, Ha.
Qed.

(** *** Saving inside a run *)

Lemma save_new_spec entropy (table : NotificationTable) n :
  pk n = None → read_token n = "" →
  (∀ id row, table !! id = Some row →
             read_token row ≠ new_read_token entropy) →
  save entropy table n
  = (Returned,
     with_pk (with_read_token n (new_read_token entropy)) (next_id table),
     <[next_id table :=
         with_pk (with_read_token n (new_read_token entropy))
           (next_id table)]> table).
Proof.
  intros Hpk Htok Hfresh. unfold save. rewrite Htok. simpl. rewrite Hpk. simpl.
  rewrite (proj2 (token_taken_false _ _ _)); [done|].
  intros id' other Hrow _. by apply (Hfresh id').
Qed.

Lemma save_update_spec entropy (table : NotificationTable) n id stored :
  pk n = Some id → read_token n ≠ "" →
  table !! id = Some stored → read_token stored = read_token n →
  tokens_unique table →
  save entropy table n
  = (Returned, with_pk n id, <[id := with_pk n id]> table).
Proof.
  intros Hpk Htok Hrow Hsame Huniq. unfold save.
  apply str_truthy_true in Htok. rewrite Htok. simpl. rewrite Hpk. simpl.
  rewrite (proj2 (token_taken_false _ _ _)); [done|].
  intros id' other Hother Hne Heq. apply Hne.
  apply (Huniq id' id other stored); congruence.
Qed.

Lemma stored_like_with_message table n text :
  stored_like table n → stored_like table (with_message n text).
Proof. intros (id & stored & H). by exists id, stored. Qed.

Section Run.

Variable settings : MailSettings.
Variable smtp_accepts : EmailMessage → bool.
Variable entropy : nat → N.
Variable table0 : NotificationTable.
Variable article : ArticleObject.
Variable bound : nat.
Hypothesis Hfresh : fresh_draws entropy bound table0.

Abbreviation inv := (fanout_inv entropy table0 (article_id article)).

Lemma inv_ext made made' f :
  (∀ k, made k = made' k) → inv made f → inv made' f.
Proof.
  intros Heq (H1 & H2 & H3 & H4). repeat split; try done.
  intros k. by rewrite <-Heq.
Qed.

(** The invariant only looks at the table, the draw count and the
    notification held in the locals. *)
Lemma inv_same_table made f f' :
  table f' = table f → draws f' = draws f →
  (∀ loc, locals f' = Some loc → stored_like (table f) (notification loc)) →
  inv made f → inv made f'.
Proof.
  intros Ht Hd Hl (H1 & H2 & H3 & H4). unfold fanout_inv.
  rewrite Ht, Hd. repeat split; done.
Qed.

Lemma inv_next_token_free made f :
  inv made f → (draws f < bound)%nat →
  ∀ id row, table f !! id = Some row →
            read_token row ≠ new_read_token (entropy (draws f)).
Proof.
  intros (_ & Htokens & _) Hlt id row Hrow.
  destruct Hfresh as [Hold Hdistinct].
  destruct (Htokens id row Hrow) as [(old & Hin & <-)|(i & Hi & ->)].
  - by apply (Hold (draws f) Hlt id old).
  - apply Hdistinct; lia.
Qed.

(** Saving a new object adds one row, with the next draw as token. *)
Lemma frame_save_new made f n :
  inv made f → (draws f < bound)%nat →
  pk n = None → read_token n = "" →
  ∃ n' f',
    frame_save entropy f n = (Returned, n', f')
    ∧ inv (λ k, made k
                + if bool_decide (recipient n = k
                                  ∧ n_article n = Some (article_id article))
                  then 1 else 0)%nat f'
    ∧ draws f' = S (draws f)
    ∧ stored_like (table f') n'
    ∧ recipient n' = recipient n ∧ n_article n' = n_article n
    ∧ outbox f' = outbox f ∧ messages f' = messages f
    ∧ notif_objs f' = notif_objs f ∧ subscriber f' = subscriber f
    ∧ locals f' = locals f.
Proof.
  intros Hinv Hlt Hpk Htok.
  pose proof (inv_next_token_free made f Hinv Hlt) as Hfree.
  destruct Hinv as (Huniq & Htokens & Hcount & Hloc).
  unfold frame_save. rewrite (save_new_spec _ _ _ Hpk Htok Hfree).
  rewrite Htok. simpl. eexists _, _. split; [reflexivity|].
  pose proof (next_id_fresh (table f)) as Hnew.
  set (id := next_id (table f)) in *.
  set (n' := with_pk (with_read_token n (new_read_token (entropy (draws f)))) id).
  assert (Hlike : stored_like (<[id := n']> (table f)) n').
  { exists id, n'. rewrite lookup_insert_eq. repeat split; try done.
    apply str_truthy_true, new_read_token_truthy. }
  split; [|by repeat split].
  split; [|split; [|split]]; simpl.
  - (* tokens stay unique *)
    intros id1 id2 n1 n2. rewrite !lookup_insert.
    destruct (decide (id = id1)) as [E1|N1], (decide (id = id2)) as [E2|N2].
    + congruence.
    + intros [= <-] H2 Heq. exfalso. by apply (Hfree id2 n2 H2).
    + intros H1 [= <-] Heq. exfalso. by apply (Hfree id1 n1 H1).
    + apply Huniq.
  - intros row_id stored. rewrite lookup_insert.
    destruct (decide (id = row_id)) as [E|Hne].
    + intros [= <-]. right. exists (draws f). split; [lia|done].
    + intros Hrow. destruct (Htokens row_id stored Hrow)
        as [?|(i & Hi & ?)]; [by left|].
      right. exists i. split; [lia|done].
  - intros k. rewrite (rows_for_insert_fresh _ _ _ _ _ Hnew), Hcount.
    subst n'. simpl. lia.
  - intros loc Hl. destruct (Hloc loc Hl) as (id' & stored & Hp & Hrow & Hrest).
    exists id', stored. split; [done|]. split; [|done].
    rewrite lookup_insert_ne; [done|]. intros <-. congruence.
Qed.

(** Saving an object that is already stored rewrites its row. *)
Lemma frame_save_update made f n :
  inv made f → stored_like (table f) n →
  ∃ n' f',
    frame_save entropy f n = (Returned, n', f')
    ∧ inv made f'
    ∧ draws f' = draws f
    ∧ stored_like (table f') n'
    ∧ outbox f' = outbox f ∧ messages f' = messages f
    ∧ notif_objs f' = notif_objs f ∧ subscriber f' = subscriber f
    ∧ locals f' = locals f.
Proof.
  intros (Huniq & Htokens & Hcount & Hloc)
         (id & stored & Hpk & Hrow & Htok & Hne & Hrec & Hart).
  unfold frame_save.
  rewrite (save_update_spec _ _ _ _ _ Hpk Hne Hrow Htok Huniq).
  apply str_truthy_true in Hne as Htruthy. rewrite Htruthy.
  eexists _, _. split; [reflexivity|].
  assert (Hkeep : ∀ m, stored_like (table f) m →
                       stored_like (<[id := with_pk n id]> (table f)) m).
  { intros m (id' & stored' & Hp' & Hrow' & Hrest).
    destruct (decide (id = id')) as [<-|Hdiff].
    - exists id, (with_pk n id). rewrite lookup_insert_eq.
      assert (stored' = stored) as -> by congruence.
      destruct Hrest as (? & ? & ? & ?).
      repeat split; simpl; try done; congruence.
    - exists id', stored'. by rewrite lookup_insert_ne. }
  split; [|split; [done|]]; [|split; [|by repeat split]].
  - split; [|split; [|split]]; simpl.
    + intros id1 id2 n1 n2. rewrite !lookup_insert.
      destruct (decide (id = id1)) as [E1|N1], (decide (id = id2)) as [E2|N2].
      * congruence.
      * intros [= <-] H2 Heq. simpl in Heq. subst id1.
        apply (Huniq id id2 stored n2); congruence.
      * intros H1 [= <-] Heq. simpl in Heq. subst id2.
        apply (Huniq id1 id n1 stored); congruence.
      * apply Huniq.
    + intros row_id stored'. rewrite lookup_insert.
      destruct (decide (id = row_id)) as [<-|Hdiff].
      * intros [= <-]. simpl. rewrite <-Htok. by apply (Htokens id).
      * apply Htokens.
    + intros k. rewrite (rows_for_update _ _ _ stored); try done.
    + intros loc Hl. by apply Hkeep, Hloc.
  - exists id, (with_pk n id). simpl. rewrite lookup_insert_eq.
    by repeat split.
Qed.

Lemma inv_bind_subscriber made f u :
  inv made f → inv made (bind_subscriber f u).
Proof.
  intros Hinv. apply (inv_same_table made f); try done.
  by destruct Hinv as (_ & _ & _ & Hloc).
Qed.

Lemma made_step made u (creates : bool) k :
  (made k
   + if bool_decide (user_pk u = k
                     ∧ Some (article_id article) = Some (article_id article))
     then (if creates then 1 else 0) else 0)%nat
  = (made k + if bool_decide (user_pk u = k) && creates then 1 else 0)%nat.
Proof.
  repeat case_bool_decide; destruct creates; simpl; try done; tauto.
Qed.

(** One pass through the body of the publisher loop: it returns, adds
    one row for a subscriber with an address and none otherwise. *)
Lemma publisher_iteration_inv made u f :
  inv made f → (draws f < bound)%nat →
  ∃ f',
    publisher_iteration settings smtp_accepts entropy article u f
    = (Returned, f')
    ∧ inv (λ k, made k
                + if bool_decide (user_pk u = k) && has_email u
                  then 1 else 0)%nat f'
    ∧ (draws f' ≤ S (draws f))%nat.
Proof.
  intros Hinv Hlt. unfold publisher_iteration.
  destruct (has_email u) eqn:Hemail; simpl.
  - set (fresh := new_notification (user_pk u) (Some (article_id article))
                    _ "" "publisher").
    destruct (frame_save_new made (bind_subscriber f u) fresh
                (inv_bind_subscriber _ _ _ Hinv) Hlt eq_refl eq_refl)
      as (n1 & f1 & -> & Hinv1 & Hd1 & Hlike1 & _).
    unfold urls_for. cbv zeta beta iota.
    match goal with
    | |- context [frame_save entropy f1 (with_message n1 ?text)] =>
        destruct (frame_save_update _ f1 (with_message n1 text) Hinv1
                    (stored_like_with_message _ _ _ Hlike1))
          as (n2 & f2 & -> & Hinv2 & Hd2 & Hlike2 & _)
    end.
    eexists. split; [reflexivity|]. split; [|simpl in *; lia].
    eapply inv_same_table; [| | |eapply inv_ext; [|exact Hinv2]]; try done.
    + by intros loc [= <-].
    + intros k. simpl. rewrite andb_true_r.
      repeat case_bool_decide; try done; tauto.
  - eexists. split; [reflexivity|]. split; [|simpl; lia].
    eapply inv_ext; [|by apply inv_bind_subscriber].
    intros k. rewrite andb_false_r. simpl. lia.
Qed.

(** One pass through the body of the journalist loop: it returns, and
    adds one row for a subscriber with an address who is not among the
    publisher's subscribers. *)
Lemma journalist_iteration_inv publisher_result made u f :
  inv made f → (draws f < bound)%nat →
  ∃ f',
    journalist_iteration settings entropy article publisher_result u f
    = (Returned, f')
    ∧ inv (λ k, made k
                + if bool_decide (user_pk u = k)
                     && (has_email u
                         && negb (queryset_contains publisher_result u))
                  then 1 else 0)%nat f'
    ∧ (draws f' ≤ S (draws f))%nat.
Proof.
  intros Hinv Hlt. unfold journalist_iteration.
  destruct (has_email u) eqn:Hemail; simpl.
  - destruct (queryset_contains publisher_result u) eqn:Hpub; simpl.
    + eexists. split; [reflexivity|]. split; [|simpl; lia].
      eapply inv_ext; [|by apply inv_bind_subscriber].
      intros k. rewrite andb_false_r. simpl. lia.
    + set (fresh := new_notification (user_pk u) (Some (article_id article))
                      _ "" "journalist").
      destruct (frame_save_new made (bind_subscriber f u) fresh
                  (inv_bind_subscriber _ _ _ Hinv) Hlt eq_refl eq_refl)
        as (n1 & f1 & -> & Hinv1 & Hd1 & Hlike1 & _).
      unfold urls_for. cbv zeta beta iota.
      eexists. split; [reflexivity|]. split; [|simpl in *; lia].
      eapply inv_same_table; [| | |eapply inv_ext; [|exact Hinv1]]; try done.
      * by intros loc [= <-].
      * intros k. simpl. rewrite andb_true_r.
        repeat case_bool_decide; try done; tauto.
  - eexists. split; [reflexivity|]. split; [|simpl; lia].
    eapply inv_ext; [|by apply inv_bind_subscriber].
    intros k. rewrite andb_false_r. simpl. lia.
Qed.

(** A loop whose body keeps the invariant keeps it, and adds up the
    rows its iterations made. *)
Lemma for_each_inv (body : CustomUser → Frame → Raised * Frame)
    (creates : CustomUser → bool) :
  (∀ made u f,
      inv made f → (draws f < bound)%nat →
      ∃ f', body u f = (Returned, f')
            ∧ inv (λ k, made k
                        + if bool_decide (user_pk u = k) && creates u
                          then 1 else 0)%nat f'
            ∧ (draws f' ≤ S (draws f))%nat) →
  ∀ queryset made f,
    inv made f → (draws f + length queryset ≤ bound)%nat →
    ∃ f', for_each body queryset f = (Returned, f')
          ∧ inv (λ k, made k + made_by creates queryset k)%nat f'
          ∧ (draws f' ≤ draws f + length queryset)%nat.
Proof.
  intros Hbody queryset.
  induction queryset as [|u rest IH]; intros made f Hinv Hroom; simpl.
  - eexists. split; [reflexivity|]. split; [|lia].
    eapply inv_ext; [|exact Hinv]. intros k. unfold made_by. simpl. lia.
  - simpl in Hroom.
    destruct (Hbody made u f Hinv ltac:(lia)) as (f1 & -> & Hinv1 & Hd1).
    destruct (IH _ f1 Hinv1 ltac:(lia)) as (f2 & -> & Hinv2 & Hd2).
    eexists. split; [reflexivity|]. split; [|lia].
    eapply inv_ext; [|exact Hinv2]. intros k. unfold made_by.
    rewrite filter_cons.
    destruct (creates u); repeat case_bool_decide; case_decide;
      simpl; try lia; tauto.
Qed.

(** The statements after the loops leave the row counts alone and never
    fail on the unique constraint. *)
Lemma after_loops_inv made f :
  inv made f →
  ∃ result f',
    after_loops settings smtp_accepts entropy article f = (result, f')
    ∧ result ≠ Raise IntegrityError
    ∧ inv made f'.
Proof.
  intros Hinv. unfold after_loops.
  destruct (locals f) as [loc|] eqn:Hloc; [|by eexists _, _].
  destruct (subscriber f) as [u|]; [|by eexists _, _].
  assert (Hlike : stored_like (table f) (notification loc)).
  { destruct Hinv as (_ & _ & _ & H). by apply H. }
  match goal with
  | |- context [frame_save entropy f (with_message _ ?text)] =>
      destruct (frame_save_update _ f (with_message (notification loc) text)
                  Hinv (stored_like_with_message _ _ _ Hlike))
        as (n2 & f2 & -> & Hinv2 & Hd2 & Hlike2 & _ & _ & _ & _ & Hl2)
  end.
  eexists _, _. split; [reflexivity|]. split; [done|].
  eapply inv_same_table; [| | |exact Hinv2]; try done.
  simpl. intros loc' Hloc'. destruct Hinv2 as (_ & _ & _ & H). by apply H.
Qed.

End Run.

(** *** Subscriber querysets *)

Lemma pk_injective (l : list CustomUser) x y :
  NoDup (user_pk <$> l) → x ∈ l → y ∈ l → user_pk x = user_pk y → x = y.
Proof.
  induction l as [|v l IH]; intros Hnd Hx Hy Heq;
    [by apply elem_of_nil in Hx|].
  rewrite fmap_cons in Hnd. apply NoDup_cons in Hnd as [Hv Hnd].
  apply elem_of_cons in Hx as [->|Hx], Hy as [->|Hy]; try done.
  - exfalso. apply Hv. rewrite Heq. by apply list_elem_of_fmap_2.
  - exfalso. apply Hv. rewrite <-Heq. by apply list_elem_of_fmap_2.
  - by apply IH.
Qed.

Lemma made_by_absent creates (l : list CustomUser) k :
  k ∉ user_pk <$> l → made_by creates l k = 0%nat.
Proof.
  intros Hk. unfold made_by.
  assert (filter (λ v, user_pk v = k ∧ creates v = true) l = []) as ->;
    [|done].
  apply elem_of_nil_inv. intros v Hin.
  apply list_elem_of_filter in Hin as [[<- _] Hin].
  apply Hk. by apply list_elem_of_fmap_2.
Qed.

Lemma made_by_member creates (l : list CustomUser) u :
  NoDup (user_pk <$> l) → u ∈ l →
  made_by creates l (user_pk u) = if creates u then 1%nat else 0%nat.
Proof.
  induction l as [|v l IH]; intros Hnd Hu; [by apply elem_of_nil in Hu|].
  rewrite fmap_cons in Hnd. apply NoDup_cons in Hnd as [Hv Hnd].
  assert (Hcons : ∀ k,
    made_by creates (v :: l) k
    = ((if bool_decide (user_pk v = k) && creates v then 1 else 0)
       + made_by creates l k)%nat).
  { intros k. unfold made_by. rewrite filter_cons.
    destruct (decide (user_pk v = k ∧ creates v = true)) as [[Heq Hc]|Hno].
    - by rewrite bool_decide_eq_true_2, Hc.
    - destruct (creates v) eqn:Hc; [|by rewrite andb_false_r].
      rewrite bool_decide_eq_false_2; [done | naive_solver]. }
  rewrite Hcons. apply elem_of_cons in Hu as [->|Hu].
  - rewrite (made_by_absent _ _ _ Hv), bool_decide_eq_true_2 by done.
    destruct (creates v); simpl; lia.
  - rewrite (IH Hnd Hu), bool_decide_eq_false_2; [done|].
    intros Heq. apply Hv. rewrite Heq. by apply list_elem_of_fmap_2.
Qed.

Lemma filter_users_NoDup (P : CustomUser → Prop) `{!∀ u, Decision (P u)}
    (l : list CustomUser) :
  NoDup (user_pk <$> l) → NoDup (user_pk <$> filter P l).
Proof.
  intros Hnd. eapply sublist_NoDup; [exact Hnd|].
  apply fmap_sublist, sublist_filter.
Qed.

Lemma queryset_contains_true (l : list CustomUser) all u :
  NoDup (user_pk <$> all) → l ⊆ all → u ∈ all →
  queryset_contains l u = true ↔ u ∈ l.
Proof.
  intros Hnd Hsub Hu. unfold queryset_contains.
  rewrite bool_decide_eq_true, list_elem_of_fmap. split.
  - intros (v & Heq & Hv).
    by rewrite (pk_injective all u v Hnd Hu (Hsub v Hv) Heq).
  - intros Hin. by exists u.
Qed.

Lemma subscribers_in_users store article u :
  let result := get_subscribers_by_type store article in
  (u ∈ by_publisher result → u ∈ users store)
  ∧ (u ∈ by_journalist result → u ∈ users store).
Proof.
  simpl. split.
  - destruct (publisher article) as [p|]; [|by intros ?%elem_of_nil].
    unfold publisher_subscribers. by intros [_ ?]%list_elem_of_filter.
  - unfold journalist_subscribers. by intros [_ ?]%list_elem_of_filter.
Qed.

Lemma subscribers_NoDup store article :
  NoDup (user_pk <$> users store) →
  let result := get_subscribers_by_type store article in
  NoDup (user_pk <$> by_publisher result)
  ∧ NoDup (user_pk <$> by_journalist result).
Proof.
  intros Hnd. simpl. split.
  - destruct (publisher article) as [p|]; [|constructor].
    by apply filter_users_NoDup.
  - by apply filter_users_NoDup.
Qed.

(** The combined list holds each subscriber of either kind, once. *)
Lemma all_subscribers_spec store article :
  NoDup (user_pk <$> users store) →
  let result := get_subscribers_by_type store article in
  NoDup (user_pk <$> all_subscribers result)
  ∧ ∀ u, u ∈ all_subscribers result
         ↔ u ∈ by_publisher result ∨ u ∈ by_journalist result.
Proof.
  intros Hnd result.
  destruct (subscribers_NoDup store article Hnd) as [Hpub Hjour].
  fold result in Hpub, Hjour.
  assert (Hin : ∀ u, u ∈ by_publisher result → u ∈ users store)
    by (intros u; apply (subscribers_in_users store article u)).
  assert (Hin' : ∀ u, u ∈ by_journalist result → u ∈ users store)
    by (intros u; apply (subscribers_in_users store article u)).
  change (all_subscribers result)
    with (set_union (by_publisher result) (by_journalist result)).
  unfold set_union. split.
  - rewrite fmap_app. apply NoDup_app. split; [done|]. split.
    + intros k Hk Hk'.
      apply list_elem_of_fmap in Hk' as (v & -> & Hv).
      apply list_elem_of_filter in Hv as [Hnot Hv].
      unfold queryset_contains in Hnot.
      by apply bool_decide_eq_false in Hnot.
    + by apply filter_users_NoDup.
  - intros u. rewrite elem_of_app, list_elem_of_filter. split.
    + intros [?|[_ ?]]; auto.
    + intros [?|Hj]; [by left|].
      destruct (queryset_contains (by_publisher result) u) eqn:Hc.
      * left.
        by apply (queryset_contains_true _ (users store) u Hnd Hin (Hin' u Hj)).
      * right. done.
Qed.

(** C3 (as the code has it).  The combined audience of an article holds
    every subscriber of its publisher or of its author exactly once, also
    one who subscribes to both.  When the drawn tokens are new, the
    synchronous fan-out never fails on the token constraint and, however
    it ends, it has added exactly one notification row about the article
    for each audience member who has a non-empty e-mail address and none
    for a member without one. *)
Theorem fanout_one_notification_per_recipient
    (settings : MailSettings) (smtp_accepts : EmailMessage → bool)
    (entropy : nat → N) (store : Store) (table : NotificationTable)
    (article : ArticleObject) :
  NoDup (user_pk <$> users store) →
  tokens_unique table →
  let audience := get_subscribers_by_type store (row article) in
  fresh_draws entropy
    (length (by_publisher audience) + length (by_journalist audience))
    table →
  let result :=
    _send_article_emails_sync settings smtp_accepts entropy store table
      article in
  NoDup (all_subscribers audience)
  ∧ NoDup (user_pk <$> all_subscribers audience)
  ∧ (∀ u, u ∈ all_subscribers audience
          ↔ u ∈ by_publisher audience ∨ u ∈ by_journalist audience)
  ∧ ended result ≠ Raise IntegrityError
  ∧ (∀ u, u ∈ all_subscribers audience →
       notifications_for (final_table result) u (article_id article)
       = (notifications_for table u (article_id article)
          + if has_email u then 1 else 0)%nat).
Proof.
  intros Husers Huniq audience Hfresh result.
  destruct (all_subscribers_spec store (row article) Husers)
    as [Hnodup Hmember].
  fold audience in Hnodup, Hmember.
  destruct (subscribers_NoDup store (row article) Husers) as [Hpub Hjour].
  fold audience in Hpub, Hjour.
  split; [by eapply NoDup_fmap_1|]. split; [done|]. split; [done|].
  subst result. unfold _send_article_emails_sync. fold audience.
  destruct (all_subscribers audience) as [|first others] eqn:Hall.
  { simpl. split; [done|]. intros u Hu. by apply elem_of_nil in Hu. }
  rewrite <-Hall in *. clear first others Hall.
  set (start := {| table := table; outbox := []; draws := 0; messages := [];
                   notif_objs := []; subscriber := None; locals := None |}).
  assert (Hstart : fanout_inv entropy table (article_id article) (λ _, 0%nat)
                     start).
  { split; [done|]. split; [|split].
    - intros row_id stored Hrow. left. by exists stored.
    - intros k. simpl. lia.
    - by intros loc. }
  destruct (for_each_inv entropy table article _
              (publisher_iteration settings smtp_accepts entropy article)
              has_email
              (publisher_iteration_inv settings smtp_accepts entropy table
                 article _ Hfresh)
              (by_publisher audience) _ start Hstart)
    as (f1 & -> & Hinv1 & Hd1); [simpl; lia|].
  destruct (for_each_inv entropy table article _
              (journalist_iteration settings entropy article
                 (by_publisher audience))
              (λ u, has_email u
                    && negb (queryset_contains (by_publisher audience) u))
              (journalist_iteration_inv settings entropy table article _
                 Hfresh (by_publisher audience))
              (by_journalist audience) _ f1 Hinv1)
    as (f2 & -> & Hinv2 & Hd2); [simpl in *; lia|].
  destruct (after_loops_inv settings smtp_accepts entropy table article
              _ f2 Hinv2) as (ending & f3 & -> & Hending & Hinv3).
  simpl. split; [done|].
  intros u Hu. destruct Hinv3 as (_ & _ & Hcount & _).
  change (rows_for (Signals.table f3) (user_pk u) (article_id article)
          = (rows_for table (user_pk u) (article_id article)
             + if has_email u then 1 else 0)%nat).
  rewrite Hcount. f_equal. rewrite Nat.add_0_l.
  assert (Hin_users : ∀ v, v ∈ by_publisher audience ∨ v ∈ by_journalist audience
                           → v ∈ users store).
  { intros v Hv.
    destruct (subscribers_in_users store (row article) v) as [H1 H2].
    destruct Hv; auto. }
  assert (Hu_users : u ∈ users store) by by apply Hin_users, Hmember.
  assert (Hpub_users : by_publisher audience ⊆ users store).
  { intros v Hv. apply Hin_users. by left. }
  assert (Hin_pub : ∀ l, l ⊆ users store →
            queryset_contains l u = true ↔ u ∈ l).
  { intros l Hl. by apply (queryset_contains_true l (users store)). }
  assert (Hout : ∀ l, queryset_contains l u = false → user_pk u ∉ user_pk <$> l).
  { intros l Hl. unfold queryset_contains in Hl.
    by apply bool_decide_eq_false in Hl. }
  assert (Hjour_users : by_journalist audience ⊆ users store).
  { intros v Hv. apply Hin_users. by right. }
  destruct (queryset_contains (by_publisher audience) u) eqn:Hc.
  - apply (Hin_pub _ Hpub_users) in Hc as Hp.
    rewrite (made_by_member _ _ _ Hpub Hp).
    destruct (queryset_contains (by_journalist audience) u) eqn:Hcj.
    + apply (Hin_pub _ Hjour_users) in Hcj as Hj.
      rewrite (made_by_member _ _ _ Hjour Hj). cbv beta.
      rewrite Hc, andb_false_r. lia.
    + rewrite (made_by_absent _ _ _ (Hout _ Hcj)). lia.
  - rewrite (made_by_absent _ _ _ (Hout _ Hc)).
    assert (Hj : u ∈ by_journalist audience).
    { apply Hmember in Hu as [Hp|?]; [|done].
      apply (Hin_pub _ Hpub_users) in Hp. congruence. }
    rewrite (made_by_member _ _ _ Hjour Hj). cbv beta.
    rewrite Hc, andb_true_r. done.
Qed.

Lemma fanout_one_notification_per_recipient_witness :
  let result := FanoutSample.run FanoutSample.both_store in
  ended result ≠ Raise IntegrityError
  ∧ notifications_for (final_table result) FanoutSample.una 5 = 1%nat
  ∧ notifications_for (final_table result) FanoutSample.vic 5 = 0%nat.
Proof.
  intros result.
  destruct (fanout_one_notification_per_recipient
              FanoutSample.mail_settings (λ _, true) (λ k, N.of_nat k)
              FanoutSample.both_store ∅ FanoutSample.story)
    as (_ & _ & Hmember & Hended & Hrows).
  - by apply (bool_decide_unpack _).
  - intros id1 id2 n1 n2 H. by rewrite lookup_empty in H.
  - replace (length _ + length _)%nat with 3%nat by (vm_compute; reflexivity).
    split.
    + intros i _ id stored H. by rewrite lookup_empty in H.
    + intros i j Hij Hj.
      assert (i = 0 ∧ j = 1 ∨ i = 0 ∧ j = 2 ∨ i = 1 ∧ j = 2)%nat
        as [[-> ->]|[[-> ->]|[-> ->]]] by lia;
        vm_compute; discriminate.
  - split; [exact Hended|]. split.
    + apply (Hrows FanoutSample.una). apply Hmember. left.
      vm_compute. apply list_elem_of_here.
    + apply (Hrows FanoutSample.vic). apply Hmember. left.
      vm_compute. apply list_elem_of_further, list_elem_of_here.
Defined.

(** Against C3 as stated: Una, who follows both the publisher and the
    author, is sent four e-mails about the article, not one; Vic, an
    audience member without an address, gets no notification row; and
    of two followers of the author only the last is sent anything. *)
Lemma fanout_is_not_one_email_each :
  let audience :=
    get_subscribers_by_type FanoutSample.both_store
      (row FanoutSample.story) in
  let result := FanoutSample.run FanoutSample.both_store in
  let followers := FanoutSample.run FanoutSample.followers_store in
  all_subscribers audience = [FanoutSample.una; FanoutSample.vic]
  ∧ ended result = Returned
  ∧ notifications_for (final_table result) FanoutSample.una 5 = 1%nat
  ∧ emails_to (sent result) "una@example.org" = 4%nat
  ∧ notifications_for (final_table result) FanoutSample.vic 5 = 0%nat
  ∧ ended followers = Returned
  ∧ notifications_for (final_table followers) FanoutSample.una 5 = 1%nat
  ∧ emails_to (sent followers) "una@example.org" = 0%nat
  ∧ emails_to (sent followers) "wes@example.org" = 2%nat
  ∧ ¬ (∀ u, u ∈ all_subscribers audience →
         notifications_for (final_table result) u 5 = 1%nat
         ∧ ∀ address, email u = Some address →
                      emails_to (sent result) address = 1%nat).
Proof.
  intros audience result followers.
  assert (Hall : all_subscribers audience
                 = [FanoutSample.una; FanoutSample.vic])
    by (vm_compute; reflexivity).
  assert (Hmails : emails_to (sent result) "una@example.org" = 4%nat)
    by (vm_compute; reflexivity).
  split; [exact Hall|].
  split; [vm_compute; reflexivity|].
  split; [vm_compute; reflexivity|].
  split; [exact Hmails|].
  split; [vm_compute; reflexivity|].
  split; [vm_compute; reflexivity|].
  split; [vm_compute; reflexivity|].
  split; [vm_compute; reflexivity|].
  split; [vm_compute; reflexivity|].
  intros Hclaim.
  destruct (Hclaim FanoutSample.una) as [_ Hone].
  { rewrite Hall. apply list_elem_of_here. }
  specialize (Hone "una@example.org" eq_refl).
  rewrite Hmails in Hone. discriminate Hone.
Qed.

End FanoutProofs.

(* ===================================================================== *)
(** * Further properties of the modelled code *)

Module EditorExtras.
Import Models Http EditorPermissions EditorViews Properties EditorAccess.
Import ApprovalProofs.

(** The table [approve_article] leaves behind, decorators included. *)
Lemma approve_article_table clock (db : ArticleTable) request id :
  articles (approve_article clock db request id)
  = match db !! id with
    | Some article =>
        if is_POST request && permitted request article
           && negb (is_approved article)
        then <[id := approve_fields (user request) (clock 0%nat)
                       (clock 1%nat) article]> db
        else db
    | None => db
    end.
Proof.
  unfold approve_article, article_approval_permission_required,
    require_POST, approve_article_body, is_POST, permitted.
  destruct (is_authenticated (user request)) eqn:Hauth; simpl.
  2:{ destruct (db !! id) as [a|]; [|done].
      unfold check_article_edit_permission. rewrite Hauth. simpl.
      by rewrite andb_false_r. }
  destruct (is_editor_or_in_editor_group (user request)) eqn:Hed; simpl.
  2:{ destruct (db !! id) as [a|]; [|done].
      destruct (permitted request a) eqn:Hp.
      - apply permitted_iff in Hp as [? _]. congruence.
      - unfold permitted in Hp. rewrite Hp. by rewrite andb_false_r. }
  destruct (db !! id) as [a|] eqn:Hrow.
  - destruct (check_article_edit_permission (user request) a)
      as [[] reason]; simpl;
      destruct (method request), (is_approved a);
      by case_bool_decide.
  - by destruct (method request); case_bool_decide.
Qed.

Lemma reject_article_table clock (db : ArticleTable) request id :
  articles (reject_article clock db request id)
  = match db !! id with
    | Some article =>
        if is_POST request && permitted request article
        then <[id := reject_fields (user request) (clock 0%nat) article]> db
        else db
    | None => db
    end.
Proof.
  unfold reject_article, article_approval_permission_required,
    require_POST, reject_article_body, is_POST, permitted.
  destruct (is_authenticated (user request)) eqn:Hauth; simpl.
  2:{ destruct (db !! id) as [a|]; [|done].
      unfold check_article_edit_permission. rewrite Hauth. simpl.
      by rewrite andb_false_r. }
  destruct (is_editor_or_in_editor_group (user request)) eqn:Hed; simpl.
  2:{ destruct (db !! id) as [a|]; [|done].
      destruct (permitted request a) eqn:Hp.
      - apply permitted_iff in Hp as [? _]. congruence.
      - unfold permitted in Hp. rewrite Hp. by rewrite andb_false_r. }
  destruct (db !! id) as [a|] eqn:Hrow.
  - destruct (check_article_edit_permission (user request) a)
      as [[] reason]; simpl;
      destruct (method request);
      by case_bool_decide.
  - by destruct (method request); case_bool_decide.
Qed.




(** X3.  A user who fails the editor test (an anonymous visitor
    included) changes nothing through any of the three writing editor
    views, with any method, form and article id: the table is returned as
    it was, and the answer is the redirect to the login page for an
    anonymous visitor and to the article list otherwise. *)
Theorem non_editor_changes_nothing
    (clock : nat → Time) (db : ArticleTable) (request : Request) (id : Z) :
  is_editor_or_in_editor_group (user request) = false →
  let refusal :=
    Redirect (if is_authenticated (user request) then "article_list"
              else "login") None in
  (articles (approve_article clock db request id) = db
   ∧ response (approve_article clock db request id) = refusal)
  ∧ (articles (reject_article clock db request id) = db
     ∧ response (reject_article clock db request id) = refusal)
  ∧ (articles (bulk_article_action clock db request) = db
     ∧ response (bulk_article_action clock db request) = refusal).
Proof.
  intros Hed refusal. subst refusal.
  unfold approve_article, reject_article, bulk_article_action,
    article_approval_permission_required, editor_required.
  rewrite Hed. by destruct (is_authenticated (user request)).
Qed.

Lemma non_editor_changes_nothing_witness :
  let reader :=
    {| user_pk := 4; username := "rae"; full_name := "Rae Reader";
       email := Some "rae@example.org"; role := "reader"; groups := [];
       has_perm_approve_article := false; is_staff := false;
       is_superuser := false |} in
  let story :=
    {| title := "T"; slug := "t"; summary := "S"; author := 3;
       publisher := None; status := "pending"; is_approved := false;
       approved_by := None; approved_at := None; published_at := None |} in
  let request :=
    {| user := LoggedIn reader; method := POST; post_next := None;
       post_action := Some "approve"; post_article_ids := [1%Z];
       post_rejection_reason := None |} in
  articles (approve_article (λ _, 100%Z) {[ 1%Z := story ]} request 1%Z)
  = {[ 1%Z := story ]}
  ∧ articles (bulk_article_action (λ _, 100%Z) {[ 1%Z := story ]} request)
    = {[ 1%Z := story ]}.
Proof.
  intros reader story request.
  destruct (non_editor_changes_nothing (λ _, 100%Z) {[ 1%Z := story ]}
              request 1%Z) as ([Ha _] & _ & [Hb _]); [reflexivity|].
  split; [exact Ha | exact Hb].
Defined.

(** X4.  [check_article_edit_permission] grants exactly the users who
    pass the editor test and are not the author, always with the reason
    "User has editor permissions"; its staff/admin branch is never taken,
    because staff and superusers already pass the editor test. *)
Theorem check_article_edit_permission_cases
    (user : RequestUser) (article : Article) :
  check_article_edit_permission user article
  = if negb (is_authenticated user) then (false, "User not authenticated")
    else if author_is article user then
      (false, "Authors cannot approve their own articles")
    else if is_editor_or_in_editor_group user then
      (true, "User has editor permissions")
    else (false, "User lacks editor permissions").
Proof.
  unfold check_article_edit_permission.
  destruct (negb (is_authenticated user)); [done|].
  destruct (author_is article user); [done|].
  destruct (is_editor_or_in_editor_group user) eqn:Hed; [done|].
  destruct (user_is_staff_or_superuser user) eqn:Hst; [|done].
  apply staff_is_editor in Hst. congruence.
Qed.

(** X5.  [editor_or_staff_required] is announced as more permissive than
    [editor_required], but its test accepts exactly the users the editor
    test accepts. *)
Theorem editor_or_staff_test_same_users (user : RequestUser) :
  editor_or_staff_test user = is_editor_or_in_editor_group user.
Proof.
  destruct user as [|u]; [done|].
  unfold editor_or_staff_test. cbn [is_authenticated andb].
  destruct (is_editor_or_in_editor_group (LoggedIn u)) eqn:Hed; [done|].
  simpl in *. repeat case_match; try done.
  by destruct (is_staff u), (is_superuser u).
Qed.



(** *** What the editor views never touch *)

Lemma same_content_refl article : same_content article article.
Proof. by repeat split. Qed.

Lemma same_content_trans a1 a2 a3 :
  same_content a1 a2 → same_content a2 a3 → same_content a1 a3.
Proof.
  intros (? & ? & ? & ? & ? & Hp1) (? & ? & ? & ? & ? & Hp2).
  repeat split; try congruence. intros t Ht. by apply Hp2, Hp1.
Qed.

Lemma approve_fields_same_content actor now1 now2 article :
  same_content article (approve_fields actor now1 now2 article).
Proof.
  repeat split; try done. simpl. intros t Ht. by rewrite Ht.
Qed.

Lemma reject_fields_same_content actor now1 article :
  same_content article (reject_fields actor now1 article).
Proof. by repeat split. Qed.

Lemma mark_pending_fields_same_content article :
  same_content article (mark_pending_fields article).
Proof. by repeat split. Qed.

Lemma table_extends_refl db : table_extends db db.
Proof.
  intros id. destruct (db !! id) as [a|] eqn:Hrow; [|done].
  exists a. split; [done | apply same_content_refl].
Qed.

Lemma table_extends_trans db1 db2 db3 :
  table_extends db1 db2 → table_extends db2 db3 → table_extends db1 db3.
Proof.
  intros H12 H23 id. specialize (H12 id). specialize (H23 id).
  destruct (db1 !! id) as [a1|].
  - destruct H12 as (a2 & Hrow2 & Hc12). rewrite Hrow2 in H23.
    destruct H23 as (a3 & Hrow3 & Hc23). exists a3.
    split; [done | by eapply same_content_trans].
  - by rewrite H12 in H23.
Qed.

Lemma table_extends_insert (db db' : ArticleTable) id article article' :
  table_extends db db' → db !! id = Some article →
  same_content article article' →
  table_extends db (<[id := article']> db').
Proof.
  intros Hext Hrow Hsame id'. destruct (decide (id' = id)) as [->|Hne].
  - rewrite Hrow, lookup_insert_eq. by exists article'.
  - rewrite lookup_insert_ne by done. apply Hext.
Qed.

Lemma bulk_article_step_extends clock request (db : ArticleTable) st id
    article :
  db !! id = Some article →
  table_extends db (bulk_db st) →
  table_extends db (bulk_db (bulk_article_step clock request st (id, article))).
Proof.
  intros Hrow Hext.
  destruct (bulk_article_step_spec clock request st id article)
    as (-> & _ & _).
  destruct (permitted request article && bulk_writes request article);
    [|done].
  apply (table_extends_insert _ _ _ article); [done|done|].
  unfold bulk_written. repeat case_match.
  - apply approve_fields_same_content.
  - apply reject_fields_same_content.
  - apply mark_pending_fields_same_content.
Qed.

Lemma foldl_bulk_extends clock request (db : ArticleTable) rows : ∀ st,
  (∀ id article, (id, article) ∈ rows → db !! id = Some article) →
  table_extends db (bulk_db st) →
  table_extends db
    (bulk_db (foldl (bulk_article_step clock request) st rows)).
Proof.
  induction rows as [|[id a] rows IH]; intros st Hrows Hext; [done|].
  cbn [foldl]. apply IH.
  - intros id' a' Hin. apply Hrows. by apply list_elem_of_further.
  - apply bulk_article_step_extends; [|done].
    apply Hrows, list_elem_of_here.
Qed.

Lemma editor_step_extends db db' :
  editor_step db db' → table_extends db db'.
Proof.
  intros [clock db0 request id|clock db0 request id|clock db0 request].
  - rewrite approve_article_table.
    destruct (db0 !! id) as [a|] eqn:Hrow; [|apply table_extends_refl].
    case_match; [|apply table_extends_refl].
    apply (table_extends_insert _ _ _ a);
      [apply table_extends_refl | done | apply approve_fields_same_content].
  - rewrite reject_article_table.
    destruct (db0 !! id) as [a|] eqn:Hrow; [|apply table_extends_refl].
    case_match; [|apply table_extends_refl].
    apply (table_extends_insert _ _ _ a);
      [apply table_extends_refl | done | apply reject_fields_same_content].
  - unfold bulk_article_action, editor_required, require_GET_or_POST,
      bulk_article_action_body.
    repeat case_match; simpl; try apply table_extends_refl.
    apply foldl_bulk_extends; [|apply table_extends_refl].
    intros id a Hin. by apply elem_of_filter_id_in in Hin as [_ ?].
Qed.

(** X6.  Through any sequence of requests to [approve_article],
    [reject_article] and [bulk_article_action], by any users and with any
    forms, no article is created or deleted, the title, slug, summary,
    author and publisher of every article stay as they were, and a
    publication time, once set, is never changed or cleared (so sending an
    article back to pending and approving it again keeps its first
    publication time). *)
Theorem editor_views_keep_content (db db' : ArticleTable) :
  rtc editor_step db db' →
  (∀ id, db !! id = None → db' !! id = None)
  ∧ (∀ id article, db !! id = Some article →
       ∃ article', db' !! id = Some article'
         ∧ title article' = title article
         ∧ slug article' = slug article
         ∧ summary article' = summary article
         ∧ author article' = author article
         ∧ publisher article' = publisher article
         ∧ ∀ t, published_at article = Some t → published_at article' = Some t).
Proof.
  intros Hsteps.
  assert (Hext : table_extends db db').
  { induction Hsteps as [db|db1 db2 db3 Hstep _ IH];
      [apply table_extends_refl|].
    eapply table_extends_trans; [by apply editor_step_extends | done]. }
  split.
  - intros id Hrow. specialize (Hext id). by rewrite Hrow in Hext.
  - intros id article Hrow. specialize (Hext id). by rewrite Hrow in Hext.
Qed.

Lemma editor_views_keep_content_witness :
  let editor :=
    {| user_pk := 7; username := "erin"; full_name := "Erin Editor";
       email := Some "erin@example.org"; role := "editor"; groups := [];
       has_perm_approve_article := false; is_staff := false;
       is_superuser := false |} in
  let story :=
    {| title := "T"; slug := "t"; summary := "S"; author := 3;
       publisher := None; status := "approved"; is_approved := true;
       approved_by := Some 9%Z; approved_at := Some 50%Z;
       published_at := Some 60%Z |} in
  let back :=
    {| user := LoggedIn editor; method := POST; post_next := None;
       post_action := Some "mark_pending"; post_article_ids := [1%Z];
       post_rejection_reason := None |} in
  let again :=
    {| user := LoggedIn editor; method := POST; post_next := None;
       post_action := None; post_article_ids := [];
       post_rejection_reason := None |} in
  let db : ArticleTable := {[ 1%Z := story ]} in
  let db' :=
    articles
      (approve_article (λ _, 200%Z)
         (articles (bulk_article_action (λ _, 100%Z) db back)) again 1%Z) in
  ∃ article', db' !! 1%Z = Some article'
    ∧ published_at article' = Some 60%Z.
Proof.
  intros editor story back again db db'.
  assert (Hsteps : rtc editor_step db db').
  { eapply rtc_l; [apply (step_bulk (λ _, 100%Z) db back)|].
    eapply rtc_l; [apply (step_approve (λ _, 200%Z) _ again 1%Z)|].
    apply rtc_refl. }
  destruct (editor_views_keep_content db db' Hsteps) as [_ Hkept].
  destruct (Hkept 1%Z story (lookup_singleton_eq _ _))
    as (article' & Hrow & _ & _ & _ & _ & _ & Hpublished).
  exists article'. split; [exact Hrow | by apply Hpublished].
Defined.

(** *** The bulk view, once more *)











End EditorExtras.

Module TrackingExtras.
Import Http Notifications EmailTracking TrackingRoutes.
Import NotificationProofs TrackingProofs.

(** [Notification.objects.get(read_token=..)] finds a row exactly when
    the row is the only one holding the token. *)
Lemma get_by_read_token_found (table : NotificationTable) token id row :
  get_by_read_token table token = Found id row ↔
  table !! id = Some row ∧ read_token row = token
  ∧ ∀ id' other, table !! id' = Some other → id' ≠ id →
                 read_token other ≠ token.
Proof.
  unfold get_by_read_token.
  set (P := λ entry : Z * Notification, read_token entry.2 = token).
  assert (Hnd : NoDup (filter P (map_to_list table))).
  { apply NoDup_filter, NoDup_map_to_list. }
  assert (Hin : ∀ id' other,
            (id', other) ∈ filter P (map_to_list table)
            ↔ table !! id' = Some other ∧ read_token other = token).
  { intros id' other.
    rewrite list_elem_of_filter, elem_of_map_to_list. unfold P. simpl.
    tauto. }
  destruct (filter P (map_to_list table)) as [|[id1 row1] [|[id2 row2] rest]].
  - split; [done|]. intros (Hrow & Htok & _).
    assert (Hmem : (id, row) ∈ @nil (Z * Notification)) by by apply Hin.
    by apply elem_of_nil in Hmem.
  - split.
    + intros [= -> ->].
      destruct (proj1 (Hin id row) (list_elem_of_here _ _)) as [Hrow Htok].
      split; [done|]. split; [done|].
      intros id' other Hother Hne Heq.
      assert (Hmem : (id', other) ∈ [(id, row)]) by by apply Hin.
      apply list_elem_of_singleton in Hmem. congruence.
    + intros (Hrow & Htok & _).
      assert (Hmem : (id, row) ∈ [(id1, row1)]) by by apply Hin.
      apply list_elem_of_singleton in Hmem. by injection Hmem as -> ->.
  - split; [done|]. intros (Hrow & Htok & Hfree). exfalso.
    destruct (proj1 (Hin id1 row1) (list_elem_of_here _ _)) as [Hrow1 Htok1].
    destruct (proj1 (Hin id2 row2)
                (list_elem_of_further _ _ _ (list_elem_of_here _ _)))
      as [Hrow2 Htok2].
    apply NoDup_cons in Hnd as [Hnotin _].
    destruct (decide (id1 = id)) as [->|Hne1];
      [|by apply (Hfree id1 row1)].
    destruct (decide (id2 = id)) as [->|Hne2];
      [|by apply (Hfree id2 row2)].
    apply Hnotin. rewrite Hrow1 in Hrow2. injection Hrow2 as ->.
    apply list_elem_of_here.
Qed.

(** X10.  A notification that [save] stored can be fetched back by its
    token: the saved object has a non-empty token and an id, and
    [Notification.objects.get(read_token=..)] on the new table returns
    exactly that row.  A first save takes an id that was unused and leaves
    every stored row in place. *)
Theorem saved_notification_found_by_token
    (entropy : N) (table : NotificationTable) (self : Notification) :
  (save entropy table self).1.1 = Returned →
  let saved := (save entropy table self).1.2 in
  let table1 := (save entropy table self).2 in
  read_token saved ≠ ""
  ∧ ∃ id, pk saved = Some id
      ∧ get_by_read_token table1 (read_token saved) = Found id saved
      ∧ (pk self = None →
           table !! id = None
           ∧ ∀ id' row, table !! id' = Some row → table1 !! id' = Some row).
Proof.
  intros Hreturned saved table1.
  assert (Htoken : read_token saved ≠ "").
  { subst saved. rewrite save_read_token.
    destruct (str_truthy (read_token self)) eqn:Htruthy.
    - by apply str_truthy_true.
    - apply str_truthy_true, new_read_token_truthy. }
  split; [done|].
  destruct (save_cases entropy table self)
    as [[Hraise _]|(id & _ & Hid & Hpk & Htable & Hfree)];
    [congruence|].
  fold saved in Hpk, Htable, Hfree. fold table1 in Htable.
  exists id. split; [done|]. split.
  - apply get_by_read_token_found. rewrite Htable.
    split; [apply lookup_insert_eq|]. split; [done|].
    intros id' other Hother Hne. rewrite lookup_insert_ne in Hother by done.
    by apply (Hfree id').
  - intros Hnew. rewrite Hnew in Hid. simpl in Hid. subst id.
    split; [apply FanoutProofs.next_id_fresh|].
    intros id' row Hrow. rewrite Htable, lookup_insert_ne; [done|].
    intros <-. by rewrite FanoutProofs.next_id_fresh in Hrow.
Qed.

Lemma saved_notification_found_by_token_witness :
  let fresh := new_notification 3 (Some 5%Z) "Subject" "" "publisher" in
  let saved := (save 0%N ∅ fresh).1.2 in
  get_by_read_token (save 0%N ∅ fresh).2 (read_token saved) = Found 1 saved.
Proof.
  intros fresh saved.
  destruct (saved_notification_found_by_token 0%N ∅ fresh)
    as (_ & id & Hpk & Hfound & _); [reflexivity|].
  fold saved in Hpk, Hfound.
  assert (Hid : id = 1%Z) by (vm_compute in Hpk; congruence).
  rewrite Hid in Hfound. exact Hfound.
Defined.

(** [mark_as_read] on the object loaded from an unread row whose
    non-empty token no other row holds. *)
Lemma mark_as_read_single now entropy (table : NotificationTable) id row :
  is_read row = false →
  read_token row ≠ "" →
  (∀ id' other, table !! id' = Some other → id' ≠ id →
                read_token other ≠ read_token row) →
  mark_as_read now entropy table (load id row)
  = (Returned, load id (with_read row now),
     <[id := load id (with_read row now)]> table).
Proof.
  intros Hunread Htoken Hfree.
  unfold mark_as_read, load. simpl. rewrite Hunread. simpl.
  unfold save. simpl.
  apply str_truthy_true in Htoken. rewrite Htoken. simpl.
  by rewrite (proj2 (token_taken_false _ _ _)).
Qed.

(** The table [track_email_open_body] leaves: the old one, or the old one
    with the token's unread row marked read at the time of the request. *)
Lemma track_body_table settings world request token :
  token ≠ "" →
  let after := (track_email_open_body settings world request token).2 in
  notifications after = notifications world
  ∨ ∃ id row,
      notifications world !! id = Some row
      ∧ read_token row = token ∧ is_read row = false
      ∧ notifications after
        = <[id := load id (with_read row (now request))]>
            (notifications world).
Proof.
  intros Htoken. unfold track_email_open_body.
  destruct (_is_rate_limited (cache world) token request)
    as [limited cache1].
  destruct limited; [by left|].
  destruct (cache_get_marker cache1 (now request)
              (TRACKING_CACHE_PREFIX +:+ token)) as [[|c v]|];
    try by left.
  all: destruct (get_by_read_token (notifications world) token)
         as [|id row|] eqn:Hget; try by left.
  all: apply get_by_read_token_found in Hget as (Hrow & Htok & Hfree).
  all: cbn [load with_pk is_read].
  all: destruct (is_read row) eqn:Hread; [by left|]. all: simpl negb.
  all: cbv iota.
  all: rewrite <-Htok in Htoken, Hfree.
  all: fold (load id row).
  all: rewrite (mark_as_read_single _ _ _ _ _ Hread Htoken Hfree).
  all: right; by exists id, row.
Qed.

(** X11.  The first open of a mail.  A GET for the token of an unread
    notification, from a client below the rate limit and with no marker
    cached for the token, stores the notification as read with the time
    of the request as [email_opened_at], changes no other row, and caches
    the marker "tracked" under the token's key for
    [EMAIL_TRACKING_PIXEL_CACHE_SECONDS] (86400 when the setting is
    missing). *)
Theorem first_open_marks_read
    (patch : list (string * string) → list (string * string))
    (settings : TrackingSettings) (world : World)
    (request : TrackingRequest) (token : string) (id : Z)
    (row : Notification) :
  http_method request = GET →
  (cache_get_counter (cache world) (now request)
     (rate_limit_key token request) 0 < 10)%Z →
  cache_get_marker (cache world) (now request)
    (TRACKING_CACHE_PREFIX +:+ token) = None →
  tokens_unique (notifications world) →
  notifications world !! id = Some row →
  read_token row = token → token ≠ "" →
  is_read row = false →
  let answer := track_email_open patch settings world request token in
  answer.1 = add_never_cache_headers patch _return_tracking_pixel
  ∧ notifications answer.2
    = <[id := {| pk := Some id; recipient := recipient row;
                 n_article := n_article row; n_title := n_title row;
                 message := message row;
                 notification_type := notification_type row;
                 is_read := true; email_opened_at := Some (now request);
                 read_token := token |}]> (notifications world)
  ∧ markers (cache answer.2) !! (TRACKING_CACHE_PREFIX +:+ token)
    = Some ("tracked",
            (now request + default 86400 settings * SECOND)%Z).
Proof.
  intros Hget Hcount Hmarker Huniq Hrow Htok Htoken Hunread answer.
  subst answer. rewrite (track_email_open_GET _ _ _ _ _ Hget).
  split; [done|]. cbn [fst snd].
  unfold track_email_open_body, _is_rate_limited.
  fold (rate_limit_key token request).
  rewrite bool_decide_eq_false_2 by lia.
  unfold cache_get_marker, cache_set_counter. cbn [markers].
  unfold cache_get_marker in Hmarker. rewrite Hmarker.
  assert (Hfree : ∀ id' other,
            notifications world !! id' = Some other → id' ≠ id →
            read_token other ≠ read_token row).
  { intros id' other Hother Hne Heq. apply Hne.
    by apply (Huniq id' id other row). }
  rewrite (proj2 (get_by_read_token_found _ token id row));
    [|by rewrite <-Htok].
  cbn [load with_pk is_read]. rewrite Hunread. simpl negb. cbv iota.
  fold (load id row).
  rewrite <-Htok in Htoken.
  rewrite (mark_as_read_single _ _ _ _ _ Hunread Htoken Hfree).
  cbn [snd notifications cache]. unfold cache_set_marker. cbn [markers].
  rewrite lookup_insert_eq. by rewrite <-Htok.
Qed.

Lemma first_open_marks_read_witness :
  let unread :=
    {| pk := Some 1%Z; recipient := 3; n_article := Some 5%Z;
       n_title := "T"; message := "M"; notification_type := "publisher";
       is_read := false; email_opened_at := None;
       read_token := "00000000000040008000000000000000" |} in
  let world :=
    {| notifications := {[ 1%Z := unread ]};
       cache := {| counters := ∅; markers := ∅ |} |} in
  let request :=
    {| http_method := GET; REMOTE_ADDR := Some "203.0.113.9";
       now := 50%Z; entropy := 0%N |} in
  let answer :=
    track_email_open (λ h, h) None world request
      "00000000000040008000000000000000" in
  notifications answer.2 !! 1%Z = Some (with_read unread 50%Z).
Proof.
  intros unread world request answer.
  destruct (first_open_marks_read (λ h, h) None world request
              "00000000000040008000000000000000" 1%Z unread)
    as (_ & Htable & _);
    [reflexivity | vm_compute; reflexivity | reflexivity | |
     apply lookup_singleton_eq | reflexivity | discriminate | reflexivity |].
  - intros id1 id2 n1 n2 H1 H2 _.
    change (({[ 1%Z := unread ]} : NotificationTable) !! id1 = Some n1) in H1.
    change (({[ 1%Z := unread ]} : NotificationTable) !! id2 = Some n2) in H2.
    apply lookup_singleton_Some in H1 as [<- _].
    by apply lookup_singleton_Some in H2 as [<- _].
  - subst answer. rewrite Htable. apply lookup_insert_eq.
Defined.

(** X12.  What the tracking pixel can do to the notification table.  For
    every state, request and non-empty token, [track_email_open] creates
    and deletes no notification, leaves every read notification and every
    notification with another token exactly as stored, and the only
    change it can make is to store one unread notification holding the
    token as read at the time of the request; a request that is not a GET
    changes nothing at all. *)
Theorem track_email_open_frame
    (patch : list (string * string) → list (string * string))
    (settings : TrackingSettings) (world : World)
    (request : TrackingRequest) (token : string) :
  token ≠ "" →
  let after := (track_email_open patch settings world request token).2 in
  (http_method request ≠ GET → after = world)
  ∧ (∀ id, notifications world !! id = None →
           notifications after !! id = None)
  ∧ (∀ id row, notifications world !! id = Some row →
       notifications after !! id = Some row
       ∨ (read_token row = token ∧ is_read row = false
          ∧ notifications after !! id
            = Some (load id (with_read row (now request))))).
Proof.
  intros Htoken after.
  assert (Hafter : after = world
            ∨ after = (track_email_open_body settings world request token).2).
  { subst after.
    unfold track_email_open, csrf_exempt, require_GET, never_cache.
    destruct (http_method request); auto.
    by destruct (track_email_open_body settings world request token);
      right. }
  split.
  { intros Hmethod. subst after.
    unfold track_email_open, csrf_exempt, require_GET.
    by destruct (http_method request). }
  destruct Hafter as [->| ->]; [split; [done | by left]|].
  destruct (track_body_table settings world request token Htoken)
    as [->|(id0 & row0 & Hrow0 & Htok0 & Hread0 & ->)];
    [split; [done | by left]|].
  split.
  - intros id Hnone. rewrite lookup_insert_ne; [done|]. congruence.
  - intros id row Hrow. destruct (decide (id = id0)) as [Heq|Hne].
    + right. rewrite Heq in *. rewrite Hrow0 in Hrow.
      injection Hrow as <-. by rewrite lookup_insert_eq.
    + left. by rewrite lookup_insert_ne.
Qed.

Lemma track_email_open_frame_witness :
  let read_row :=
    {| pk := Some 1%Z; recipient := 3; n_article := Some 5%Z;
       n_title := "T"; message := "M"; notification_type := "publisher";
       is_read := true; email_opened_at := Some 10%Z;
       read_token := "00000000000040008000000000000000" |} in
  let world :=
    {| notifications := {[ 1%Z := read_row ]};
       cache := {| counters := ∅; markers := ∅ |} |} in
  let request :=
    {| http_method := POST; REMOTE_ADDR := Some "203.0.113.9";
       now := 50%Z; entropy := 0%N |} in
  (track_email_open (λ h, h) None world request
     "00000000000040008000000000000000").2 = world.
Proof.
  intros read_row world request.
  destruct (track_email_open_frame (λ h, h) None world request
              "00000000000040008000000000000000") as (Hmethod & _);
    [discriminate|].
  apply Hmethod. discriminate.
Defined.



(** *** The mark-read link *)

Lemma pretty_N_char_digit x :
  (x < 10)%N →
  is_digit (pretty_N_char x) = true
  ∧ (Z.of_nat (nat_of_ascii (pretty_N_char x)) - 48)%Z = Z.of_N x.
Proof.
  intros Hx.
  assert (x = 0 ∨ x = 1 ∨ x = 2 ∨ x = 3 ∨ x = 4 ∨ x = 5 ∨ x = 6
          ∨ x = 7 ∨ x = 8 ∨ x = 9)%N as Hcases by lia.
  repeat (destruct Hcases as [->|Hcases]; [by vm_compute|]).
  subst x. by vm_compute.
Qed.

(** The digits written in front of [s] are digits, and reading them back
    continues from the number they stand for. *)
Lemma pretty_N_go_decimal x : ∀ s,
  all_digits (pretty_N_go x s) = all_digits s
  ∧ decimal_value 0 (pretty_N_go x s) = decimal_value (Z.of_N x) s
  ∧ (str_truthy s = true → str_truthy (pretty_N_go x s) = true).
Proof.
  induction (N.lt_wf_0 x) as [x _ IH]. intros s.
  assert (x = 0 ∨ 0 < x)%N as [->|Hpos] by lia.
  { by rewrite pretty_N_go_0. }
  rewrite pretty_N_go_step by done.
  destruct (IH (x `div` 10)%N (N.div_lt x 10 Hpos eq_refl)
              (String (pretty_N_char (x `mod` 10)) s))
    as (Hdigits & Hvalue & Htruthy).
  destruct (pretty_N_char_digit (x `mod` 10)%N) as [Hd Hv].
  { by apply N.mod_lt. }
  split; [|split].
  - rewrite Hdigits. cbn [all_digits]. by rewrite Hd.
  - rewrite Hvalue. cbn [decimal_value]. rewrite Hv. f_equal.
    rewrite (N.div_mod x 10) at 3 by done. lia.
  - intros _. by apply Htruthy.
Qed.

(** X13.  The mark-read link of a notification leads back to it.  The
    link is built from [str(notification.pk)]; for every id that is not
    negative the route's [int] converter reads that text back as the same
    id, so the route calls [mark_notification_read] with it, and the text
    of a negative id matches no route. *)
Theorem mark_read_link_round_trip
    (patch : list (string * string) → list (string * string))
    (py_int : string → option Z)
    (world : World) (request : TrackingRequest) (id : Z) :
  int_converter (str_of_int id)
  = (if bool_decide (0 ≤ id)%Z then Some id else None)
  ∧ ((0 ≤ id)%Z →
     mark_read_route patch py_int world request (str_of_int id)
     = mark_notification_read patch py_int world request (PyInt id))
  ∧ ((id < 0)%Z →
     mark_read_route patch py_int world request (str_of_int id)
     = (RESOLVER_404, world)).
Proof.
  assert (Hconv : int_converter (str_of_int id)
                  = if bool_decide (0 ≤ id)%Z then Some id else None).
  { unfold int_converter, str_of_int, pretty, pretty_Z.
    destruct id as [|p|p].
    - done.
    - rewrite bool_decide_eq_true_2 by lia.
      unfold pretty, pretty_positive, pretty, pretty_N.
      rewrite decide_False by done.
      rewrite (pretty_N_go_step (N.pos p)) by lia.
      destruct (pretty_N_go_decimal (N.pos p `div` 10)%N
                  (String (pretty_N_char (N.pos p `mod` 10)) ""))
        as (Hdigits & Hvalue & Htruthy).
      destruct (pretty_N_char_digit (N.pos p `mod` 10)%N) as [Hd Hv].
      { by apply N.mod_lt. }
      rewrite (Htruthy eq_refl), Hdigits, Hvalue.
      cbn [all_digits decimal_value andb]. rewrite Hd, Hv. simpl andb.
      cbv iota. f_equal.
      change (Z.pos p) with (Z.of_N (N.pos p)).
      rewrite (N.div_mod (N.pos p) 10) at 3 by done. lia.
    - by rewrite bool_decide_eq_false_2 by lia. }
  split; [done|]. unfold mark_read_route. rewrite Hconv. split.
  - intros Hid. by rewrite bool_decide_eq_true_2.
  - intros Hid. by rewrite bool_decide_eq_false_2 by lia.
Qed.

(** *** The tracking link *)

Lemma string_of_list_ascii_snoc l c :
  String.string_of_list_ascii (l ++ [c])%list
  = String.string_of_list_ascii l +:+ String c "".
Proof. induction l as [|a l IH]; simpl; [done | by rewrite IH]. Qed.

Lemma hex_fixed_digits w : ∀ n,
  ∃ digits : list N,
    length digits = w
    ∧ hex_fixed w n = String.string_of_list_ascii (hex_digit <$> digits).
Proof.
  induction w as [|w IH]; intros n.
  { by exists []. }
  destruct (IH (n / 16)%N) as (digits & Hlen & Heq).
  exists (digits ++ [(n mod 16)%N])%list. split.
  - rewrite length_app. simpl. lia.
  - cbn [hex_fixed]. rewrite Heq, fmap_app. simpl.
    by rewrite string_of_list_ascii_snoc.
Qed.

Lemma remove_hyphen_hex d s :
  remove_char "-" (String (hex_digit d) s)
  = String (hex_digit d) (remove_char "-" s).
Proof.
  cbn [remove_char].
  by rewrite bool_decide_eq_false_2 by apply hex_digit_not_hyphen.
Qed.

Lemma remove_hyphen_hyphen s :
  remove_char "-" (String "-" s) = remove_char "-" s.
Proof. done. Qed.

Lemma new_read_token_hex entropy :
  new_read_token entropy = hex_fixed 32 (uuid4_int entropy).
Proof.
  unfold new_read_token, uuid_str.
  destruct (hex_fixed_digits 32 (uuid4_int entropy))
    as (digits & Hlen & ->).
  do 32 (destruct digits as [|? digits]; [done|]).
  destruct digits; [|done].
  cbv beta iota zeta delta
    [fmap list_fmap String.string_of_list_ascii String.substring
     String.append].
  repeat (rewrite remove_hyphen_hex || rewrite remove_hyphen_hyphen).
  reflexivity.
Qed.

Lemma hex_digit_not_slash d : hex_digit d ≠ "/"%char.
Proof. unfold hex_digit. repeat case_match; discriminate. Qed.

Lemma hex_digits_shape (digits : list N) :
  String.length (String.string_of_list_ascii (hex_digit <$> digits))
  = length digits
  ∧ no_slash (String.string_of_list_ascii (hex_digit <$> digits)) = true.
Proof.
  induction digits as [|d digits [IHlen IHslash]]; [done|].
  rewrite fmap_cons. cbn [String.string_of_list_ascii String.length no_slash
                          length].
  rewrite IHlen, IHslash.
  by rewrite bool_decide_eq_false_2 by apply hex_digit_not_slash.
Qed.

(** X14.  The token [save] generates is the UUID's 32 hexadecimal digits
    with the four hyphens of its text form removed: it has length 32,
    consists of the characters 0-9 and a-f only, and, having no slash,
    matches the [str] converter of the tracking route, so the tracking
    link built from it reaches [track_email_open] with the same token. *)
Theorem read_token_format
    (patch : list (string * string) → list (string * string))
    (settings : TrackingSettings) (world : World)
    (request : TrackingRequest) (entropy : N) :
  let token := new_read_token entropy in
  token = hex_fixed 32 (uuid4_int entropy)
  ∧ String.length token = 32%nat
  ∧ (∃ digits : list N,
       token = String.string_of_list_ascii (hex_digit <$> digits))
  ∧ track_email_route patch settings world request token
    = track_email_open patch settings world request token.
Proof.
  intros token. subst token. rewrite new_read_token_hex.
  destruct (hex_fixed_digits 32 (uuid4_int entropy))
    as (digits & Hlen & Heq).
  destruct (hex_digits_shape digits) as [Hlength Hslash].
  split; [done|]. rewrite Heq.
  split; [by rewrite Hlength|]. split; [by exists digits|].
  unfold track_email_route, str_converter. rewrite Hslash.
  assert (str_truthy (String.string_of_list_ascii (hex_digit <$> digits))
          = true) as ->; [|done].
  destruct digits; [done|]. done.
Qed.

(** *** What the mark-read page can do to the table *)

(** [mark_as_read] on the object loaded from row [id]: the table stays,
    or row [id] is replaced by a read row for the same recipient. *)
Lemma mark_as_read_loaded now entropy (table : NotificationTable) id row :
  let after := (mark_as_read now entropy table (load id row)).2 in
  after = table
  ∨ (is_read row = false
     ∧ ∃ row', after = <[id := row']> table
         ∧ is_read row' = true ∧ email_opened_at row' = Some now
         ∧ recipient row' = recipient row
         ∧ n_article row' = n_article row).
Proof.
  unfold mark_as_read. cbn [load with_pk is_read].
  destruct (is_read row) eqn:Hread; [by left|]. simpl negb. cbv iota.
  destruct (save_cases entropy table
              (with_read {| pk := Some id; recipient := recipient row;
                            n_article := n_article row;
                            n_title := n_title row; message := message row;
                            notification_type := notification_type row;
                            is_read := false;
                            email_opened_at := email_opened_at row;
                            read_token := read_token row |} now))
    as [[_ Hsame]|(id' & _ & Hid & _ & Htable & _)]; [by left|].
  right. split; [done|]. simpl in Hid. subst id'.
  eexists. split; [exact Htable|].
  destruct (save_keeps_read_state entropy table
              (with_read {| pk := Some id; recipient := recipient row;
                            n_article := n_article row;
                            n_title := n_title row; message := message row;
                            notification_type := notification_type row;
                            is_read := false;
                            email_opened_at := email_opened_at row;
                            read_token := read_token row |} now))
    as (H1 & H2 & H3 & H4).
  done.
Qed.

(** X15.  What [mark_notification_read] can do to the notification
    table.  For every state, request and argument, it creates and deletes
    no notification and leaves every row but the one named by the
    argument as stored; the named row is left as stored when it is
    already read, and otherwise is either left as stored or replaced by a
    read row of the same recipient and article, stamped with the time of
    the request.  The markers of the tracking pixel are never touched. *)
Theorem mark_notification_read_frame
    (patch : list (string * string) → list (string * string))
    (py_int : string → option Z)
    (world : World) (request : TrackingRequest) (value : PyValue) :
  let after := (mark_notification_read patch py_int world request value).2 in
  markers (cache after) = markers (cache world)
  ∧ (∀ id, notifications world !! id = None →
           notifications after !! id = None)
  ∧ (∀ id row, notifications world !! id = Some row →
       notifications after !! id = Some row
       ∨ (int_of py_int value = Some id ∧ is_read row = false
          ∧ ∃ row', notifications after !! id = Some row'
              ∧ is_read row' = true
              ∧ email_opened_at row' = Some (now request)
              ∧ recipient row' = recipient row
              ∧ n_article row' = n_article row)).
Proof.
  intros after.
  assert (Hcases :
    (after = world
     ∨ after = {| notifications := notifications world;
                  cache := cache_set_counter (cache world) (now request)
                    (RATE_LIMIT_PREFIX +:+ "mark_read:"
                       +:+ _get_client_ip request)
                    (cache_get_counter (cache world) (now request)
                       (RATE_LIMIT_PREFIX +:+ "mark_read:"
                          +:+ _get_client_ip request) 0 + 1) 60 |})
    ∨ ∃ n row,
        int_of py_int value = Some n
        ∧ notifications world !! n = Some row
        ∧ markers (cache after) = markers (cache world)
        ∧ notifications after
          = (mark_as_read (now request) (entropy request)
               (notifications world) (load n row)).2).
  { subst after.
    unfold mark_notification_read, csrf_exempt, require_GET, never_cache.
    destruct (http_method request); try by (left; left).
    unfold mark_notification_read_body.
    destruct (int_of py_int value) as [n|]; [|by left; left].
    case_bool_decide; [by left; left|].
    case_bool_decide; [by left; left|].
    destruct (notifications world !! n) as [row|] eqn:Hrow;
      [|by left; right].
    cbn [load with_pk is_read].
    destruct (is_read row) eqn:Hread; [by left; right|].
    simpl negb. cbv iota. right. exists n, row.
    fold (load n row).
    destruct (mark_as_read (now request) (entropy request)
                (notifications world) (load n row)) as [[[] obj] table];
      by cbn. }
  destruct Hcases as [[-> | ->]|(n & row0 & Hint & Hrow0 & Hmarkers & Htable)];
    [by repeat split; auto .. |].
  split; [done|]. rewrite Htable.
  destruct (mark_as_read_loaded (now request) (entropy request)
              (notifications world) n row0)
    as [->|(Hunread & row' & -> & Hr1 & Hr2 & Hr3 & Hr4)];
    [by split; auto|].
  split.
  - intros id Hnone. rewrite lookup_insert_ne; [done|]. congruence.
  - intros id row Hrow. destruct (decide (id = n)) as [Heq|Hne].
    + right. rewrite Heq in *. rewrite Hrow0 in Hrow. injection Hrow as <-.
      split; [done|]. split; [done|]. exists row'.
      by rewrite lookup_insert_eq.
    + left. by rewrite lookup_insert_ne.
Qed.

(** *** The limiter's minute restarts with every counted request *)

Lemma steady_invariant patch settings token client requests :
  let key := RATE_LIMIT_PREFIX +:+ token +:+ ":" +:+ default "unknown" client in
  ∀ world count,
    steady_stream client requests = true →
    (0 ≤ count ≤ 10)%Z →
    (∀ first, head requests = Some first →
       cache_get_counter (cache world) (now first) key 0 = count) →
    ∀ (i : nat) before response after request,
      serve_pixels patch settings world token requests !! i
      = Some (before, response, after) →
      requests !! i = Some request →
      ((count + Z.of_nat i < 10)%Z →
         counters (cache after) !! key
         = Some ((count + Z.of_nat i + 1)%Z,
                 (now request + 60 * SECOND)%Z))
      ∧ ((count + Z.of_nat i = 10)%Z → after = before).
Proof.
  intros key. induction requests as [|first rest IH];
    intros world count Hsteady Hrange Hcount i before response after request
      Hi Hreq.
  { done. }
  cbn [steady_stream] in Hsteady.
  apply andb_true_iff in Hsteady as [Hsteady Hrest].
  apply andb_true_iff in Hsteady as [Hsteady Hgap].
  apply andb_true_iff in Hsteady as [Hget Hclient].
  assert (Hget' : http_method first = GET) by by destruct (http_method first).
  apply bool_decide_eq_true in Hclient.
  assert (Hkey : rate_limit_key token first = key).
  { unfold rate_limit_key, _get_client_ip. by rewrite Hclient. }
  specialize (Hcount first eq_refl).
  cbn [serve_pixels] in Hi.
  rewrite (track_email_open_GET patch settings world first token Hget') in Hi.
  cbn [fst snd] in Hi.
  destruct (decide (count < 10)%Z) as [Hlow|Hhigh].
  - assert (Hcounters :
      counters (cache (track_email_open_body settings world first token).2)
      = <[key := ((count + 1)%Z, (now first + 60 * SECOND)%Z)]>
          (counters (cache world))).
    { rewrite track_body_counts; rewrite Hkey, Hcount; done. }
    destruct i as [|i]; cbn [lookup list_lookup] in Hi, Hreq.
    + injection Hi as <- <- <-. injection Hreq as <-. split; [|lia].
      intros _. rewrite Hcounters, lookup_insert_eq.
      by rewrite Z.add_0_r.
    + destruct (IH (track_email_open_body settings world first token).2
                  (count + 1)%Z Hrest ltac:(lia)) with
        (i := i) (before := before) (response := response) (after := after)
        (request := request) as [IHlow IHhigh]; [|done|done|].
      { intros next Hnext. destruct rest as [|next' rest']; [done|].
        injection Hnext as ->. apply bool_decide_eq_true in Hgap.
        unfold cache_get_counter. rewrite Hcounters, lookup_insert_eq.
        cbn [live]. by rewrite bool_decide_eq_true_2 by lia. }
      split; intros Hi'.
      * rewrite IHlow by lia. do 2 f_equal. lia.
      * apply IHhigh. lia.
  - assert (count = 10%Z) as -> by lia.
    destruct i as [|i]; [|split; lia].
    cbn [lookup list_lookup] in Hi.
    rewrite track_body_limited in Hi by (rewrite Hkey, Hcount; lia).
    injection Hi as <- <- <-. split; [lia|done].
Qed.

(** X16.  The rate limit of the tracking pixel is not a fixed minute:
    every counted request restarts the 60 seconds of the counter.  When
    requests for one token come from one client, each less than a minute
    after the one before, the first ten are counted, each setting the
    counter to expire a minute after itself, and the eleventh is refused
    (the state stays as it found it), however long the eleven requests
    took altogether. *)
Theorem pixel_limit_window_slides
    (patch : list (string * string) → list (string * string))
    (settings : TrackingSettings) (world : World) (token : string)
    (client : option string) (requests : list TrackingRequest) :
  steady_stream client requests = true →
  (∀ first, head requests = Some first →
     cache_get_counter (cache world) (now first)
       (RATE_LIMIT_PREFIX +:+ token +:+ ":" +:+ default "unknown" client) 0
     = 0%Z) →
  ∀ (i : nat) before response after request,
    serve_pixels patch settings world token requests !! i
    = Some (before, response, after) →
    requests !! i = Some request →
    ((i < 10)%nat →
       counters (cache after)
         !! (RATE_LIMIT_PREFIX +:+ token +:+ ":" +:+ default "unknown" client)
       = Some ((Z.of_nat i + 1)%Z, (now request + 60 * SECOND)%Z))
    ∧ (i = 10%nat → after = before).
Proof.
  intros Hsteady Hstart i before response after request Hi Hreq.
  destruct (steady_invariant patch settings token client requests world 0%Z
              Hsteady ltac:(lia) Hstart i before response after request
              Hi Hreq) as [Hlow Hhigh].
  split.
  - intros Hi'. rewrite Hlow by lia. do 2 f_equal.
  - intros Hi'. apply Hhigh. lia.
Qed.

Lemma pixel_limit_window_slides_witness :
  let unread :=
    {| pk := Some 1%Z; recipient := 3; n_article := Some 5%Z;
       n_title := "T"; message := "M"; notification_type := "publisher";
       is_read := false; email_opened_at := None;
       read_token := "00000000000040008000000000000000" |} in
  let world :=
    {| notifications := {[ 1%Z := unread ]};
       cache := {| counters := ∅; markers := ∅ |} |} in
  let request (k : nat) :=
    {| http_method := GET; REMOTE_ADDR := Some "203.0.113.9";
       now := (Z.of_nat k * 50 * SECOND)%Z; entropy := 0%N |} in
  let run :=
    serve_pixels (λ h, h) None world "00000000000040008000000000000000"
      (request <$> seq 0 11) in
  ∃ before response after,
    run !! 10%nat = Some (before, response, after)
    ∧ now (request 10%nat) = (500 * SECOND)%Z
    ∧ after = before.
Proof.
  intros unread world request run.
  destruct (run !! 10%nat) as [[[before response] after]|] eqn:Hrun;
    [|vm_compute in Hrun; discriminate].
  exists before, response, after. split; [done|]. split; [reflexivity|].
  destruct (pixel_limit_window_slides (λ h, h) None world
              "00000000000040008000000000000000"
              (Some "203.0.113.9") (request <$> seq 0 11))
    with (i := 10%nat) (before := before) (response := response)
         (after := after) (request := request 10%nat)
    as [_ Hsame].
  - vm_compute. reflexivity.
  - intros first Hfirst. reflexivity.
  - exact Hrun.
  - reflexivity.
  - apply Hsame. reflexivity.
Defined.

End TrackingExtras.

Module FanoutExtras.
Import Models Notifications Subscriptions Signals FanoutAudience.
Import NotificationProofs.

Section Run.
Variable settings : MailSettings.
Variable smtp_accepts : EmailMessage → bool.
Variable entropy : nat → N.

(** [save] inside a run touches the table and the draw count only, and
    the one exception it can raise is the token constraint's. *)
Lemma frame_save_keeps f n :
  let result := frame_save entropy f n in
  outbox result.2 = outbox f ∧ messages result.2 = messages f
  ∧ subscriber result.2 = subscriber f ∧ locals result.2 = locals f
  ∧ (result.1.1 = Returned
     ∨ (result.1.1 = Raise IntegrityError ∧ table result.2 = table f)).
Proof.
  unfold frame_save.
  destruct (save_cases (entropy (draws f)) (table f) n)
    as [[Hraise Hsame]|(id & Hret & _)];
    destruct (save (entropy (draws f)) (table f) n) as [[r n'] t'];
    simpl in *; subst; auto 10.
Qed.

(** What an iteration does to the variables the final statements read:
    a skipped subscriber only becomes the loop variable; otherwise the
    body fails on the token constraint or binds the body variables. *)
Lemma publisher_iteration_cases article u f :
  (has_email u = false
   ∧ publisher_iteration settings smtp_accepts entropy article u f
     = (Returned, bind_subscriber f u))
  ∨ (has_email u = true
     ∧ ∃ f',
         (publisher_iteration settings smtp_accepts entropy article u f
          = (Raise IntegrityError, f'))
         ∨ (publisher_iteration settings smtp_accepts entropy article u f
            = (Returned, f')
            ∧ locals f' ≠ None ∧ subscriber f' = Some u)).
Proof.
  unfold publisher_iteration.
  destruct (has_email u); [right|by left]. split; [done|]. simpl negb.
  cbv iota.
  set (fresh := new_notification _ _ _ _ _).
  pose proof (frame_save_keeps (bind_subscriber f u) fresh) as Hk1.
  destruct (frame_save entropy (bind_subscriber f u) fresh)
    as [[r1 n1] f1]. simpl in Hk1.
  destruct Hk1 as (_ & _ & _ & _ & [->|[-> _]]); [|by eexists; left].
  destruct (urls_for settings article n1) as [[tracking mark_read] art_url].
  set (n1' := with_message _ _).
  pose proof (frame_save_keeps f1 n1') as Hk2.
  destruct (frame_save entropy f1 n1') as [[r2 n2] f2]. simpl in Hk2.
  destruct Hk2 as (_ & _ & _ & _ & [->|[-> _]]); [|by eexists; left].
  eexists. right. by split.
Qed.

Lemma journalist_iteration_cases article publisher_result u f :
  (has_email u && negb (queryset_contains publisher_result u) = false
   ∧ journalist_iteration settings entropy article publisher_result u f
     = (Returned, bind_subscriber f u))
  ∨ (has_email u && negb (queryset_contains publisher_result u) = true
     ∧ ∃ f',
         (journalist_iteration settings entropy article publisher_result u f
          = (Raise IntegrityError, f')
          ∧ outbox f' = outbox f ∧ messages f' = messages f)
         ∨ (journalist_iteration settings entropy article publisher_result u f
            = (Returned, f')
            ∧ locals f' ≠ None ∧ subscriber f' = Some u
            ∧ outbox f' = outbox f ∧ messages f' = messages f)).
Proof.
  unfold journalist_iteration.
  destruct (has_email u); [|by left]. simpl negb. cbv iota.
  destruct (queryset_contains publisher_result u); [by left|].
  right. split; [done|].
  set (fresh := new_notification _ _ _ _ _).
  pose proof (frame_save_keeps (bind_subscriber f u) fresh) as Hk1.
  destruct (frame_save entropy (bind_subscriber f u) fresh)
    as [[r1 n1] f1]. simpl in Hk1.
  destruct Hk1 as (Ho & Hm & _ & _ & [->|[-> _]]);
    [|by eexists; left].
  destruct (urls_for settings article n1) as [[tracking mark_read] art_url].
  eexists. right. split; [reflexivity|]. by cbn.
Qed.



Lemma send_logged_elem box x m :
  m ∈ send_logged smtp_accepts box x →
  m ∈ box ∨ (m = x ∧ recipients x ≠ []).
Proof.
  unfold send_logged. destruct (recipients x) eqn:Hr; [by left|].
  destruct (smtp_accepts x); [|by left].
  rewrite elem_of_app, list_elem_of_singleton. intros [?| ->]; [by left|].
  by right.
Qed.

Lemma send_mass_mail_elem ms : ∀ box m,
  m ∈ send_mass_mail smtp_accepts box ms →
  m ∈ box ∨ (m ∈ ms ∧ recipients m ≠ []).
Proof.
  induction ms as [|x ms IH]; intros box m; cbn [send_mass_mail]; [by left|].
  destruct (recipients x) eqn:Hr.
  - intros Hin. destruct (IH _ _ Hin) as [?|[? ?]]; [by left|].
    right. split; [by apply list_elem_of_further | done].
  - destruct (smtp_accepts x); [|by left].
    intros Hin. destruct (IH _ _ Hin) as [Hbox|[? ?]].
    + apply elem_of_app in Hbox as [?|Hx]; [by left|].
      apply list_elem_of_singleton in Hx as ->.
      right. split; [apply list_elem_of_here | by rewrite Hr].
    + right. split; [by apply list_elem_of_further | done].
Qed.

Lemma recipients_has_email m u :
  to m = email u → recipients m ≠ [] → has_email u = true.
Proof.
  unfold recipients, has_email. intros <-.
  destruct (to m) as [address|]; [|done]. by destruct (str_truthy address).
Qed.

(** The mail a publisher iteration hands over or queues is addressed to
    its subscriber. *)
Lemma publisher_iteration_mail article u f r f' m :
  publisher_iteration settings smtp_accepts entropy article u f = (r, f') →
  m ∈ outbox f' ∨ m ∈ messages f' →
  (m ∈ outbox f ∨ m ∈ messages f)
  ∨ (has_email u = true ∧ to m = email u).
Proof.
  unfold publisher_iteration.
  destruct (has_email u) eqn:Hemail; simpl negb; cbv iota.
  2:{ intros [= <- <-]. by left. }
  set (fresh := new_notification _ _ _ _ _).
  pose proof (frame_save_keeps (bind_subscriber f u) fresh) as Hk1.
  destruct (frame_save entropy (bind_subscriber f u) fresh)
    as [[r1 n1] f1]. simpl in Hk1.
  destruct Hk1 as (Ho1 & Hm1 & _ & _ & _).
  destruct r1; [|intros [= <- <-]; rewrite Ho1, Hm1; by left].
  destruct (urls_for settings article n1) as [[tracking mark_read] art_url].
  set (n1' := with_message _ _).
  pose proof (frame_save_keeps f1 n1') as Hk2.
  destruct (frame_save entropy f1 n1') as [[r2 n2] f2]. simpl in Hk2.
  destruct Hk2 as (Ho2 & Hm2 & _ & _ & _).
  destruct r2; [|intros [= <- <-]; rewrite Ho2, Hm2, Ho1, Hm1; by left].
  intros [= <- <-]. cbn [outbox messages].
  rewrite Ho2, Hm2, Ho1, Hm1. intros [Hin|Hin].
  - apply send_logged_elem in Hin as [?|[-> _]]; [by left; left|].
    by right.
  - apply elem_of_app in Hin as [?|Hin]; [by left; right|].
    apply list_elem_of_singleton in Hin as ->. by right.
Qed.

(** A loop whose body skips the subscribers [skip] names and otherwise
    fails on the token constraint or binds the body variables. *)
Lemma for_each_bodies (body : CustomUser → Frame → Raised * Frame)
    (skip : CustomUser → bool) :
  (∀ u f,
     (skip u = true ∧ body u f = (Returned, bind_subscriber f u))
     ∨ (skip u = false
        ∧ ∃ f', body u f = (Raise IntegrityError, f')
                ∨ (body u f = (Returned, f')
                   ∧ locals f' ≠ None ∧ subscriber f' = Some u))) →
  ∀ items f r f',
    for_each body items f = (r, f') →
    (r = Returned ∨ r = Raise IntegrityError)
    ∧ (r = Returned →
         subscriber f' = match last items with
                         | Some u => Some u
                         | None => subscriber f
                         end
         ∧ (locals f' = None →
              locals f = None ∧ ∀ u, u ∈ items → skip u = true))
    ∧ ((∀ u, u ∈ items → skip u = true) →
         r = Returned ∧ table f' = table f ∧ outbox f' = outbox f
         ∧ locals f' = locals f).
Proof.
  intros Hbody. induction items as [|u items IH]; intros f r f' Hrun.
  { cbn in Hrun. injection Hrun as <- <-.
    split; [by left|]. split; [|done]. intros _. split; [done|].
    intros Hnone. split; [done|]. intros u Hin. by apply elem_of_nil in Hin. }
  cbn [for_each] in Hrun.
  destruct (Hbody u f) as [[Hskip Hstep]|[Hskip (f1 & [Hstep|Hstep])]].
  - rewrite Hstep in Hrun.
    destruct (IH _ _ _ Hrun) as (Hr & Hret & Hall).
    split; [done|]. split.
    + intros Hreturned. destruct (Hret Hreturned) as [Hsub Hloc].
      split.
      * rewrite Hsub, last_cons. by destruct (last items).
      * intros Hnone. destruct (Hloc Hnone) as [Hlocf Hitems].
        split; [done|]. intros v Hin.
        apply elem_of_cons in Hin as [->|Hin]; [done | by apply Hitems].
    + intros Hskips. destruct Hall as (? & ? & ? & ?).
      { intros v Hin. apply Hskips. by apply list_elem_of_further. }
      done.
  - rewrite Hstep in Hrun. injection Hrun as <- <-.
    split; [by right|]. split; [done|].
    intros Hskips. rewrite (Hskips u) in Hskip; [done|].
    apply list_elem_of_here.
  - destruct Hstep as (Hstep & Hlocals & Hsub). rewrite Hstep in Hrun.
    destruct (IH _ _ _ Hrun) as (Hr & Hret & Hall).
    split; [done|]. split.
    + intros Hreturned. destruct (Hret Hreturned) as [Hsub' Hloc].
      split.
      * rewrite Hsub', last_cons, Hsub. by destruct (last items).
      * intros Hnone. by destruct (Hloc Hnone) as [Hlocf _].
    + intros Hskips. rewrite (Hskips u) in Hskip; [done|].
      apply list_elem_of_here.
Qed.




Lemma for_each_mail (body : CustomUser → Frame → Raised * Frame) :
  (∀ u f r f' m,
     body u f = (r, f') → m ∈ outbox f' ∨ m ∈ messages f' →
     (m ∈ outbox f ∨ m ∈ messages f)
     ∨ (has_email u = true ∧ to m = email u)) →
  ∀ items f r f' m,
    for_each body items f = (r, f') →
    m ∈ outbox f' ∨ m ∈ messages f' →
    (m ∈ outbox f ∨ m ∈ messages f) ∨ addressed_to items m.
Proof.
  intros Hbody. induction items as [|u items IH]; intros f r f' m Hrun Hin.
  { cbn in Hrun. injection Hrun as <- <-. by left. }
  cbn [for_each] in Hrun.
  destruct (body u f) as [[|e] f1] eqn:Hstep.
  - destruct (IH _ _ _ _ Hrun Hin) as [Hf1|(v & Hv & Hgood)].
    + destruct (Hbody _ _ _ _ _ Hstep Hf1) as [?|Hgood]; [by left|].
      right. exists u. split; [apply list_elem_of_here | done].
    + right. exists v. split; [by apply list_elem_of_further | done].
  - injection Hrun as <- <-.
    destruct (Hbody _ _ _ _ _ Hstep Hin) as [?|Hgood]; [by left|].
    right. exists u. split; [apply list_elem_of_here | done].
Qed.

Lemma journalist_iteration_mail article publisher_result u f r f' m :
  journalist_iteration settings entropy article publisher_result u f
  = (r, f') →
  m ∈ outbox f' ∨ m ∈ messages f' →
  (m ∈ outbox f ∨ m ∈ messages f)
  ∨ (False ∧ has_email u = true ∧ to m = email u).
Proof.
  intros Hstep Hin. left.
  destruct (journalist_iteration_cases article publisher_result u f)
    as [[_ Heq]|[_ (f1 & [(Heq & Ho & Hm)|(Heq & _ & _ & Ho & Hm)])]];
    rewrite Heq in Hstep; injection Hstep as <- <-;
    [done | by rewrite <-Ho, <-Hm ..].
Qed.

(** The statements after the loops: without the body variables they
    raise; with them they fail on the token constraint or send to the
    address of the last loop variable. *)
Lemma after_loops_cases article f :
  (locals f = None ∨ subscriber f = None) ∧
    after_loops settings smtp_accepts entropy article f
    = (Raise UnboundLocalError, f)
  ∨ ∃ u r f',
      locals f ≠ None ∧ subscriber f = Some u
      ∧ after_loops settings smtp_accepts entropy article f = (r, f')
      ∧ (r = Returned ∨ r = Raise IntegrityError)
      ∧ ∀ m, m ∈ outbox f' →
             (m ∈ outbox f ∨ m ∈ messages f)
             ∨ (has_email u = true ∧ to m = email u).
Proof.
  unfold after_loops.
  destruct (locals f) as [loc|] eqn:Hloc; [|left; auto].
  destruct (subscriber f) as [u|] eqn:Hsub; [|left; auto].
  right. exists u.
  set (n := with_message _ _).
  pose proof (frame_save_keeps f n) as Hk.
  destruct (frame_save entropy f n) as [[r1 n1] f1]. simpl in Hk.
  destruct Hk as (Ho & Hm & Hs & Hl & Hr).
  destruct r1.
  - eexists _, _. split; [done|]. split; [done|]. split; [reflexivity|].
    split; [by left|]. cbn [outbox]. intros m Hin.
    apply send_mass_mail_elem in Hin as [Hin|[Hin Hrec]].
    + apply send_logged_elem in Hin as [Hin|[-> Hrec]].
      * left. left. by rewrite <-Ho.
      * right. split; [|done].
        eapply recipients_has_email; [|exact Hrec]. reflexivity.
    + apply elem_of_app in Hin as [Hin|Hin].
      * left. right. by rewrite <-Hm.
      * apply list_elem_of_singleton in Hin as ->.
        right. split; [|done].
        eapply recipients_has_email; [|exact Hrec]. reflexivity.
  - destruct Hr as [?|[-> _]]; [done|].
    eexists _, _. split; [done|]. split; [done|]. split; [reflexivity|].
    split; [by right|]. intros m Hin. left. left. by rewrite <-Ho.
Qed.



End Run.

Lemma head_Some_elem {A} (x : A) (l : list A) : head l = Some x → x ∈ l.
Proof. destruct l; [done|]. intros [= ->]. apply list_elem_of_here. Qed.

Lemma last_None_nil {A} (l : list A) : last l = None → l = [].
Proof. by intros ->%last_None. Qed.

(** X17.  When the fan-out dies on its unbound variables.  The
    synchronous fan-out ends with [UnboundLocalError] exactly when the
    article has an audience and no audience member has a non-empty e-mail
    address: every iteration is then skipped and the statements after the
    loops read variables that no iteration assigned.  In that case no
    notification is stored and no mail is sent. *)
Theorem fanout_unbound_local_error
    (settings : MailSettings) (smtp_accepts : EmailMessage → bool)
    (entropy : nat → N) (store : Store) (table : NotificationTable)
    (article : ArticleObject) :
  let audience := get_subscribers_by_type store (row article) in
  let result :=
    _send_article_emails_sync settings smtp_accepts entropy store table
      article in
  (ended result = Raise UnboundLocalError
   ↔ all_subscribers audience ≠ []
     ∧ ∀ u, u ∈ all_subscribers audience → has_email u = false)
  ∧ (ended result = Raise UnboundLocalError →
     final_table result = table ∧ sent result = []).
Proof.
  intros audience result.
  set (pubs := by_publisher audience).
  set (jours := by_journalist audience).
  assert (Hall : all_subscribers audience = set_union pubs jours) by done.
  set (skip_p := λ u : CustomUser, negb (has_email u)).
  set (skip_j := λ u : CustomUser,
         negb (has_email u && negb (queryset_contains pubs u))).
  assert (Hbody_p : ∀ u f,
     (skip_p u = true
      ∧ publisher_iteration settings smtp_accepts entropy article u f
        = (Returned, bind_subscriber f u))
     ∨ (skip_p u = false
        ∧ ∃ f', publisher_iteration settings smtp_accepts entropy article u f
                = (Raise IntegrityError, f')
                ∨ (publisher_iteration settings smtp_accepts entropy article
                     u f = (Returned, f')
                   ∧ locals f' ≠ None ∧ subscriber f' = Some u))).
  { intros u f. unfold skip_p.
    destruct (publisher_iteration_cases settings smtp_accepts entropy
                article u f) as [[-> ?]|[-> ?]]; [by left | by right]. }
  assert (Hbody_j : ∀ u f,
     (skip_j u = true
      ∧ journalist_iteration settings entropy article pubs u f
        = (Returned, bind_subscriber f u))
     ∨ (skip_j u = false
        ∧ ∃ f', journalist_iteration settings entropy article pubs u f
                = (Raise IntegrityError, f')
                ∨ (journalist_iteration settings entropy article pubs u f
                   = (Returned, f')
                   ∧ locals f' ≠ None ∧ subscriber f' = Some u))).
  { intros u f. unfold skip_j.
    destruct (journalist_iteration_cases settings entropy article pubs u f)
      as [[-> ?]|[-> (f' & [(? & _)|(? & ? & ? & _)])]];
      [by left | right; split; [done|]; exists f'; by left
       | right; split; [done|]; exists f'; by right]. }
  assert (Hblank : (∀ u, u ∈ set_union pubs jours → has_email u = false)
            ↔ (∀ u, u ∈ pubs → skip_p u = true)
              ∧ (∀ u, u ∈ jours → skip_j u = true)).
  { unfold set_union, skip_p, skip_j. split.
    - intros Hb. split.
      + intros u Hu. rewrite Hb; [done|]. apply elem_of_app. by left.
      + intros u Hu.
        destruct (queryset_contains pubs u) eqn:Hc;
          [by rewrite andb_false_r|].
        rewrite Hb; [done|]. apply elem_of_app. right.
        by apply list_elem_of_filter.
    - intros [Hp Hj] u Hu. apply elem_of_app in Hu as [Hu|Hu].
      + specialize (Hp u Hu). by destruct (has_email u).
      + apply list_elem_of_filter in Hu as [Hc Hu].
        specialize (Hj u Hu). rewrite Hc in Hj.
        by destruct (has_email u). }
  subst result. unfold _send_article_emails_sync.
  fold audience. fold pubs jours. rewrite Hall, Hblank.
  destruct (set_union pubs jours) as [|first rest] eqn:Hunion.
  { cbn. split; [|done]. split; [done | by intros [? _]]. }
  set (start := {| table := table; outbox := []; draws := 0; messages := [];
                   notif_objs := []; subscriber := None; locals := None |}).
  destruct (for_each (publisher_iteration settings smtp_accepts entropy
                        article) pubs start) as [r1 f1] eqn:Hrun1.
  destruct (for_each_bodies _ skip_p Hbody_p _ _ _ _ Hrun1)
    as (Hr1 & Hret1 & Hskips1).
  destruct r1 as [|e1].
  2:{ cbn. destruct Hr1 as [?|[= ->]]; [done|].
      split; [|done]. split; [done|]. intros (_ & Hp & _).
      by destruct (Hskips1 Hp). }
  destruct (Hret1 eq_refl) as [Hsub1 Hloc1].
  destruct (for_each (journalist_iteration settings entropy article pubs)
              jours f1) as [r2 f2] eqn:Hrun2.
  destruct (for_each_bodies _ skip_j Hbody_j _ _ _ _ Hrun2)
    as (Hr2 & Hret2 & Hskips2).
  destruct r2 as [|e2].
  2:{ cbn. destruct Hr2 as [?|[= ->]]; [done|].
      split; [|done]. split; [done|]. intros (_ & _ & Hj).
      by destruct (Hskips2 Hj). }
  destruct (Hret2 eq_refl) as [Hsub2 Hloc2].
  destruct (after_loops_cases settings smtp_accepts entropy article f2)
    as [[Hunbound ->]|(u & r3 & f3 & Hl & Hs & -> & Hr3 & _)]; cbn.
  - assert (Hskips : (∀ u, u ∈ pubs → skip_p u = true)
                     ∧ (∀ u, u ∈ jours → skip_j u = true)).
    { destruct Hunbound as [Hnone|Hnone].
      - destruct (Hloc2 Hnone) as [Hnone1 Hj].
        destruct (Hloc1 Hnone1) as [_ Hp]. done.
      - rewrite Hsub2 in Hnone.
        destruct (last jours) as [?|] eqn:Hlast_j; [done|].
        rewrite Hsub1 in Hnone.
        destruct (last pubs) as [?|] eqn:Hlast_p; [done|].
        apply last_None_nil in Hlast_j, Hlast_p.
        rewrite Hlast_j, Hlast_p in Hunion. done. }
    split; [split; [done | by intros _]|]. intros _.
    destruct Hskips as [Hp Hj].
    destruct (Hskips1 Hp) as (_ & Ht1 & Ho1 & _).
    destruct (Hskips2 Hj) as (_ & Ht2 & Ho2 & _).
    by rewrite Ht2, Ho2, Ht1, Ho1.
  - split; [|by destruct Hr3 as [-> | ->]].
    split; [by destruct Hr3 as [-> | ->]|].
    intros (_ & Hp & Hj). exfalso. apply Hl.
    destruct (Hskips1 Hp) as (_ & _ & _ & Hl1).
    destruct (Hskips2 Hj) as (_ & _ & _ & Hl2).
    by rewrite Hl2, Hl1.
Qed.

(** X18.  Who can be sent mail by the fan-out.  However the run ends,
    every e-mail it handed to the transport is addressed to the non-empty
    address of a subscriber of the article's publisher, or to that of the
    one user the loop variable held last (the last follower of the author
    in queryset order, or the last publisher subscriber when the author
    has no followers).  A follower of the author who does not subscribe
    to the publisher and is not last in the queryset is therefore never
    sent anything. *)
Theorem fanout_mail_recipients
    (settings : MailSettings) (smtp_accepts : EmailMessage → bool)
    (entropy : nat → N) (store : Store) (table : NotificationTable)
    (article : ArticleObject) (m : EmailMessage) :
  let audience := get_subscribers_by_type store (row article) in
  let result :=
    _send_article_emails_sync settings smtp_accepts entropy store table
      article in
  m ∈ sent result →
  addressed_to (by_publisher audience) m
  ∨ ∃ u, last_subscriber audience = Some u
         ∧ has_email u = true ∧ to m = email u.
Proof.
  intros audience result. subst result.
  unfold _send_article_emails_sync. fold audience.
  set (pubs := by_publisher audience).
  set (jours := by_journalist audience).
  destruct (all_subscribers audience) as [|first rest];
    [by intros Hin%elem_of_nil|].
  set (start := {| table := table; outbox := []; draws := 0; messages := [];
                   notif_objs := []; subscriber := None; locals := None |}).
  destruct (for_each (publisher_iteration settings smtp_accepts entropy
                        article) pubs start) as [r1 f1] eqn:Hrun1.
  assert (Hmail1 : ∀ m', m' ∈ outbox f1 ∨ m' ∈ messages f1 →
                         addressed_to pubs m').
  { intros m' Hin.
    destruct (for_each_mail _
                (publisher_iteration_mail settings smtp_accepts entropy
                   article) _ _ _ _ m' Hrun1 Hin) as [[Hs|Hs]|?];
      [by apply elem_of_nil in Hs .. | done]. }
  destruct r1 as [|e1]; [|cbn; intros Hin; left; apply Hmail1; by left].
  destruct (for_each (journalist_iteration settings entropy article pubs)
              jours f1) as [r2 f2] eqn:Hrun2.
  assert (Hmail2 : ∀ m', m' ∈ outbox f2 ∨ m' ∈ messages f2 →
                         addressed_to pubs m').
  { intros m' Hin. apply Hmail1.
    assert (Hbody : ∀ u f r f' m0,
              journalist_iteration settings entropy article pubs u f
              = (r, f') →
              m0 ∈ outbox f' ∨ m0 ∈ messages f' →
              (m0 ∈ outbox f ∨ m0 ∈ messages f)
              ∨ (has_email u = true ∧ to m0 = email u ∧ False)).
    { intros u f r f' m0 Hstep Hin0.
      destruct (journalist_iteration_mail settings entropy article pubs
                  u f r f' m0 Hstep Hin0) as [?|[[] _]]. by left. }
    clear Hrun1 Hmail1. revert f1 Hrun2.
    induction jours as [|u items IH]; intros f1 Hrun2.
    { cbn in Hrun2. by injection Hrun2 as <- <-. }
    cbn [for_each] in Hrun2.
    destruct (journalist_iteration settings entropy article pubs u f1)
      as [[|e] fm] eqn:Hstep.
    - destruct (Hbody _ _ _ _ m' Hstep (IH _ Hrun2)) as [?|(_ & _ & [])].
      done.
    - injection Hrun2 as <- <-.
      destruct (Hbody _ _ _ _ m' Hstep Hin) as [?|(_ & _ & [])]. done. }
  destruct r2 as [|e2]; [|cbn; intros Hin; left; apply Hmail2; by left].
  assert (Hskip_any : ∀ (body : CustomUser → Frame → Raised * Frame)
            items f f',
            (∀ u f0 f1, body u f0 = (Returned, f1) → subscriber f1 = Some u) →
            for_each body items f = (Returned, f') →
            subscriber f' = match last items with
                            | Some u => Some u
                            | None => subscriber f
                            end).
  { intros body items. induction items as [|u items IH]; intros f f' Hb Hrun.
    { cbn in Hrun. by injection Hrun as <-. }
    cbn [for_each] in Hrun.
    destruct (body u f) as [[|e] fm] eqn:Hstep; [|done].
    rewrite (IH _ _ Hb Hrun), last_cons, (Hb _ _ _ Hstep).
    by destruct (last items). }
  assert (Hbp : ∀ u f0 f1',
            publisher_iteration settings smtp_accepts entropy article u f0
            = (Returned, f1') → subscriber f1' = Some u).
  { intros u f0 f1' Hstep.
    destruct (publisher_iteration_cases settings smtp_accepts entropy
                article u f0)
      as [[_ Heq]|[_ (fx & [Heq|(Heq & _ & Hs)])]];
      rewrite Heq in Hstep; [|done|]; by injection Hstep as <-. }
  assert (Hbj : ∀ u f0 f1',
            journalist_iteration settings entropy article pubs u f0
            = (Returned, f1') → subscriber f1' = Some u).
  { intros u f0 f1' Hstep.
    destruct (journalist_iteration_cases settings entropy article pubs
                u f0)
      as [[_ Heq]|[_ (fx & [(Heq & _)|(Heq & _ & Hs & _)])]];
      rewrite Heq in Hstep; [|done|]; by injection Hstep as <-. }
  assert (Hsub : subscriber f2 = last_subscriber audience).
  { unfold last_subscriber. fold pubs jours.
    rewrite (Hskip_any _ _ _ _ Hbj Hrun2).
    destruct (last jours); [done|].
    rewrite (Hskip_any _ _ _ _ Hbp Hrun1). by destruct (last pubs). }
  destruct (after_loops_cases settings smtp_accepts entropy article f2)
    as [[_ ->]|(u & r3 & f3 & _ & Hs & -> & _ & Hout)]; cbn.
  - intros Hin. left. apply Hmail2. by left.
  - intros Hin. destruct (Hout m Hin) as [?|[Hemail Hto]];
      [left; by apply Hmail2|].
    right. exists u. by rewrite <-Hsub.
Qed.



Lemma fanout_mail_recipients_witness :
  let result := FanoutSample.run FanoutSample.followers_store in
  ∃ m, head (sent result) = Some m ∧ to m = Some "wes@example.org".
Proof.
  intros result.
  destruct (head (sent result)) as [m|] eqn:Hhead;
    [|vm_compute in Hhead; discriminate Hhead].
  exists m. split; [reflexivity|].
  destruct (fanout_mail_recipients FanoutSample.mail_settings (λ _, true)
              (λ k, N.of_nat k) FanoutSample.followers_store ∅
              FanoutSample.story m (head_Some_elem m _ Hhead))
    as [(u & Hu & _)|(u & Hlast & _ & Hto)].
  - vm_compute in Hu. destruct (proj1 (elem_of_nil u) Hu).
  - vm_compute in Hlast. injection Hlast as <-. exact Hto.
Defined.

End FanoutExtras.

Module AdminExtras.
Import Models Http EditorPermissions EditorViews Notifications Properties.
Import AdminViews EditorAccess.
Import ApprovalProofs NotificationProofs.

Section Receivers.
Variable send_and_post :
  Z → Article → NotificationTable → Raised * NotificationTable.

Lemma admin_guard_passes body state request id :
  is_admin_or_editor (a_user request) = true →
  a_method request = POST →
  admin_guard body state request id = body state request id.
Proof. intros Htest Hpost. unfold admin_guard. by rewrite Htest, Hpost. Qed.

(** Saving a row that is not approved runs no fan-out. *)
Lemma article_save_quiet now state id instance :
  is_approved instance = false →
  article_save send_and_post now state id instance
  = (Returned,
     {| admin_articles := <[id := instance]> (admin_articles state);
        admin_notifications := admin_notifications state |}).
Proof.
  intros Hnot. unfold article_save, article_approved_handler_fires.
  by rewrite Hnot.
Qed.

Lemma article_save_articles now state id instance :
  admin_articles (article_save send_and_post now state id instance).2
  = <[id := instance]> (admin_articles state).
Proof.
  unfold article_save.
  destruct (article_approved_handler_fires instance now); [|done].
  by destruct (send_and_post id instance (admin_notifications state)).
Qed.

(** X19.  The admin route approves without the author check of the
    editor route and without a publication time.  A POST to
    [approve_article_admin] by a superuser, a staff member or a user with
    role editor, for an article that is not approved, stores the article
    as approved by that user at the time of the request, even when the
    user is the article's author and whatever the [post_save] receiver
    does afterwards; [published_at] stays as it was (unset for an article
    never published).  When the receiver returns and the generated token
    is new, one notification of type article_approved is stored for the
    author and the success message is queued. *)
Theorem approve_article_admin_effect
    (clock : nat → Time) (entropy : N) (state : AdminState)
    (request : AdminRequest) (id : Z) (article : Article) :
  is_admin_or_editor (a_user request) = true →
  a_method request = POST →
  admin_articles state !! id = Some article →
  is_approved article = false →
  let out := approve_article_admin send_and_post clock entropy state request id in
  let approved :=
    {| title := title article; slug := slug article;
       summary := summary article; author := author article;
       publisher := publisher article; status := "approved";
       is_approved := true; approved_by := fk_of_user (a_user request);
       approved_at := Some (clock 0%nat);
       published_at := published_at article |} in
  admin_articles (admin_state out) = <[id := approved]> (admin_articles state)
  ∧ ∀ state1,
      article_save send_and_post (clock 1%nat) state id approved
      = (Returned, state1) →
      (∀ i stored, admin_notifications state1 !! i = Some stored →
                   read_token stored ≠ new_read_token entropy) →
      admin_notifications (admin_state out)
      = <[next_id (admin_notifications state1) :=
            {| pk := Some (next_id (admin_notifications state1));
               recipient := author article; n_article := Some id;
               n_title := "Your article " +:+ DQUOTE +:+ title article
                            +:+ DQUOTE +:+ " has been approved";
               message := "Your article has been approved by "
                            +:+ display_name (a_user request)
                            +:+ " and is now published.";
               notification_type := "article_approved"; is_read := false;
               email_opened_at := None;
               read_token := new_read_token entropy |}]>
          (admin_notifications state1)
      ∧ admin_flashed out
        = [(SUCCESS, "Article " +:+ DQUOTE +:+ title article +:+ DQUOTE
                       +:+ " has been approved successfully.")].
Proof.
  intros Htest Hpost Hrow Hnot out approved. subst out.
  unfold approve_article_admin. rewrite admin_guard_passes by done.
  unfold approve_article_admin_body. rewrite Hrow, Hnot.
  fold approved.
  change (set_approval article true "approved" (fk_of_user (a_user request))
            (Some (clock 0%nat)) (published_at article)) with approved.
  pose proof (article_save_articles (clock 1%nat) state id approved) as Hart.
  destruct (article_save send_and_post (clock 1%nat) state id approved)
    as [[|e] state1] eqn:Hsave; cbn [snd] in Hart.
  - set (fresh := new_notification _ _ _ _ _).
    split.
    + by destruct (save entropy (admin_notifications state1) fresh)
        as [[[] ?] ?].
    + intros state1' [= <-] Hfresh.
      rewrite (FanoutProofs.save_new_spec entropy _ fresh eq_refl eq_refl
                 Hfresh).
      done.
  - split; [done|]. intros state1' [=].
Qed.

(** X20.  [reject_article_admin], for a POST by a superuser, a staff
    member or a user with role editor, stores the article as not approved
    with status rejected and leaves [approved_by], [approved_at] and
    [published_at] as they were (an approved article that is rejected
    this way keeps its approver and approval time); the fan-out is not
    run.  When the generated token is new, one notification of type
    article_rejected is stored for the author, whose message ends with
    the [reason] field of the form, or with "No reason provided" when the
    field is missing, and the warning message is queued. *)
Theorem reject_article_admin_effect
    (clock : nat → Time) (entropy : N) (state : AdminState)
    (request : AdminRequest) (id : Z) (article : Article) :
  is_admin_or_editor (a_user request) = true →
  a_method request = POST →
  admin_articles state !! id = Some article →
  (∀ i stored, admin_notifications state !! i = Some stored →
               read_token stored ≠ new_read_token entropy) →
  let out := reject_article_admin send_and_post clock entropy state request id in
  admin_articles (admin_state out)
  = <[id := {| title := title article; slug := slug article;
               summary := summary article; author := author article;
               publisher := publisher article; status := "rejected";
               is_approved := false; approved_by := approved_by article;
               approved_at := approved_at article;
               published_at := published_at article |}]>
      (admin_articles state)
  ∧ admin_notifications (admin_state out)
    = <[next_id (admin_notifications state) :=
          {| pk := Some (next_id (admin_notifications state));
             recipient := author article; n_article := Some id;
             n_title := "Your article " +:+ DQUOTE +:+ title article
                          +:+ DQUOTE +:+ " needs revision";
             message := "Your article has been rejected by "
                          +:+ display_name (a_user request)
                          +:+ ". Reason: "
                          +:+ default "No reason provided"
                                (post_reason request);
             notification_type := "article_rejected"; is_read := false;
             email_opened_at := None;
             read_token := new_read_token entropy |}]>
        (admin_notifications state)
  ∧ admin_flashed out
    = [(WARNING, "Article " +:+ DQUOTE +:+ title article +:+ DQUOTE
                   +:+ " has been rejected.")]
  ∧ admin_response out
    = (if is_ajax request then
         JsonRejected (default "No reason provided" (post_reason request))
       else RedirectTo "admin_article_approval_list").
Proof.
  intros Htest Hpost Hrow Hfresh out. subst out.
  unfold reject_article_admin. rewrite admin_guard_passes by done.
  unfold reject_article_admin_body. rewrite Hrow.
  rewrite article_save_quiet by done. cbn [admin_notifications admin_articles].
  set (fresh := new_notification _ _ _ _ _).
  rewrite (FanoutProofs.save_new_spec entropy _ fresh eq_refl eq_refl Hfresh).
  done.
Qed.

Lemma admin_body_unchanged_or_written
    (view : (nat → Time) → N → AdminState → AdminRequest → Z → AdminOutcome)
    clock entropy state request id :
  view = approve_article_admin send_and_post
  ∨ view = reject_article_admin send_and_post →
  admin_articles (admin_state (view clock entropy state request id))
  = admin_articles state
  ∨ ∃ article written,
      admin_articles state !! id = Some article
      ∧ admin_articles (admin_state (view clock entropy state request id))
        = <[id := written]> (admin_articles state)
      ∧ same_content article written
      ∧ approval_consistent written.
Proof.
  intros [-> | ->];
    unfold approve_article_admin, reject_article_admin, admin_guard.
  - destruct (is_admin_or_editor (a_user request)); [|by left]. simpl negb.
    cbv iota. destruct (a_method request); try by left.
    unfold approve_article_admin_body.
    destruct (admin_articles state !! id) as [article|] eqn:Hrow; [|by left].
    destruct (is_approved article); [by left|]. right.
    set (written := set_approval _ _ _ _ _ _).
    pose proof (article_save_articles (clock 1%nat) state id written) as Hart.
    exists article, written. split; [done|]. split.
    + destruct (article_save send_and_post (clock 1%nat) state id written)
        as [[|e] state1]; cbn [snd] in Hart; [|done].
      by destruct (save entropy (admin_notifications state1) _)
        as [[[] ?] ?].
    + split; [by repeat split | done].
  - destruct (is_admin_or_editor (a_user request)); [|by left]. simpl negb.
    cbv iota. destruct (a_method request); try by left.
    unfold reject_article_admin_body.
    destruct (admin_articles state !! id) as [article|] eqn:Hrow; [|by left].
    right.
    set (written := set_approval _ _ _ _ _ _).
    exists article, written. split; [done|]. split.
    + rewrite article_save_quiet by done.
      by destruct (save entropy _ _) as [[[] ?] ?].
    + split; [by repeat split | done].
Qed.

(** X21.  What the two admin views keep.  For every state, request and
    receiver behaviour, [approve_article_admin] and
    [reject_article_admin] keep the agreement between [is_approved] and
    [status == 'approved'] on every article, create and delete no
    article, and change no title, slug, summary, author, publisher or
    publication time.  A user who fails [is_admin_or_editor], a request
    that is not a POST, an id without article, and an approval of an
    article that is already approved leave the whole state as it was.
    Every user the test accepts also passes the editor test of the editor
    views. *)
Theorem admin_views_keep
    (clock : nat → Time) (entropy : N) (state : AdminState)
    (request : AdminRequest) (id : Z) :
  let approved :=
    approve_article_admin send_and_post clock entropy state request id in
  let rejected :=
    reject_article_admin send_and_post clock entropy state request id in
  (∀ out, out = approved ∨ out = rejected →
     (table_consistent (admin_articles state) →
      table_consistent (admin_articles (admin_state out)))
     ∧ table_extends (admin_articles state)
         (admin_articles (admin_state out)))
  ∧ (is_admin_or_editor (a_user request) = false
     ∨ a_method request ≠ POST
     ∨ admin_articles state !! id = None →
     admin_state approved = state ∧ admin_state rejected = state)
  ∧ (∀ article, admin_articles state !! id = Some article →
                is_approved article = true →
                admin_state approved = state)
  ∧ (is_admin_or_editor (a_user request) = true →
     is_editor_or_in_editor_group (a_user request) = true).
Proof.
  intros approved rejected. split; [|split; [|split]].
  - intros out Hout.
    assert (Hcases :
      admin_articles (admin_state out) = admin_articles state
      ∨ ∃ article written,
          admin_articles state !! id = Some article
          ∧ admin_articles (admin_state out)
            = <[id := written]> (admin_articles state)
          ∧ same_content article written
          ∧ approval_consistent written).
    { destruct Hout as [-> | ->].
      - apply (admin_body_unchanged_or_written
                 (approve_article_admin send_and_post)). by left.
      - apply (admin_body_unchanged_or_written
                 (reject_article_admin send_and_post)). by right. }
    destruct Hcases
      as [->|(article & written & Hrow & -> & Hcontent & Hcons)].
    + split; [done | apply EditorExtras.table_extends_refl].
    + split.
      * intros Htable. by apply table_consistent_insert.
      * apply (EditorExtras.table_extends_insert _ _ _ article);
          [apply EditorExtras.table_extends_refl | done | done].
  - subst approved rejected.
    unfold approve_article_admin, reject_article_admin, admin_guard,
      approve_article_admin_body, reject_article_admin_body.
    intros [Htest|[Hmethod|Hnone]].
    + by rewrite Htest.
    + destruct (is_admin_or_editor (a_user request)); [|done].
      by destruct (a_method request).
    + rewrite Hnone.
      destruct (is_admin_or_editor (a_user request)); [|done].
      by destruct (a_method request).
  - intros article Hrow Happroved. subst approved.
    unfold approve_article_admin, admin_guard, approve_article_admin_body.
    rewrite Hrow, Happroved.
    destruct (is_admin_or_editor (a_user request)); [|done].
    by destruct (a_method request).
  - destruct (a_user request) as [|u]; [done|]. simpl.
    destruct (str_eq (role u) "editor"); [done|].
    rewrite orb_false_r. intros ->. by repeat case_match.
Qed.



End Receivers.

Lemma approve_article_admin_effect_witness :
  let editor :=
    {| user_pk := 7; username := "erin"; full_name := "Erin Editor";
       email := Some "erin@example.org"; role := "editor"; groups := [];
       has_perm_approve_article := false; is_staff := false;
       is_superuser := false |} in
  let own :=
    {| title := "T"; slug := "t"; summary := "S"; author := 7;
       publisher := None; status := "pending"; is_approved := false;
       approved_by := None; approved_at := None; published_at := None |} in
  let request :=
    {| a_user := LoggedIn editor; a_method := POST; post_reason := None;
       x_requested_with := None |} in
  let state :=
    {| admin_articles := {[ 1%Z := own ]}; admin_notifications := ∅ |} in
  let out :=
    approve_article_admin (λ _ _ table, (Returned, table)) (λ _, 100%Z) 0%N
      state request 1%Z in
  author_is own (LoggedIn editor) = true
  ∧ admin_articles (admin_state out) !! 1%Z
    = Some {| title := "T"; slug := "t"; summary := "S"; author := 7;
              publisher := None; status := "approved"; is_approved := true;
              approved_by := Some 7%Z; approved_at := Some 100%Z;
              published_at := None |}.
Proof.
  intros editor own request state out. split; [reflexivity|].
  destruct (approve_article_admin_effect (λ _ _ table, (Returned, table))
              (λ _, 100%Z) 0%N state request 1%Z own) as [Harticles _];
    [reflexivity | reflexivity | apply lookup_singleton_eq | reflexivity |].
  subst out. rewrite Harticles. apply lookup_insert_eq.
Defined.

Lemma reject_article_admin_effect_witness :
  let editor :=
    {| user_pk := 7; username := "erin"; full_name := "";
       email := Some "erin@example.org"; role := "editor"; groups := [];
       has_perm_approve_article := false; is_staff := false;
       is_superuser := false |} in
  let story :=
    {| title := "T"; slug := "t"; summary := "S"; author := 3;
       publisher := None; status := "approved"; is_approved := true;
       approved_by := Some 9%Z; approved_at := Some 50%Z;
       published_at := Some 60%Z |} in
  let request :=
    {| a_user := LoggedIn editor; a_method := POST; post_reason := None;
       x_requested_with := Some "XMLHttpRequest" |} in
  let state :=
    {| admin_articles := {[ 1%Z := story ]}; admin_notifications := ∅ |} in
  let out :=
    reject_article_admin (λ _ _ table, (Returned, table)) (λ _, 100%Z) 0%N
      state request 1%Z in
  admin_articles (admin_state out) !! 1%Z
  = Some {| title := "T"; slug := "t"; summary := "S"; author := 3;
            publisher := None; status := "rejected"; is_approved := false;
            approved_by := Some 9%Z; approved_at := Some 50%Z;
            published_at := Some 60%Z |}
  ∧ admin_response out = JsonRejected "No reason provided".
Proof.
  intros editor story request state out.
  destruct (reject_article_admin_effect (λ _ _ table, (Returned, table))
              (λ _, 100%Z) 0%N state request 1%Z story)
    as (Harticles & _ & _ & Hresponse);
    [reflexivity | reflexivity | apply lookup_singleton_eq | |].
  - intros i stored Hstored. cbn [admin_notifications state] in Hstored.
    rewrite lookup_empty in Hstored. discriminate Hstored.
  - split; [|exact Hresponse].
    subst out. rewrite Harticles. apply lookup_insert_eq.
Defined.

(** The rows the bulk view writes for an action other than approve are
    not approved. *)
Lemma bulk_loop_quiet clock request (db : ArticleTable) now rows : ∀ st,
  action_is (post_action request) "approve" = false →
  (∀ id row, bulk_db st !! id = Some row →
     db !! id = Some row ∨ article_approved_handler_fires row now = false) →
  ∀ id row,
    bulk_db (foldl (bulk_article_step clock request) st rows) !! id
    = Some row →
    db !! id = Some row ∨ article_approved_handler_fires row now = false.
Proof.
  induction rows as [|[id0 a0] rows IH]; intros st Hact Hinv; [done|].
  cbn [foldl]. apply IH; [done|].
  intros id row.
  destruct (bulk_article_step_spec clock request st id0 a0) as (-> & _ & _).
  destruct (permitted request a0 && bulk_writes request a0); [|apply Hinv].
  destruct (decide (id = id0)) as [->|Hne];
    [|rewrite lookup_insert_ne by done; apply Hinv].
  rewrite lookup_insert_eq. intros [= <-]. right.
  unfold bulk_written. rewrite Hact. by case_match.
Qed.

(** X22.  Which saves of the editor views make the [post_save] receiver
    send mail.  A row that [reject_article] wrote, and a row that
    [bulk_article_action] wrote for any action but approve, never passes
    the receiver's test, at whatever time the receiver runs: rejecting or
    un-approving notifies nobody.  A row that [approve_article] wrote
    passes exactly when the receiver's clock reading is at most ten
    seconds after the approval time stored in the row. *)
Theorem editor_saves_and_receiver
    (clock : nat → Time) (db : ArticleTable) (request : Request) (id : Z)
    (now : Time) :
  (∀ id' row,
     articles (reject_article clock db request id) !! id' = Some row →
     db !! id' ≠ Some row →
     article_approved_handler_fires row now = false)
  ∧ (action_is (post_action request) "approve" = false →
     ∀ id' row,
       articles (bulk_article_action clock db request) !! id' = Some row →
       db !! id' ≠ Some row →
       article_approved_handler_fires row now = false)
  ∧ (∀ id' row,
       articles (approve_article clock db request id) !! id' = Some row →
       db !! id' ≠ Some row →
       article_approved_handler_fires row now
       = negb (bool_decide (10 * SECOND < now - clock 0%nat)%Z)).
Proof.
  split; [|split].
  - intros id' row. rewrite EditorExtras.reject_article_table.
    destruct (db !! id) as [article|] eqn:Hrow; [|done].
    case_match; [|done].
    destruct (decide (id' = id)) as [->|Hne];
      [|by rewrite lookup_insert_ne].
    rewrite lookup_insert_eq. by intros [= <-].
  - intros Hact id' row Hout Hchanged.
    assert (Hcases : db !! id' = Some row
                     ∨ article_approved_handler_fires row now = false);
      [|by destruct Hcases].
    revert Hout.
    unfold bulk_article_action, editor_required, require_GET_or_POST,
      bulk_article_action_body.
    repeat case_match; simpl; auto.
    apply bulk_loop_quiet; [done|]. simpl. auto.
  - intros id' row. rewrite EditorExtras.approve_article_table.
    destruct (db !! id) as [article|] eqn:Hrow; [|done].
    case_match; [|done].
    destruct (decide (id' = id)) as [->|Hne];
      [|by rewrite lookup_insert_ne].
    rewrite lookup_insert_eq. by intros [= <-].
Qed.

End AdminExtras.

Module SubscriptionExtras.
Import Models Http EditorPermissions EditorViews Subscriptions Properties.
Import SubscriptionViews.
Import ApprovalProofs.

Lemma store_eta (store : Store) :
  {| users := users store;
     subscribed_publishers := subscribed_publishers store;
     subscribed_journalists := subscribed_journalists store |} = store.
Proof. by destruct store. Qed.

Lemma toggle_edge_twice (edges : gset (Z * Z)) (edge : Z * Z) :
  (edge ∈ edges → (edges ∖ {[ edge ]}) ∪ {[ edge ]} = edges)
  ∧ (edge ∉ edges → (edges ∪ {[ edge ]}) ∖ {[ edge ]} = edges).
Proof.
  split; intros Hedge; apply set_eq; intros x.
  - rewrite elem_of_union, elem_of_difference, elem_of_singleton.
    destruct (decide (x = edge)) as [->|Hne]; [|tauto].
    split; [done | by right].
  - rewrite elem_of_difference, elem_of_union, elem_of_singleton.
    destruct (decide (x = edge)) as [->|Hne]; [|tauto].
    split; [by intros [_ ?] | done].
Qed.

Lemma toggle_publisher_reader publishers store u name target :
  role u = "reader" → publishers !! target = Some name →
  toggle_publisher_subscription publishers store (LoggedIn u) POST target
  = if bool_decide ((user_pk u, target) ∈ subscribed_publishers store) then
      (RedirectDetail "publisher_detail" target,
       [(SUCCESS, "Unsubscribed from " +:+ name +:+ ".")],
       with_publisher_edges store
         (subscribed_publishers store ∖ {[ (user_pk u, target) ]}))
    else
      (RedirectDetail "publisher_detail" target,
       [(SUCCESS, "Subscribed to " +:+ name +:+ ".")],
       with_publisher_edges store
         (subscribed_publishers store ∪ {[ (user_pk u, target) ]})).
Proof.
  intros Hrole Hname. unfold toggle_publisher_subscription, str_eq.
  rewrite Hname. by rewrite bool_decide_eq_true_2 by done.
Qed.

Lemma toggle_journalist_reader store u journalist target :
  role u = "reader" → get_journalist store target = Some journalist →
  toggle_journalist_subscription store (LoggedIn u) POST target
  = let name :=
      if str_truthy (full_name journalist) then full_name journalist
      else username journalist in
    if bool_decide ((user_pk u, target) ∈ subscribed_journalists store) then
      (RedirectDetail "journalist_detail" target,
       [(SUCCESS, "Unsubscribed from " +:+ name +:+ ".")],
       with_journalist_edges store
         (subscribed_journalists store ∖ {[ (user_pk u, target) ]}))
    else
      (RedirectDetail "journalist_detail" target,
       [(SUCCESS, "Subscribed to " +:+ name +:+ ".")],
       with_journalist_edges store
         (subscribed_journalists store ∪ {[ (user_pk u, target) ]})).
Proof.
  intros Hrole Hjournalist. unfold toggle_journalist_subscription, str_eq.
  rewrite Hjournalist. by rewrite bool_decide_eq_true_2 by done.
Qed.

(** X23.  The subscription buttons are toggles for readers only.  For a
    reader, two POSTs to [toggle_publisher_subscription] for an existing
    publisher (or to [toggle_journalist_subscription] for a user with
    role journalist) leave the subscriptions exactly as they were, one of
    the two answers saying "Subscribed to" and the other "Unsubscribed
    from".  For every other caller the store is never changed: an
    anonymous visitor, a method other than POST, a missing publisher, a
    target user who is not a journalist, and a logged-in user whose role
    is not reader. *)
Theorem subscription_toggles
    (publishers : PublisherTable) (store : Store) (user : RequestUser)
    (method : Method) (target : Z) :
  let by_publisher := toggle_publisher_subscription publishers store user
                        method target in
  let by_journalist := toggle_journalist_subscription store user method
                         target in
  (∀ u name, user = LoggedIn u → role u = "reader" → method = POST →
     publishers !! target = Some name →
     (toggle_publisher_subscription publishers by_publisher.2 user method
        target).2 = store
     ∧ (toggle_publisher_subscription publishers by_publisher.2 user method
          target).1.2 ≠ by_publisher.1.2)
  ∧ (∀ u journalist, user = LoggedIn u → role u = "reader" → method = POST →
       get_journalist store target = Some journalist →
       (toggle_journalist_subscription by_journalist.2 user method
          target).2 = store
       ∧ (toggle_journalist_subscription by_journalist.2 user method
            target).1.2 ≠ by_journalist.1.2)
  ∧ (user = AnonymousUser ∨ method ≠ POST
     ∨ (∃ u, user = LoggedIn u ∧ role u ≠ "reader") →
     by_publisher.2 = store ∧ by_journalist.2 = store)
  ∧ (publishers !! target = None → by_publisher.2 = store)
  ∧ ((∀ v, v ∈ users store → user_pk v = target → role v ≠ "journalist") →
     by_journalist.2 = store).
Proof.
  intros by_publisher by_journalist.
  split; [|split; [|split; [|split]]].
  - intros u name -> Hrole -> Hname. subst by_publisher.
    destruct (toggle_edge_twice (subscribed_publishers store)
                (user_pk u, target)) as [Hin Hout].
    rewrite (toggle_publisher_reader _ store _ _ _ Hrole Hname).
    destruct (decide ((user_pk u, target) ∈ subscribed_publishers store))
      as [Hedge|Hedge].
    + rewrite (bool_decide_eq_true_2 _ Hedge). cbn [fst snd].
      rewrite (toggle_publisher_reader _ _ _ _ _ Hrole Hname).
      cbn [with_publisher_edges subscribed_publishers users
           subscribed_journalists].
      rewrite bool_decide_eq_false_2
        by (rewrite elem_of_difference, elem_of_singleton; by intros [_ ?]).
      cbn [fst snd]. unfold with_publisher_edges, with_journalist_edges.
      cbn [users subscribed_publishers subscribed_journalists].
      rewrite (Hin Hedge), store_eta.
      split; [done|]. intros [=].
    + rewrite (bool_decide_eq_false_2 _ Hedge). cbn [fst snd].
      rewrite (toggle_publisher_reader _ _ _ _ _ Hrole Hname).
      cbn [with_publisher_edges subscribed_publishers users
           subscribed_journalists].
      rewrite bool_decide_eq_true_2
        by (by apply elem_of_union_r, elem_of_singleton).
      cbn [fst snd]. unfold with_publisher_edges, with_journalist_edges.
      cbn [users subscribed_publishers subscribed_journalists].
      rewrite (Hout Hedge), store_eta.
      split; [done|]. intros [=].
  - intros u journalist -> Hrole -> Hjournalist. subst by_journalist.
    destruct (toggle_edge_twice (subscribed_journalists store)
                (user_pk u, target)) as [Hin Hout].
    assert (Hsame : ∀ edges,
              get_journalist (with_journalist_edges store edges) target
              = Some journalist) by done.
    rewrite (toggle_journalist_reader store _ _ _ Hrole Hjournalist).
    cbv zeta.
    destruct (decide ((user_pk u, target) ∈ subscribed_journalists store))
      as [Hedge|Hedge].
    + rewrite (bool_decide_eq_true_2 _ Hedge). cbn [fst snd].
      rewrite (toggle_journalist_reader _ _ _ _ Hrole (Hsame _)). cbv zeta.
      cbn [with_journalist_edges subscribed_publishers users
           subscribed_journalists].
      rewrite bool_decide_eq_false_2
        by (rewrite elem_of_difference, elem_of_singleton; by intros [_ ?]).
      cbn [fst snd]. unfold with_publisher_edges, with_journalist_edges.
      cbn [users subscribed_publishers subscribed_journalists].
      rewrite (Hin Hedge), store_eta.
      split; [done|]. intros [=].
    + rewrite (bool_decide_eq_false_2 _ Hedge). cbn [fst snd].
      rewrite (toggle_journalist_reader _ _ _ _ Hrole (Hsame _)). cbv zeta.
      cbn [with_journalist_edges subscribed_publishers users
           subscribed_journalists].
      rewrite bool_decide_eq_true_2
        by (by apply elem_of_union_r, elem_of_singleton).
      cbn [fst snd]. unfold with_publisher_edges, with_journalist_edges.
      cbn [users subscribed_publishers subscribed_journalists].
      rewrite (Hout Hedge), store_eta.
      split; [done|]. intros [=].
  - subst by_publisher by_journalist.
    unfold toggle_publisher_subscription, toggle_journalist_subscription.
    intros [->|[Hmethod|(u & -> & Hrole)]]; [done| |].
    + destruct user; [done|]. by destruct method.
    + unfold str_eq. rewrite bool_decide_eq_false_2 by done.
      destruct method; try done.
      by destruct (publishers !! target), (get_journalist store target).
  - intros Hnone. subst by_publisher. unfold toggle_publisher_subscription.
    rewrite Hnone. destruct user; [done|]. by destruct method.
  - intros Hnone. subst by_journalist. unfold toggle_journalist_subscription.
    assert (get_journalist store target = None) as ->.
    { unfold get_journalist.
      destruct (filter _ (users store)) as [|v rest] eqn:Hfilter; [done|].
      assert (Hin : v ∈ filter (λ v, user_pk v = target
                                     ∧ role v = "journalist") (users store))
        by (rewrite Hfilter; apply list_elem_of_here).
      apply list_elem_of_filter in Hin as [[Hpk Hrole] Hin].
      by destruct (Hnone v Hin Hpk). }
    destruct user; [done|]. by destruct method.
Qed.









Lemma elem_of_get_queryset store (db : ArticleTable) user id article :
  (id, article) ∈ get_queryset store db user ↔
  db !! id = Some article
  ∧ is_approved article = true ∧ status article = "approved"
  ∧ (role user = "reader" → in_subscriptions store user article = true).
Proof.
  unfold get_queryset, str_eq. case_bool_decide as Hrole.
  - rewrite !list_elem_of_filter, elem_of_map_to_list. cbn [snd]. tauto.
  - rewrite list_elem_of_filter, elem_of_map_to_list. cbn [snd]. tauto.
Qed.





(** X25.  Subscribing puts a reader into the audience.  When a reader
    who is not subscribed to a publisher POSTs to
    [toggle_publisher_subscription], the reader (if the account has an
    e-mail value) is among the publisher's subscribers afterwards, hence
    in the fan-out audience of every article of that publisher, and
    every approved article of that publisher is in the reader's API
    queryset; the subscriptions of all other pairs of user and publisher
    and all journalist subscriptions are as before. *)
Theorem subscribing_joins_audience
    (publishers : PublisherTable) (store : Store) (u : CustomUser)
    (name : string) (target : Z) :
  u ∈ users store →
  role u = "reader" →
  publishers !! target = Some name →
  (user_pk u, target) ∉ subscribed_publishers store →
  let store' :=
    (toggle_publisher_subscription publishers store (LoggedIn u) POST
       target).2 in
  (email u ≠ None → u ∈ publisher_subscribers store' target)
  ∧ (∀ article, publisher article = Some target → email u ≠ None →
       u ∈ all_subscribers (get_subscribers_by_type store' article))
  ∧ (∀ (db : ArticleTable) id article,
       db !! id = Some article → publisher article = Some target →
       is_approved article = true → status article = "approved" →
       (id, article) ∈ get_queryset store' db u)
  ∧ (∀ v p, (user_pk v, p) ≠ (user_pk u, target) →
       (v ∈ publisher_subscribers store' p
        ↔ v ∈ publisher_subscribers store p))
  ∧ (∀ j, journalist_subscribers store' j = journalist_subscribers store j).
Proof.
  intros Huser Hrole Hname Hedge store'.
  assert (Hstore : store'
            = with_publisher_edges store
                (subscribed_publishers store ∪ {[ (user_pk u, target) ]})).
  { subst store'.
    rewrite (toggle_publisher_reader _ store _ _ _ Hrole Hname).
    by rewrite (bool_decide_eq_false_2 _ Hedge). }
  assert (Hnew : (user_pk u, target) ∈ subscribed_publishers store').
  { rewrite Hstore. cbn. by apply elem_of_union_r, elem_of_singleton. }
  assert (Hsub : email u ≠ None → u ∈ publisher_subscribers store' target).
  { intros Hemail. apply list_elem_of_filter. split.
    - split; [done|]. unfold email_not_null. by destruct (email u).
    - by rewrite Hstore. }
  split; [done|]. split; [|split; [|split]].
  - intros article Hpub Hemail.
    unfold get_subscribers_by_type. cbn [all_subscribers]. rewrite Hpub.
    unfold set_union. apply elem_of_app. left. by apply Hsub.
  - intros db id article Hrow Hpub Happroved Hstatus.
    apply elem_of_get_queryset. split; [done|]. split; [done|].
    split; [done|]. intros _. unfold in_subscriptions. rewrite Hpub.
    by rewrite (bool_decide_eq_true_2 _ Hnew).
  - intros v p Hother. unfold publisher_subscribers.
    rewrite !list_elem_of_filter, Hstore. cbn.
    rewrite elem_of_union, elem_of_singleton. tauto.
  - intros j. by rewrite Hstore.
Qed.

Lemma subscribing_joins_audience_witness :
  let store :=
    {| users := [FanoutSample.wes]; subscribed_publishers := ∅;
       subscribed_journalists := ∅ |} in
  let store' :=
    (toggle_publisher_subscription {[ 1%Z := "Daily" ]} store
       (LoggedIn FanoutSample.wes) POST 1%Z).2 in
  FanoutSample.wes
    ∈ all_subscribers
        (get_subscribers_by_type store' (Signals.row FanoutSample.story)).
Proof.
  intros store store'.
  destruct (subscribing_joins_audience {[ 1%Z := "Daily" ]} store
              FanoutSample.wes "Daily" 1%Z)
    as (_ & Haudience & _);
    [apply list_elem_of_here | reflexivity | apply lookup_singleton_eq
     | apply not_elem_of_empty |].
  apply Haudience; [reflexivity | discriminate].
Defined.

End SubscriptionExtras.

Module CleanupExtras.
Import Notifications Cleanup.

Lemma delete_rows_spec (l : list (Z * Notification)) :
  ∀ table : NotificationTable,
    NoDup l.*1 →
    (∀ id row, (id, row) ∈ l → table !! id = Some row) →
    (size (foldr (λ entry rest, delete entry.1 rest) table l) + length l
     = size table)%nat
    ∧ ∀ id, foldr (λ entry rest, delete entry.1 rest) table l !! id
            = if decide (id ∈ l.*1) then None else table !! id.
Proof.
  induction l as [|[id0 row0] l IH]; intros table Hnd Hrows.
  { split; [cbn; lia|]. intros id. cbn. by rewrite decide_False
      by apply not_elem_of_nil. }
  rewrite fmap_cons in Hnd. apply NoDup_cons in Hnd as [Hfresh Hnd].
  cbn [fst] in Hfresh.
  destruct (IH table Hnd) as [Hsize Hlook].
  { intros id row Hin. apply Hrows. by apply list_elem_of_further. }
  cbn [foldr fst length]. split.
  - rewrite map_size_delete_Some.
    + assert (0 < size (foldr (λ entry rest, delete entry.1 rest) table l))%nat;
        [|lia].
      apply Nat.neq_0_lt_0. intros Hzero.
      apply map_size_empty_inv in Hzero.
      pose proof (Hlook id0) as Hid0. rewrite Hzero, lookup_empty in Hid0.
      rewrite decide_False in Hid0 by done.
      rewrite (Hrows id0 row0) in Hid0 by apply list_elem_of_here. done.
    + rewrite Hlook, decide_False by done.
      rewrite (Hrows id0 row0) by apply list_elem_of_here. by eexists.
  - intros id. rewrite fmap_cons. cbn [fst].
    destruct (decide (id = id0)) as [->|Hne].
    + rewrite lookup_delete_eq.
      by rewrite decide_True by apply list_elem_of_here.
    + rewrite lookup_delete_ne by done. rewrite Hlook.
      destruct (decide (id ∈ l.*1)) as [Hin|Hout].
      * by rewrite decide_True by by apply list_elem_of_further.
      * rewrite decide_False; [done|].
        intros Hin. apply elem_of_cons in Hin as [?|?]; done.
Qed.

Lemma delete_id_in_spec (table : NotificationTable) batch_ids :
  let result := delete_id_in table batch_ids in
  (Z.of_nat (size result.2) + result.1 = Z.of_nat (size table))%Z
  ∧ ∀ id, result.2 !! id
          = if decide (id ∈ batch_ids) then None else table !! id.
Proof.
  unfold delete_id_in. cbn [fst snd].
  set (doomed := filter (λ entry : Z * Notification, entry.1 ∈ batch_ids)
                   (map_to_list table)).
  destruct (delete_rows_spec doomed table) as [Hsize Hlook].
  { eapply sublist_NoDup; [apply (NoDup_fst_map_to_list table)|].
    apply fmap_sublist, sublist_filter. }
  { intros id row Hin. apply list_elem_of_filter in Hin as [_ Hin].
    by apply elem_of_map_to_list. }
  split; [lia|]. intros id. rewrite Hlook.
  destruct (decide (id ∈ doomed.*1)) as [Hin|Hout].
  - apply list_elem_of_fmap in Hin as ([id' row] & -> & Hin).
    apply list_elem_of_filter in Hin as [Hbatch _].
    by rewrite decide_True.
  - destruct (decide (id ∈ batch_ids)) as [Hbatch|]; [|done].
    destruct (table !! id) as [row|] eqn:Hrow; [|done].
    exfalso. apply Hout. apply list_elem_of_fmap. exists (id, row).
    split; [done|]. apply list_elem_of_filter. split; [done|].
    by apply elem_of_map_to_list.
Qed.

Lemma elem_of_old_notifications cutoff (table : NotificationTable) id row :
  (id, row) ∈ old_notifications cutoff table
  ↔ table !! id = Some row ∧ is_old cutoff row = true.
Proof.
  unfold old_notifications.
  rewrite list_elem_of_filter, elem_of_map_to_list. cbn. tauto.
Qed.

(** With fuel beyond the size of the table the loop ends, having deleted
    exactly the old rows and counted them. *)
Lemma cleanup_batches_spec cutoff : ∀ fuel (table : NotificationTable)
    deleted_total lines,
  (size table < fuel)%nat →
  ∃ table' lines',
    cleanup_batches fuel cutoff table deleted_total lines
    = Some (table',
            (deleted_total + Z.of_nat (size table) - Z.of_nat (size table'))%Z,
            lines')
    ∧ ∀ id, table' !! id
            = match table !! id with
              | Some row => if is_old cutoff row then None else Some row
              | None => None
              end.
Proof.
  induction fuel as [|fuel IH]; intros table deleted_total lines Hfuel;
    [lia|].
  cbn [cleanup_batches].
  destruct (take 1000 (old_notifications cutoff table).*1)
    as [|id0 batch] eqn:Hbatch.
  - exists table, lines.
    split; [by replace (deleted_total + Z.of_nat (size table)
                         - Z.of_nat (size table))%Z
              with deleted_total by lia|].
    intros id. destruct (table !! id) as [row|] eqn:Hrow; [|done].
    destruct (is_old cutoff row) eqn:Hold; [|done]. exfalso.
    assert (Hin : (id, row) ∈ old_notifications cutoff table)
      by by apply elem_of_old_notifications.
    destruct (old_notifications cutoff table) as [|e l];
      [by apply elem_of_nil in Hin | done].
  - set (batch_ids := id0 :: batch) in *.
    destruct (delete_id_in_spec table batch_ids) as [Hsize Hlook].
    destruct (delete_id_in table batch_ids) as [deleted_count table2].
    cbn [fst snd] in Hsize, Hlook.
    assert (Hsub : ∀ id, id ∈ batch_ids →
              ∃ row, table !! id = Some row ∧ is_old cutoff row = true).
    { intros id Hin. rewrite <-Hbatch in Hin.
      apply (subseteq_take 1000) in Hin.
      apply list_elem_of_fmap in Hin as ([id' row] & -> & Hin).
      apply elem_of_old_notifications in Hin. by exists row. }
    assert (Hless : (size table2 < size table)%nat).
    { destruct (Hsub id0) as (row0 & Hrow0 & _); [apply list_elem_of_here|].
      pose proof (Hlook id0) as Hgone.
      rewrite decide_True in Hgone by apply list_elem_of_here.
      assert (Hle : table2 ⊆ table).
      { apply map_subseteq_spec. intros id row Hrow.
        rewrite Hlook in Hrow. by destruct (decide (id ∈ batch_ids)). }
      destruct (decide (size table2 < size table)%nat) as [?|Hge]; [done|].
      exfalso.
      assert (Heq : table2 = table).
      { apply map_subseteq_size_eq; [done|]. lia. }
      rewrite Heq in Hgone. congruence. }
    destruct (IH table2 (deleted_total + deleted_count)%Z
                (app lines
                   [Plain ("  Deleted batch: " +:+ str_of_int deleted_count
                             +:+ " notifications (Total: "
                             +:+ str_of_int (deleted_total + deleted_count)
                             +:+ ")")]))
      as (table' & lines' & -> & Hfinal); [lia|].
    exists table', lines'.
    split; [by replace (deleted_total + deleted_count
                         + Z.of_nat (size table2) - Z.of_nat (size table'))%Z
              with (deleted_total + Z.of_nat (size table)
                    - Z.of_nat (size table'))%Z by lia|].
    intros id. rewrite Hfinal, Hlook.
    destruct (decide (id ∈ batch_ids)) as [Hin|Hout]; [|done].
    destruct (Hsub id Hin) as (row & -> & ->). done.
Qed.


(** X26.  What the cleanup of [optimize_email_tracking] deletes.  Given
    fuel beyond the number of stored notifications, the batch loop of
    [_cleanup_old_notifications] ends.  Without [--dry-run] the command
    deletes exactly the notifications that are read and whose
    [email_opened_at] is earlier than [now - cleanup_days] days, leaves
    every other row as it was (in particular every unread notification
    and every notification without an open time), and, when there was
    something to delete, its last line reports the number of rows that
    are gone.  With [--dry-run] the table is not changed. *)
Theorem cleanup_deletes_exactly_old
    (fuel : nat) (now : Time) (cleanup_days : Z) (dry_run : bool)
    (table : NotificationTable) :
  (size table < fuel)%nat →
  ∃ table' lines,
    _cleanup_old_notifications fuel now cleanup_days dry_run table
    = Some (table', lines)
    ∧ (dry_run = true → table' = table)
    ∧ (dry_run = false →
       (∀ id, table' !! id
              = match table !! id with
                | Some row =>
                    if is_old (now - cleanup_days * DAY) row then None
                    else Some row
                | None => None
                end)
       ∧ (old_notifications (now - cleanup_days * DAY) table ≠ [] →
          last lines
          = Some (StyledSuccess
                    ("  ✓ Cleaned up "
                       +:+ str_of_int (Z.of_nat (size table)
                                       - Z.of_nat (size table'))
                       +:+ " old notifications"))))
    ∧ (∀ id row, table !! id = Some row →
         is_read row = false ∨ email_opened_at row = None →
         table' !! id = Some row).
Proof.
  intros Hfuel. unfold _cleanup_old_notifications.
  set (cutoff := (now - cleanup_days * DAY)%Z).
  assert (Hnone : old_notifications cutoff table = [] →
            ∀ id, table !! id
                  = match table !! id with
                    | Some row => if is_old cutoff row then None else Some row
                    | None => None
                    end).
  { intros Hempty id. destruct (table !! id) as [row|] eqn:Hrow; [|done].
    destruct (is_old cutoff row) eqn:Hold; [|done]. exfalso.
    assert (Hin : (id, row) ∈ old_notifications cutoff table)
      by by apply elem_of_old_notifications.
    rewrite Hempty in Hin. by apply elem_of_nil in Hin. }
  assert (Hyoung : ∀ row,
            is_read row = false ∨ email_opened_at row = None →
            is_old cutoff row = false).
  { intros row [Hunread|Hnever]; unfold is_old.
    - by rewrite Hunread.
    - rewrite Hnever. apply andb_false_r. }
  case_bool_decide as Hcount.
  { apply length_zero_iff_nil in Hcount.
    exists table, [Plain ("Cleaning up notifications older than "
                            +:+ str_of_int cleanup_days +:+ " days...");
                   Plain "  No notifications to clean up."].
    split; [done|]. split; [done|]. split; [|done].
    intros _. split; [by apply Hnone | done]. }
  destruct dry_run.
  { eexists table, _. split; [done|]. split; [done|]. split; [done|]. done. }
  destruct (cleanup_batches_spec cutoff fuel table 0
              [Plain ("Cleaning up notifications older than "
                        +:+ str_of_int cleanup_days +:+ " days...")] Hfuel)
    as (table' & lines' & -> & Hfinal).
  eexists table', _. split; [done|]. split; [done|]. split.
  - intros _. split; [done|]. intros _.
    rewrite last_snoc. do 2 f_equal.
  - intros id row Hrow Hkeep. rewrite Hfinal, Hrow.
    by rewrite (Hyoung row Hkeep).
Qed.

Lemma cleanup_deletes_exactly_old_witness :
  let opened :=
    {| pk := Some 1%Z; recipient := 3; n_article := Some 5%Z;
       n_title := "T"; message := "M"; notification_type := "publisher";
       is_read := true; email_opened_at := Some 10%Z;
       read_token := "a" |} in
  let unread :=
    {| pk := Some 2%Z; recipient := 4; n_article := Some 5%Z;
       n_title := "T"; message := "M"; notification_type := "publisher";
       is_read := false; email_opened_at := None; read_token := "b" |} in
  let table : NotificationTable := {[ 1%Z := opened; 2%Z := unread ]} in
  ∃ table' lines,
    _cleanup_old_notifications 3 (100 * DAY) 90 false table
    = Some (table', lines)
    ∧ table' !! 1%Z = None ∧ table' !! 2%Z = Some unread.
Proof.
  intros opened unread table.
  destruct (cleanup_deletes_exactly_old 3 (100 * DAY) 90 false table)
    as (table' & lines & Hrun & _ & Hdeleted & _);
    [vm_compute; lia|].
  exists table', lines. split; [exact Hrun|].
  destruct (Hdeleted eq_refl) as [Hlookup _].
  split; rewrite Hlookup; reflexivity.
Defined.

End CleanupExtras.

Module TaskExtras.
Import Models Notifications Subscriptions Signals Tasks.
Import NotificationProofs.

Lemma token_taken_blank (table : NotificationTable) :
  token_taken table (next_id table) "" = true ↔ blank_token_stored table.
Proof.
  split.
  - intros Htaken. unfold token_taken in Htaken.
    apply bool_decide_eq_true in Htaken.
    apply Exists_exists in Htaken as ([id stored] & Hin & _ & Htoken).
    apply elem_of_map_to_list in Hin. by exists id, stored.
  - intros (id & stored & Hrow & Htoken).
    destruct (token_taken table (next_id table) "") eqn:Htaken; [done|].
    exfalso.
    apply (proj1 (token_taken_false _ _ _) Htaken id stored); [done| |done].
    intros ->. by rewrite FanoutProofs.next_id_fresh in Hrow.
Qed.

(** A batch of objects that all have the empty token can be inserted
    only if it holds a single object and no stored row has the empty
    token. *)
Lemma bulk_insert_blank (table : NotificationTable) objs :
  (∀ obj, obj ∈ objs → read_token obj = "") →
  bulk_insert table objs
  = match objs with
    | [] => Some table
    | [obj] =>
        if token_taken table (next_id table) "" then None
        else Some (<[next_id table := with_pk obj (next_id table)]> table)
    | _ => None
    end.
Proof.
  intros Hblank. destruct objs as [|obj1 [|obj2 rest]]; [done| |].
  - cbn [bulk_insert]. rewrite (Hblank obj1) by apply list_elem_of_here.
    by destruct (token_taken table (next_id table) "").
  - cbn [bulk_insert]. rewrite (Hblank obj1) by apply list_elem_of_here.
    destruct (token_taken table (next_id table) ""); [done|].
    rewrite (Hblank obj2)
      by apply list_elem_of_further, list_elem_of_here.
    rewrite (proj2 (token_taken_blank _)); [done|].
    exists (next_id table), (with_pk obj1 (next_id table)).
    split; [apply lookup_insert_eq|]. cbn.
    apply Hblank, list_elem_of_here.
Qed.

Lemma task_notifications_blank article audience obj :
  obj ∈ task_notifications article audience → read_token obj = "".
Proof.
  unfold task_notifications. rewrite elem_of_app.
  intros [Hin|Hin]; apply list_elem_of_fmap in Hin as (u & -> & _); done.
Qed.


Lemma task_nobody_due article audience :
  all_subscribers audience
  = set_union (by_publisher audience) (by_journalist audience) →
  all_subscribers audience = [] →
  task_notifications article audience = [].
Proof.
  intros Hunion Hempty. rewrite Hunion in Hempty. unfold set_union in Hempty.
  apply app_eq_nil in Hempty as [Hpub Hjour].
  unfold task_notifications, task_publisher_due, task_journalist_due.
  rewrite Hpub. cbn [filter list_filter fmap list_fmap app].
  assert (filter (λ u, has_email u = true
                       ∧ queryset_contains [] u = false)
            (by_journalist audience) = []) as ->; [|done].
  rewrite Hpub in Hjour.
  apply elem_of_nil_inv. intros u Hin.
  apply list_elem_of_filter in Hin as [[_ Hnot] Hin].
  assert (Hmem : u ∈ filter (λ u, queryset_contains [] u = false)
                       (by_journalist audience))
    by by apply list_elem_of_filter.
  rewrite Hjour in Hmem. by apply elem_of_nil in Hmem.
Qed.

(** X27.  The Celery task stores its notifications with [bulk_create],
    which does not call [Notification.save]: every object keeps the empty
    [read_token], and the column is unique.  So a run for which two or
    more notifications are due, and a run for which any is due while a
    stored notification has the empty token, fails as a whole: the task
    returns [False], stores nothing and sends nothing.  A run succeeds
    with something to store only when exactly one notification is due and
    no stored row has the empty token; the row it stores has the empty
    token, so from then on every run with anything due fails. *)
Theorem celery_task_blank_tokens
    (settings : MailSettings) (smtp_accepts : EmailMessage → bool)
    (store : Store) (table : NotificationTable) (article : ArticleObject) :
  let audience := get_subscribers_by_type store (row article) in
  let due := task_notifications article audience in
  let result :=
    send_article_emails_task settings smtp_accepts store table
      (Some article) in
  (∀ obj, obj ∈ due → read_token obj = "")
  ∧ ((2 ≤ length due)%nat → result = (false, table, []))
  ∧ ((1 ≤ length due)%nat → blank_token_stored table →
     result = (false, table, []))
  ∧ (∀ obj, due = [obj] → ¬ blank_token_stored table →
       result.1.1 = true
       ∧ result.1.2 = <[next_id table := with_pk obj (next_id table)]> table
       ∧ blank_token_stored result.1.2).
Proof.
  intros audience due result.
  assert (Hblank : ∀ obj, obj ∈ due → read_token obj = "")
    by apply task_notifications_blank.
  assert (Hrun : due ≠ [] →
            result
            = match bulk_create table due with
              | (Raise _, table') => (false, table', [])
              | (Returned, table') =>
                  (true, table',
                   send_mass_mail smtp_accepts []
                     (task_messages settings article audience))
              end).
  { intros Hdue. subst result. unfold send_article_emails_task.
    fold audience. fold due.
    destruct (all_subscribers audience) eqn:Hall; [|done].
    exfalso. apply Hdue. by apply task_nobody_due. }
  clearbody result due.
  split; [done|]. split; [|split].
  - intros Htwo.
    destruct due as [|obj1 [|obj2 rest]]; cbn in Htwo; [lia|lia|].
    rewrite Hrun by done.
    unfold bulk_create. by rewrite (bulk_insert_blank _ _ Hblank).
  - intros Hone Hstored.
    destruct due as [|obj1 rest]; cbn in Hone; [lia|].
    rewrite Hrun by done.
    unfold bulk_create. rewrite (bulk_insert_blank _ _ Hblank).
    destruct rest; [|done].
    by rewrite (proj2 (token_taken_blank _) Hstored).
  - intros obj Hdue Hnone. subst due. rewrite Hrun by done.
    unfold bulk_create. rewrite (bulk_insert_blank _ _ Hblank).
    destruct (token_taken table (next_id table) "") eqn:Htaken.
    { by apply token_taken_blank in Htaken. }
    cbn [fst snd]. split; [done|]. split; [done|].
    exists (next_id table), (with_pk obj (next_id table)).
    split; [apply lookup_insert_eq|]. cbn.
    apply Hblank, list_elem_of_here.
Qed.

Lemma celery_task_blank_tokens_witness :
  let result :=
    send_article_emails_task FanoutSample.mail_settings (λ _, true)
      FanoutSample.followers_store ∅ (Some FanoutSample.story) in
  result = (false, ∅, []).
Proof.
  intros result.
  destruct (celery_task_blank_tokens FanoutSample.mail_settings (λ _, true)
              FanoutSample.followers_store ∅ FanoutSample.story)
    as (_ & Htwo & _).
  apply Htwo. vm_compute. lia.
Defined.


End TaskExtras.
